(** * The node server of the SMB CSI driver (pkg/smb/nodeserver.go)

  A shallow embedding of the node-side mount lifecycle: the mount-point
  prober [ensureMountPoint], the Kerberos credential-cache manager
  ([ensureKerberosCache], [deleteKerberosCache]) and the RPC handlers
  ([NodeStageVolume], [NodePublishVolume], ...).

  Go strings are byte strings: they are modelled by [string] (a sequence
  of 8-bit [ascii]).  Go's [int] and [time.Duration] are modelled by [Z].
  Everything the handlers do to the host (the mounter, the [os] package,
  the volume lock table) is a [Call]; a program is a state transformer
  over an arbitrary host that also records the calls it makes. *)

From stdpp Require Import gmap strings.
From Stdlib Require Import ZArith Ascii Lia.
From Stdlib Require String DecimalString DecimalPos DecimalZ.

Local Open Scope Z_scope.

(** ** Byte strings: the parts of Go's [strings] package that the file uses *)

Module strings.

(** [strings.HasPrefix(s, prefix)] *)
Definition HasPrefix (s prefix : string) : bool := String.prefix prefix s.

(** [strings.TrimPrefix(s, prefix)] *)
Definition TrimPrefix (s prefix : string) : string :=
  if HasPrefix s prefix
  then String.substring (String.length prefix) (String.length s - String.length prefix)%nat s
  else s.

(** [strings.Contains(s, substr)] *)
Fixpoint Contains (s substr : string) : bool :=
  String.prefix substr s ||
  match s with
  | EmptyString => false
  | String _ s' => Contains s' substr
  end.

Fixpoint replace_from (old new : string) (skip : nat) (s : string) : string :=
  match s with
  | EmptyString => EmptyString
  | String c s' =>
      match skip with
      | S k => replace_from old new k s'
      | O =>
          if String.prefix old s
          then new +:+ replace_from old new (String.length old - 1)%nat s'
          else String c (replace_from old new O s')
      end
  end.

Fixpoint intersperse (new s : string) : string :=
  match s with
  | EmptyString => new
  | String c s' => new +:+ String c (intersperse new s')
  end.

(** [strings.ReplaceAll(s, old, new)]: the non-overlapping occurrences of
    [old], leftmost first.  For an empty [old] Go inserts [new] at every
    rune boundary; the model does so at every byte (the same on ASCII). *)
Definition ReplaceAll (s old new : string) : string :=
  match old with
  | EmptyString => intersperse new s
  | String _ _ => replace_from old new O s
  end.

Definition rev (s : string) : string :=
  String.string_of_list_ascii (List.rev (String.list_ascii_of_string s)).

Fixpoint trim_left_byte (c : ascii) (s : string) : string :=
  match s with
  | EmptyString => EmptyString
  | String x s' => if Ascii.eqb x c then trim_left_byte c s' else s
  end.

(** [strings.TrimRight(s, cutset)] for a cutset of one byte, the only use
    in the file ([strings.TrimRight(source, "/")]). *)
Definition TrimRight1 (s : string) (c : ascii) : string :=
  rev (trim_left_byte c (rev s)).

Fixpoint map (f : ascii -> ascii) (s : string) : string :=
  match s with
  | EmptyString => EmptyString
  | String c s' => String (f c) (map f s')
  end.

Fixpoint Forall (P : ascii -> Prop) (s : string) : Prop :=
  match s with
  | EmptyString => True
  | String c s' => P c /\ Forall P s'
  end.

Definition subst1 (old new : ascii) (c : ascii) : ascii :=
  if Ascii.eqb c old then new else c.

End strings.

(** ** [encoding/base64]: the standard encoding with padding *)

Module base64.

Definition encodeStd : string :=
  "ABCDEFGHIJKLMNOPQRSTUVWXYZabcdefghijklmnopqrstuvwxyz0123456789+/".

Definition StdPadding : ascii := "="%char.

(** [enc.encode[i]] *)
Definition encode (i : Z) : ascii :=
  match String.get (Z.to_nat i) encodeStd with
  | Some c => c
  | None => "A"%char
  end.

(** [uint(src[i])] *)
Definition uint (c : ascii) : Z := Z.of_N (N_of_ascii c).

Definition sextet (val : Z) (shift : Z) : ascii :=
  encode (Z.land (Z.shiftr val shift) 63).

(** [base64.StdEncoding.EncodeToString]: three bytes give four characters;
    a remainder of one or two bytes is padded with '='. *)
Fixpoint EncodeToString (src : string) : string :=
  match src with
  | EmptyString => EmptyString
  | String a EmptyString =>
      let val := Z.shiftl (uint a) 16 in
      String (sextet val 18) (String (sextet val 12)
        (String StdPadding (String StdPadding EmptyString)))
  | String a (String b EmptyString) =>
      let val := Z.lor (Z.shiftl (uint a) 16) (Z.shiftl (uint b) 8) in
      String (sextet val 18) (String (sextet val 12)
        (String (sextet val 6) (String StdPadding EmptyString)))
  | String a (String b (String c rest)) =>
      let val := Z.lor (Z.lor (Z.shiftl (uint a) 16) (Z.shiftl (uint b) 8)) (uint c) in
      String (sextet val 18) (String (sextet val 12)
        (String (sextet val 6) (String (sextet val 0) (EncodeToString rest))))
  end.

End base64.

(** [volumeKerberosCacheName]: base64 of the volume id, with '/' replaced by
  '-' and '+' by '_'. *)
Definition volumeKerberosCacheName (volumeID : string) : string :=
let encoded := base64.EncodeToString volumeID in
strings.ReplaceAll (strings.ReplaceAll encoded "/" "-") "+" "_".


(** ** Errors

    A Go [error] is either a gRPC status ([status.Error(code, msg)]) or a
    plain error ([errors.New], [fmt.Errorf], an error of the [os] package).
    [err_kind] is what [os.IsNotExist] and [os.IsExist] look at. *)

Inductive Code : Type :=
| OK | InvalidArgument | NotFound | Aborted | Unimplemented | Internal | Unknown.

Inductive ErrKind : Type := ErrNotExist | ErrExist | ErrOther.

Record error : Type := mkError {
  err_status : option Code;
  err_kind : ErrKind;
  err_text : string
}.

Definition CodeString (c : Code) : string :=
  match c with
  | OK => "OK"
  | InvalidArgument => "InvalidArgument"
  | NotFound => "NotFound"
  | Aborted => "Aborted"
  | Unimplemented => "Unimplemented"
  | Internal => "Internal"
  | Unknown => "Unknown"
  end.

(** [err.Error()], what [%v] prints for an error *)
Definition Error (e : error) : string :=
  match err_status e with
  | Some c => "rpc error: code = " +:+ CodeString c +:+ " desc = " +:+ err_text e
  | None => err_text e
  end.

(** [status.Error(c, msg)] and [status.Errorf(c, format, ...)] *)
Definition status_Error (c : Code) (msg : string) : error :=
  mkError (Some c) ErrOther msg.

(** [fmt.Errorf(format, ...)] (no [%w] verb is used in the file) *)
Definition fmt_Errorf (msg : string) : error := mkError None ErrOther msg.

(** [status.Code(err)]: the code the RPC answers with *)
Definition status_Code (err : option error) : Code :=
  match err with
  | None => OK
  | Some e => match err_status e with Some c => c | None => Unknown end
  end.

Definition os_IsNotExist (err : option error) : bool :=
  match err with
  | Some (mkError _ ErrNotExist _) => true
  | _ => false
  end.

Definition os_IsExist (err : option error) : bool :=
  match err with
  | Some (mkError _ ErrExist _) => true
  | _ => false
  end.

Definition is_nil (err : option error) : bool :=
  match err with None => true | Some _ => false end.

(** ** Time ([time.Duration] counts nanoseconds) *)

Definition Duration : Type := Z.
Definition Second : Duration := 1000000000.
Definition Minute : Duration := 60 * Second.

(** ** Requests (the fields of the CSI messages that the handlers read) *)

Record MountVolume : Type := {
  FsType : string;
  MountFlags : list string;
  VolumeMountGroup : string
}.

Inductive AccessType : Type :=
| AccessMount (m : MountVolume)
| AccessBlock.

Record VolumeCapability : Type := { access_type : option AccessType }.

(** The generated getters are nil-safe. *)
Definition GetMount (cap : option VolumeCapability) : option MountVolume :=
  match cap with
  | Some {| access_type := Some (AccessMount m) |} => Some m
  | _ => None
  end.

Definition is_nil_cap (cap : option VolumeCapability) : bool :=
  match cap with None => true | Some _ => false end.

Definition GetMountFlags (m : option MountVolume) : list string :=
  match m with Some m => MountFlags m | None => [] end.

Definition GetVolumeMountGroup (m : option MountVolume) : string :=
  match m with Some m => VolumeMountGroup m | None => "" end.

(** A Go [map[string]string] is read with [range], in an order the language
    does not fix: a map is the list of its entries in the order of the
    iteration. *)
Definition gomap : Type := list (string * string).

Record NodePublishVolumeRequest : Type := {
  pub_VolumeId : string;
  pub_StagingTargetPath : string;
  pub_TargetPath : string;
  pub_VolumeCapability : option VolumeCapability;
  pub_Readonly : bool
}.

Record NodeUnpublishVolumeRequest : Type := {
  unpub_VolumeId : string;
  unpub_TargetPath : string
}.

Record NodeStageVolumeRequest : Type := {
  stage_VolumeId : string;
  stage_StagingTargetPath : string;
  stage_VolumeCapability : option VolumeCapability;
  stage_Secrets : gomap;
  stage_VolumeContext : gomap
}.

Record NodeUnstageVolumeRequest : Type := {
  unstage_VolumeId : string;
  unstage_StagingTargetPath : string
}.

Record NodeGetVolumeStatsRequest : Type := {
  stats_VolumeId : string;
  stats_VolumePath : string
}.

Inductive VolumeUsage_Unit : Type := VolumeUsage_BYTES | VolumeUsage_INODES.

Record VolumeUsage : Type := {
  usage_Unit : VolumeUsage_Unit;
  usage_Available : Z;
  usage_Total : Z;
  usage_Used : Z
}.

(** ** The host: every call that leaves the file *)

Record MountPoint : Type := {
  mp_Device : string;
  mp_Path : string
}.

Record FileInfo : Type := {
  fi_IsDir : bool;
  fi_IsSymlink : bool
}.

(** A [resource.Quantity] with what [AsInt64] answers for it *)
Record Quantity : Type := {
  q_value : Z;
  q_fits : bool
}.

Definition AsInt64 (q : Quantity) : Z * bool := (q_value q, q_fits q).

Record Metrics : Type := {
  m_Available : Quantity;
  m_Capacity : Quantity;
  m_Used : Quantity;
  m_Inodes : Quantity;
  m_InodesFree : Quantity;
  m_InodesUsed : Quantity
}.

(** [Call X] is a call that answers with an [X].  The first group is
    [d.mounter] (mount.Interface), the second the functions and the lock
    table of package smb that live outside nodeserver.go, the third the
    [os] and [filepath] packages and the volume metrics.  [SMBMount], the
    package's [Mount], also answers with the time the call took:
    [NodeStageVolume] calls it under a poll that has a time bound. *)
Inductive Call : Type -> Type :=
| IsLikelyNotMountPoint (file : string) : Call (bool * option error)
| MounterList : Call (list MountPoint * option error)
| MounterMount (source target fstype : string) (options : list string) : Call (option error)
| Unmount (target : string) : Call (option error)
| SMBMount (source target fsType : string) (mountOptions sensitiveMountOptions : list string) :
    Call (Duration * option error)
| preparePublishPath (path : string) : Call (option error)
| prepareStagePath (path : string) : Call (option error)
| IsCorruptedDir (dir : string) : Call bool
| CleanupMountPoint (path : string) (extensiveMountPointCheck : bool) : Call (option error)
| CleanupSMBMountPoint (path : string) (extensiveMountPointCheck : bool) : Call (option error)
| TryAcquire (volumeID : string) : Call bool
| Release (volumeID : string) : Call unit
| ReadDir (name : string) : Call (list string * option error)
| MkdirAll (path : string) (perm : Z) : Call (option error)
| Remove (name : string) : Call (option error)
| Stat (name : string) : Call (option FileInfo * option error)
| Lstat (name : string) : Call (option FileInfo * option error)
| Readlink (name : string) : Call (string * option error)
| WriteFile (name data : string) (perm : Z) : Call (option error)
| Chown (name : string) (uid gid : Z) : Call (option error)
| Symlink (oldname newname : string) : Call (option error)
| Abs (path : string) : Call (string * option error)
| GetMetrics (path : string) : Call (Metrics * option error).

(** A host of type [W] answers every call and moves to its next state. *)
Class Host (W : Type) : Type :=
  handle : forall X : Type, Call X -> W -> X * W.

(** One call with its answer, as the trace records it *)
Record Event : Type := Ev {
  ev_type : Type;
  ev_call : Call ev_type;
  ev_result : ev_type
}.

Arguments Ev {ev_type} ev_call ev_result.

(** The mount primitive: the bind mount of publish and the network mount
    of stage *)
Definition mount_call {X : Type} (c : Call X) : bool :=
  match c with
  | MounterMount _ _ _ _ => true
  | SMBMount _ _ _ _ _ => true
  | _ => false
  end.

Definition is_mount (e : Event) : bool := mount_call (ev_call e).

Definition mounts (l : list Event) : list Event := List.filter is_mount l.

(** The arguments of the network mounts, in order *)
Definition smb_mount_args (e : Event) : option (string * string * string * list string * list string) :=
  match ev_call e with
  | SMBMount source target fsType mountOptions sensitiveMountOptions =>
      Some (source, target, fsType, mountOptions, sensitiveMountOptions)
  | _ => None
  end.

Definition smb_mounts (l : list Event) : list (string * string * string * list string * list string) :=
  omap smb_mount_args l.

(** ** Programs: state transformers over a host that record their calls *)

Record Outcome (W A : Type) : Type := mkOutcome {
  value : A;
  world : W;
  trace : list Event
}.

Arguments mkOutcome {W A} value world trace.
Arguments value {W A} o.
Arguments world {W A} o.
Arguments trace {W A} o.

Definition M (W : Type) (A : Type) : Type := W -> Outcome W A.

Definition ret {W A} (a : A) : M W A := fun w => mkOutcome a w [].

Definition bind {W A B} (m : M W A) (k : A -> M W B) : M W B :=
  fun w =>
    let o1 := m w in
    let o2 := k (value o1) (world o1) in
    mkOutcome (value o2) (world o2) (trace o1 ++ trace o2).

Definition call {W} `{Host W} {X} (c : Call X) : M W X :=
  fun w => let r := handle X c w in mkOutcome (fst r) (snd r) [Ev c (fst r)].

#[global] Instance M_ret {W} : MRet (M W) := fun A a => ret a.
#[global] Instance M_bind {W} : MBind (M W) := fun A B k m => bind m k.

(** ** What the file takes from the Go runtime and from the rest of package smb *)

(** The Go runtime and standard library: [runtime.GOOS], [strings.ToLower],
    [strings.TrimSpace], [strconv.Quote] (the verb [%q]), the printing of a
    map and of a quantity (the verb [%v]) and
    [base64.StdEncoding.DecodeString]. *)
Class Runtime : Type := {
  GOOS : string;
  ToLower : string -> string;
  TrimSpace : string -> string;
  Quote : string -> string;
  FormatMap : gomap -> string;
  FormatQuantity : Quantity -> string;
  DecodeString : string -> string * option error
}.

(** The constants and pure helpers of package smb that nodeserver.go uses
    and that are declared in other files of the package. *)
Class Package : Type := {
  sourceField : string;
  subDirField : string;
  pvcNamespaceKey : string;
  pvcNameKey : string;
  pvNameKey : string;
  pvcNamespaceMetadata : string;
  pvcNameMetadata : string;
  pvNameMetadata : string;
  usernameField : string;
  passwordField : string;
  domainField : string;
  defaultDomainName : string;
  krb5Prefix : string;
  krb5CacheDirectory : string;
  (** [fmt.Sprintf(volumeOperationAlreadyExistsFmt, volumeID)] *)
  volumeOperationAlreadyExists : string -> string;
  hasGuestMountOptions : list string -> bool;
  replaceWithMap : string -> gomap -> string
}.

(** [m[k] = v] on a Go map *)
Fixpoint map_store (k v : string) (m : gomap) : gomap :=
  match m with
  | [] => [(k, v)]
  | (k', v') :: m' => if String.eqb k' k then (k, v) :: m' else (k', v') :: map_store k v m'
  end.

(** [%d] *)
Definition itoa (n : Z) : string := DecimalString.NilZero.string_of_int (Z.to_int n).

Definition digit (c : ascii) : option Z :=
  let n := Z.of_N (N_of_ascii c) in
  if (48 <=? n) && (n <=? 57) then Some (n - 48) else None.

Fixpoint parse_digits (acc : Z) (s : string) : option Z :=
  match s with
  | EmptyString => Some acc
  | String c s' =>
      match digit c with
      | Some d => parse_digits (acc * 10 + d) s'
      | None => None
      end
  end.

Section Driver.

Context {W : Type} `{!Host W} `{!Runtime} `{!Package}.

Local Abbreviation M := (M W).

(** [strconv.Atoi] on a 64-bit platform: an optional sign and decimal
    digits; the value is clamped when it does not fit. *)
Definition Atoi (s : string) : Z * option error :=
  let syntax := mkError None ErrOther ("strconv.Atoi: parsing " +:+ Quote s +:+ ": invalid syntax") in
  let range := mkError None ErrOther ("strconv.Atoi: parsing " +:+ Quote s +:+ ": value out of range") in
  let '(neg, body) :=
    match s with
    | String "-" r => (true, r)
    | String "+" r => (false, r)
    | _ => (false, s)
    end in
  match body with
  | EmptyString => (0, Some syntax)
  | String _ _ =>
      match parse_digits 0 body with
      | None => (0, Some syntax)
      | Some n =>
          let v := if neg then - n else n in
          if v <? - 2 ^ 63 then (- 2 ^ 63, Some range)
          else if 2 ^ 63 - 1 <? v then (2 ^ 63 - 1, Some range)
          else (v, None)
      end
  end.

(** *** The mount-point prober *)

Definition makeDir (pathname : string) : M (option error) :=
  err ← call (MkdirAll pathname 493 (* 0755 *));
  if negb (is_nil err) && negb (os_IsExist err) then mret err else mret None.

(** [ensureMountPoint]: [inl] is an early return, [inr] the value of
    [notMnt] with which the function goes on. *)
Definition probePrimary (target : string) : M (bool * option error + bool) :=
  '(notMnt, err) ← call (IsLikelyNotMountPoint target);
  if negb (is_nil err) && negb (os_IsNotExist err) then
    corrupted ← call (IsCorruptedDir target);
    if (corrupted : bool) then mret (inr false) else mret (inl (negb notMnt, err))
  else mret (inr notMnt).

Definition probeMountList (target : string) (notMnt : bool) : M (bool * option error + bool) :=
  if negb (String.eqb GOOS "windows") then
    '(mountList, err) ← call MounterList;
    if negb (is_nil err) then mret (inl (negb notMnt, err)) else
    '(targetAbs, err) ← call (Abs target);
    if negb (is_nil err) then mret (inl (negb notMnt, err)) else
    mret (inr (if existsb (fun mountPoint => String.eqb (mp_Path mountPoint) targetAbs) mountList
               then false else notMnt))
  else mret (inr notMnt).

Definition probeFinish (target : string) (notMnt : bool) : M (bool * option error) :=
  if negb notMnt then
    '(_, err) ← call (ReadDir target);
    if is_nil err then mret (negb notMnt, None) else
    unmountErr ← call (Unmount target);
    if negb (is_nil unmountErr) then mret (negb notMnt, unmountErr) else
    let notMnt := true in
    mret (negb notMnt, err)
  else
    err ← makeDir target;
    if negb (is_nil err) then mret (negb notMnt, err) else mret (false, None).

Definition ensureMountPoint (target : string) : M (bool * option error) :=
  r ← probePrimary target;
  match r with
  | inl early => mret early
  | inr notMnt =>
      r ← probeMountList target notMnt;
      match r with
      | inl early => mret early
      | inr notMnt => probeFinish target notMnt
      end
  end.

(** *** Mount flags *)

Definition checkGidPresentInMountFlags (mountFlags : list string) : bool :=
  existsb (fun mountFlag => strings.HasPrefix mountFlag "gid") mountFlags.

Definition hasKerberosMountOption (mountFlags : list string) : bool :=
  existsb (fun mountFlag => strings.HasPrefix mountFlag "sec=krb5") mountFlags.

Fixpoint getCredUID (mountFlags : list string) : Z * option error :=
  let cruidPrefix := "cruid=" in
  match mountFlags with
  | [] => (-1, Some (fmt_Errorf "Can't find credUid in mount flags"))
  | mountFlag :: rest =>
      if strings.HasPrefix mountFlag cruidPrefix
      then Atoi (strings.TrimPrefix mountFlag cruidPrefix)
      else getCredUID rest
  end.

(** *** The credential cache *)

Definition getKrb5CcacheName (credUID : Z) : string := krb5Prefix +:+ itoa credUID.

Definition getKerberosFilePath (fileName : string) : string := krb5CacheDirectory +:+ fileName.

Definition kerberosCacheDirectoryExists : M (bool * option error) :=
  '(_, err) ← call (Stat krb5CacheDirectory);
  match err with
  | Some e =>
      if os_IsNotExist err then
        mret (false, Some (status_Error Internal
          ("Directory for kerberos caches must exist, it will not be created: "
             +:+ krb5CacheDirectory +:+ ": " +:+ Error e)))
      else mret (false, err)
  | None => mret (true, None)
  end.

Definition getKerberosCache (credUID : Z) (secrets : gomap) : string * string * option error :=
  let krb5CcacheName := getKrb5CcacheName credUID in
  let krb5CcacheContent :=
    fold_left (fun content kv => if String.eqb (ToLower (fst kv)) krb5CcacheName then snd kv else content)
      secrets "" in
  if String.eqb krb5CcacheContent "" then
    ("", "", Some (status_Error InvalidArgument ("Empty kerberos cache in key " +:+ krb5CcacheName)))
  else
    let '(content, err) := DecodeString krb5CcacheContent in
    match err with
    | Some e =>
        ("", "", Some (status_Error InvalidArgument
           ("Malformed kerberos cache in key " +:+ krb5CcacheName
              +:+ ", expected to be in base64 form: " +:+ Error e)))
    | None =>
        let krb5CacheFileName := getKerberosFilePath (getKrb5CcacheName credUID) in
        (krb5CacheFileName, content, None)
    end.

Definition ensureKerberosCache (volumeID : string) (mountFlags : list string) (secrets : gomap) :
    M (bool * option error) :=
  let securityIsKerberos := hasKerberosMountOption mountFlags in
  if securityIsKerberos then
    '(_, err) ← kerberosCacheDirectoryExists;
    if negb (is_nil err) then mret (false, err) else
    let '(credUID, err) := getCredUID mountFlags in
    if negb (is_nil err) then mret (false, err) else
    let '(krb5CacheFileName, content, err) := getKerberosCache credUID secrets in
    if negb (is_nil err) then mret (false, err) else
    let volumeIDCacheFileName := volumeKerberosCacheName volumeID in
    let volumeIDCacheAbsolutePath := getKerberosFilePath volumeIDCacheFileName in
    err ← call (WriteFile volumeIDCacheAbsolutePath content 448 (* 0700 *));
    match err with
    | Some e =>
        mret (false, Some (status_Error Internal
          ("Couldn't write kerberos cache to file " +:+ volumeIDCacheAbsolutePath +:+ ": " +:+ Error e)))
    | None =>
    err ← call (Chown volumeIDCacheAbsolutePath credUID credUID);
    match err with
    | Some e =>
        mret (false, Some (status_Error Internal
          ("Couldn't chown kerberos cache " +:+ volumeIDCacheAbsolutePath +:+ " to user "
             +:+ itoa credUID +:+ ": " +:+ Error e)))
    | None =>
    '(_, err) ← call (Stat krb5CacheFileName);
    _ ← (if os_IsNotExist err then mret None else call (Remove krb5CacheFileName));
    err ← call (Symlink volumeIDCacheAbsolutePath krb5CacheFileName);
    match err with
    | Some e =>
        mret (false, Some (status_Error Internal
          ("Couldn't create symlink to a cache file " +:+ krb5CacheFileName +:+ "->"
             +:+ volumeIDCacheFileName +:+ " to user " +:+ itoa credUID +:+ ": " +:+ Error e)))
    | None => mret (true, None)
    end end end
  else mret (false, None).

(** The body of the loop of [deleteKerberosCache] over the directory entries *)
Definition removeSymlinkTo (volumeIDCacheAbsolutePath : string) (name : string) : M unit :=
  let filePath := getKerberosFilePath name in
  '(lStat, _) ← call (Lstat filePath);
  match lStat with
  | Some _ =>
      '(target, _) ← call (Readlink filePath);
      if String.eqb target volumeIDCacheAbsolutePath then
        _ ← call (Remove filePath); mret tt
      else mret tt
  | None => mret tt
  end.

Fixpoint forEach {A} (f : A -> M unit) (l : list A) : M unit :=
  match l with
  | [] => mret tt
  | a :: l' => _ ← f a; forEach f l'
  end.

Definition deleteKerberosCache (volumeID : string) : M (option error) :=
  '(exists_, err) ← kerberosCacheDirectoryExists;
  if negb exists_ then mret None else
  if negb (is_nil err) then mret err else
  let volumeIDCacheFileName := volumeKerberosCacheName volumeID in
  let volumeIDCacheAbsolutePath := getKerberosFilePath volumeIDCacheFileName in
  '(_, err) ← call (Stat volumeIDCacheAbsolutePath);
  if os_IsNotExist err then mret None else
  if negb (is_nil err) then mret err else
  '(dirEntries, _) ← call (ReadDir krb5CacheDirectory);
  _ ← forEach (removeSymlinkTo volumeIDCacheAbsolutePath) dirEntries;
  _ ← call (Remove volumeIDCacheAbsolutePath);
  mret None.

(** *** The poll *)

(** [wait.ErrWaitTimeout] *)
Definition ErrWaitTimeout : error := mkError None ErrOther "timed out waiting for the condition".

(** The loop of [wait.PollImmediate] (k8s.io/apimachinery, a library the
    file imports).  [condition] is an ordinary function call in the
    calling goroutine: the loop can neither interrupt it nor go on without
    it, so every attempt runs to its end, what it wrote to the variables
    it captures ([S]) is kept, and its answer is looked at however long it
    took.  An error ends the poll, and so does [true]; after [false] the
    loop waits for the next tick and tries again, unless the window was
    already closed when the attempt began, which ends the poll with
    [ErrWaitTimeout].  [condition] answers with the time its attempt took;
    [remaining] is what is left of the window when an attempt begins, and
    an attempt that begins at or after its end is the last one. *)
Fixpoint poll {S : Type} (ticks : nat) (interval remaining : Duration)
    (condition : S -> M (Duration * S * (bool * option error))) (s : S) : M (S * option error) :=
  '(elapsed, s', (done, err)) ← condition s;
  if negb (is_nil err) then mret (s', err) else
  if (done : bool) then mret (s', None) else
  if remaining <=? 0 then mret (s', Some ErrWaitTimeout) else
  match ticks with
  | O => mret (s', Some ErrWaitTimeout)
  | S ticks' => poll ticks' interval (remaining - Z.max elapsed interval) condition s'
  end.

(** [wait.PollImmediate(interval, timeout, condition)]: the first attempt
    is made at once; at most [timeout / interval + 1] more follow, one a
    tick and a last one when the window closes. *)
Definition PollImmediate {S : Type} (interval timeout : Duration)
    (condition : S -> M (Duration * S * (bool * option error))) (s : S) : M (S * option error) :=
  poll (Z.to_nat (timeout / interval) + 1)%nat interval timeout condition s.

(** *** Publish and unpublish *)

Definition NodePublishVolume (req : NodePublishVolumeRequest) : M (option error) :=
  if is_nil_cap (pub_VolumeCapability req) then
    mret (Some (status_Error InvalidArgument "Volume capability missing in request")) else
  let volumeID := pub_VolumeId req in
  if (String.length volumeID =? 0)%nat then
    mret (Some (status_Error InvalidArgument "Volume ID missing in request")) else
  let target := pub_TargetPath req in
  if (String.length target =? 0)%nat then
    mret (Some (status_Error InvalidArgument "Target path not provided")) else
  let source := pub_StagingTargetPath req in
  if (String.length source =? 0)%nat then
    mret (Some (status_Error InvalidArgument "Staging target not provided")) else
  let mountOptions := ["bind"] in
  let mountOptions := if pub_Readonly req then mountOptions ++ ["ro"] else mountOptions in
  '(mnt, err) ← ensureMountPoint target;
  match err with
  | Some e =>
      mret (Some (status_Error Internal
        ("Could not mount target " +:+ Quote target +:+ ": " +:+ Error e)))
  | None =>
  if (mnt : bool) then mret None else
  err ← call (preparePublishPath target);
  match err with
  | Some e =>
      mret (Some (fmt_Errorf ("prepare publish failed for " +:+ target +:+ " with error: " +:+ Error e)))
  | None =>
  err ← call (MounterMount source target "" mountOptions);
  match err with
  | Some e =>
      removeErr ← call (Remove target);
      match removeErr with
      | Some re =>
          mret (Some (status_Error Internal
            ("Could not remove mount target " +:+ Quote target +:+ ": " +:+ Error re)))
      | None =>
          mret (Some (status_Error Internal
            ("Could not mount " +:+ Quote source +:+ " at " +:+ Quote target +:+ ": " +:+ Error e)))
      end
  | None => mret None
  end end end.

Definition NodeUnpublishVolume (req : NodeUnpublishVolumeRequest) : M (option error) :=
  let volumeID := unpub_VolumeId req in
  if (String.length volumeID =? 0)%nat then
    mret (Some (status_Error InvalidArgument "Volume ID missing in request")) else
  let targetPath := unpub_TargetPath req in
  if (String.length targetPath =? 0)%nat then
    mret (Some (status_Error InvalidArgument "Target path missing in request")) else
  err ← call (CleanupMountPoint targetPath true);
  match err with
  | Some e =>
      mret (Some (status_Error Internal
        ("failed to unmount target " +:+ Quote targetPath +:+ ": " +:+ Error e)))
  | None => mret None
  end.

(** *** Stage and unstage *)

(** The loop over the volume context (lines 133-148): the source, the
    sub-directory and the replacement map of the placeholders *)
Definition stageContextStep (acc : string * string * gomap) (kv : string * string) :
    string * string * gomap :=
  let '(source, subDir, subDirReplaceMap) := acc in
  let '(k, v) := kv in
  let key := ToLower k in
  if String.eqb key sourceField then (v, subDir, subDirReplaceMap)
  else if String.eqb key subDirField then (source, v, subDirReplaceMap)
  else if String.eqb key pvcNamespaceKey then (source, subDir, map_store pvcNamespaceMetadata v subDirReplaceMap)
  else if String.eqb key pvcNameKey then (source, subDir, map_store pvcNameMetadata v subDirReplaceMap)
  else if String.eqb key pvNameKey then (source, subDir, map_store pvNameMetadata v subDirReplaceMap)
  else acc.

Definition stageContext (context : gomap) : string * string * gomap :=
  fold_left stageContextStep context ("", "", []).

(** The loop over the secrets (lines 159-169) *)
Definition stageSecretsStep (acc : string * string * string) (kv : string * string) :
    string * string * string :=
  let '(username, password, domain) := acc in
  let '(k, v) := kv in
  let key := ToLower k in
  if String.eqb key usernameField then (TrimSpace v, password, domain)
  else if String.eqb key passwordField then (username, TrimSpace v, domain)
  else if String.eqb key domainField then (username, password, TrimSpace v)
  else acc.

Definition stageSecrets (secrets : gomap) : string * string * string :=
  fold_left stageSecretsStep secrets ("", "", "").

(** Lines 159-204: the credentials and the mount options; on a host that
    is not Windows also the credential cache and the staging directory.
    [inl] is the error the handler returns with. *)
Definition stageOptions (volumeID targetPath : string) (mountFlags : list string)
    (volumeMountGroup : string) (secrets : gomap) (gidPresent : bool) :
    M (error + list string * list string) :=
  let '(username, password, domain) := stageSecrets secrets in
  let requireUsernamePwdOption := negb (hasGuestMountOptions mountFlags) in
  if String.eqb GOOS "windows" then
    let domain := if String.eqb domain "" then defaultDomainName else domain in
    if requireUsernamePwdOption then
      let username :=
        if negb (strings.Contains username "\") then domain +:+ "\" +:+ username else username in
      mret (inr ([username], [password]))
    else mret (inr ([], []))
  else
    '(useKerberosCache, err) ← ensureKerberosCache volumeID mountFlags secrets;
    match err with
    | Some e => mret (inl (status_Error Internal ("Error writing kerberos cache: " +:+ Error e)))
    | None =>
    err ← call (MkdirAll targetPath 488 (* 0750 *));
    match err with
    | Some e =>
        mret (inl (status_Error Internal
          ("MkdirAll " +:+ targetPath +:+ " failed with error: " +:+ Error e)))
    | None =>
    let sensitiveMountOptions :=
      if requireUsernamePwdOption && negb useKerberosCache
      then [usernameField +:+ "=" +:+ username +:+ "," +:+ passwordField +:+ "=" +:+ password]
      else [] in
    let mountOptions := mountFlags in
    let mountOptions :=
      if negb gidPresent && negb (String.eqb volumeMountGroup "")
      then mountOptions ++ ["gid=" +:+ volumeMountGroup] else mountOptions in
    let mountOptions :=
      if negb (String.eqb domain "")
      then mountOptions ++ [domainField +:+ "=" +:+ domain] else mountOptions in
    mret (inr (mountOptions, sensitiveMountOptions))
    end end.

(** Lines 219-225: the source that is mounted *)
Definition stageSource (source subDir : string) (subDirReplaceMap : gomap) : string :=
  if negb (String.eqb subDir "") then
    let subDir := replaceWithMap subDir subDirReplaceMap in
    let source := strings.TrimRight1 source "/" in
    source +:+ "/" +:+ subDir
  else source.

Definition stageTimeoutError (volumeID source targetPath : string) : error :=
  status_Error Internal
    ("volume(" +:+ volumeID +:+ ") mount " +:+ Quote source +:+ " on " +:+ Quote targetPath
       +:+ " failed with timeout(10m)").

Definition stageMountError (volumeID source targetPath : string) (e : error) : error :=
  status_Error Internal
    ("volume(" +:+ volumeID +:+ ") mount " +:+ Quote source +:+ " on " +:+ Quote targetPath
       +:+ " failed with " +:+ Error e).

(** Lines 226-237: the mount under the poll.  The condition sets
    [mountComplete] and answers [true] whatever [Mount] returned. *)
Definition stagePoll (volumeID source targetPath : string)
    (mountOptions sensitiveMountOptions : list string) : M (option error) :=
  let mountComplete := false in
  '(mountComplete, err) ← PollImmediate (1 * Second) (2 * Minute)
    (fun _ : bool =>
       '(elapsed, err) ← call (SMBMount source targetPath "cifs" mountOptions sensitiveMountOptions);
       let mountComplete := true in
       mret (elapsed, mountComplete, (true, err)))
    mountComplete;
  if negb mountComplete then mret (Some (stageTimeoutError volumeID source targetPath)) else
  match err with
  | Some e => mret (Some (stageMountError volumeID source targetPath e))
  | None => mret None
  end.

(** Lines 209-241: the probe and, when the target is not mounted, the mount *)
Definition stageMount (volumeID targetPath source subDir : string) (subDirReplaceMap : gomap)
    (mountOptions sensitiveMountOptions : list string) : M (option error) :=
  '(isDirMounted, err) ← ensureMountPoint targetPath;
  match err with
  | Some e =>
      mret (Some (status_Error Internal
        ("Could not mount target " +:+ targetPath +:+ ": " +:+ Error e)))
  | None =>
  if (isDirMounted : bool) then mret None else
  err ← call (prepareStagePath targetPath);
  match err with
  | Some e =>
      mret (Some (fmt_Errorf
        ("prepare stage path failed for " +:+ targetPath +:+ " with error: " +:+ Error e)))
  | None =>
  let source := stageSource source subDir subDirReplaceMap in
  stagePoll volumeID source targetPath mountOptions sensitiveMountOptions
  end end.

Definition NodeStageVolume (req : NodeStageVolumeRequest) : M (option error) :=
  let volumeID := stage_VolumeId req in
  if (String.length volumeID =? 0)%nat then
    mret (Some (status_Error InvalidArgument "Volume ID missing in request")) else
  let volumeCapability := stage_VolumeCapability req in
  if is_nil_cap volumeCapability then
    mret (Some (status_Error InvalidArgument "Volume capability not provided")) else
  let targetPath := stage_StagingTargetPath req in
  if (String.length targetPath =? 0)%nat then
    mret (Some (status_Error InvalidArgument "Staging target not provided")) else
  let context := stage_VolumeContext req in
  let mountFlags := GetMountFlags (GetMount (stage_VolumeCapability req)) in
  let volumeMountGroup := GetVolumeMountGroup (GetMount (stage_VolumeCapability req)) in
  let secrets := stage_Secrets req in
  let gidPresent := checkGidPresentInMountFlags mountFlags in
  let '(source, subDir, subDirReplaceMap) := stageContext context in
  if String.eqb source "" then
    mret (Some (status_Error InvalidArgument
      (sourceField +:+ " field is missing, current context: " +:+ FormatMap context))) else
  acquired ← call (TryAcquire volumeID);
  if negb acquired then
    mret (Some (status_Error Aborted (volumeOperationAlreadyExists volumeID))) else
  (* defer d.volumeLocks.Release(volumeID) *)
  result ← (
    r ← stageOptions volumeID targetPath mountFlags volumeMountGroup secrets gidPresent;
    match r with
    | inl e => mret (Some e)
    | inr (mountOptions, sensitiveMountOptions) =>
        stageMount volumeID targetPath source subDir subDirReplaceMap
          mountOptions sensitiveMountOptions
    end);
  _ ← call (Release volumeID);
  mret result.

Definition NodeUnstageVolume (req : NodeUnstageVolumeRequest) : M (option error) :=
  let volumeID := unstage_VolumeId req in
  if (String.length volumeID =? 0)%nat then
    mret (Some (status_Error InvalidArgument "Volume ID missing in request")) else
  let stagingTargetPath := unstage_StagingTargetPath req in
  if (String.length stagingTargetPath =? 0)%nat then
    mret (Some (status_Error InvalidArgument "Staging target not provided")) else
  acquired ← call (TryAcquire volumeID);
  if negb acquired then
    mret (Some (status_Error Aborted (volumeOperationAlreadyExists volumeID))) else
  (* defer d.volumeLocks.Release(volumeID) *)
  result ← (
    err ← call (CleanupSMBMountPoint stagingTargetPath true);
    match err with
    | Some e =>
        mret (Some (status_Error Internal
          ("failed to unmount staging target " +:+ Quote stagingTargetPath +:+ ": " +:+ Error e)))
    | None =>
    err ← deleteKerberosCache volumeID;
    match err with
    | Some e =>
        mret (Some (status_Error Internal ("failed to delete kerberos cache: " +:+ Error e)))
    | None => mret None
    end end);
  _ ← call (Release volumeID);
  mret result.

(** *** Statistics and expansion *)

Definition NodeGetVolumeStats (req : NodeGetVolumeStatsRequest) :
    M (option (list VolumeUsage) * option error) :=
  if (String.length (stats_VolumeId req) =? 0)%nat then
    mret (None, Some (status_Error InvalidArgument "NodeGetVolumeStats volume ID was empty")) else
  if (String.length (stats_VolumePath req) =? 0)%nat then
    mret (None, Some (status_Error InvalidArgument "NodeGetVolumeStats volume path was empty")) else
  '(_, err) ← call (Lstat (stats_VolumePath req));
  match err with
  | Some e =>
      if os_IsNotExist err then
        mret (None, Some (status_Error NotFound
          ("path " +:+ stats_VolumePath req +:+ " does not exist")))
      else
        mret (None, Some (status_Error Internal
          ("failed to stat file " +:+ stats_VolumePath req +:+ ": " +:+ Error e)))
  | None =>
  '(volumeMetrics, err) ← call (GetMetrics (stats_VolumePath req));
  match err with
  | Some e => mret (None, Some (status_Error Internal ("failed to get metrics: " +:+ Error e)))
  | None =>
  let fail what q :=
    mret (None, Some (status_Error Internal
      ("failed to transform " +:+ what +:+ "(" +:+ FormatQuantity q +:+ ")"))) in
  let '(available, ok) := AsInt64 (m_Available volumeMetrics) in
  if negb ok then fail "volume available size" (m_Available volumeMetrics) else
  let '(capacity, ok) := AsInt64 (m_Capacity volumeMetrics) in
  if negb ok then fail "volume capacity size" (m_Capacity volumeMetrics) else
  let '(used, ok) := AsInt64 (m_Used volumeMetrics) in
  if negb ok then fail "volume used size" (m_Used volumeMetrics) else
  let '(inodesFree, ok) := AsInt64 (m_InodesFree volumeMetrics) in
  if negb ok then fail "disk inodes free" (m_InodesFree volumeMetrics) else
  let '(inodes, ok) := AsInt64 (m_Inodes volumeMetrics) in
  if negb ok then fail "disk inodes" (m_Inodes volumeMetrics) else
  let '(inodesUsed, ok) := AsInt64 (m_InodesUsed volumeMetrics) in
  if negb ok then fail "disk inodes used" (m_InodesUsed volumeMetrics) else
  mret (Some [ {| usage_Unit := VolumeUsage_BYTES; usage_Available := available;
                  usage_Total := capacity; usage_Used := used |};
               {| usage_Unit := VolumeUsage_INODES; usage_Available := inodesFree;
                  usage_Total := inodes; usage_Used := inodesUsed |} ], None)
  end end.

Definition NodeExpandVolume : M (option error) :=
  mret (Some (status_Error Unimplemented "")).

End Driver.

(** ** Concrete instances, to run the handlers *)

(** *** The package *)

(** Modelled from the spec: [replaceWithMap] is declared in another file of
    the package.  The spec has it substitute the placeholder tokens of the
    map into the sub-path: every occurrence of a key is replaced by its
    value, key after key. *)
Definition replaceWithMap_spec (str : string) (m : gomap) : string :=
  fold_left (fun str kv => strings.ReplaceAll str (fst kv) (snd kv)) m str.

(** Modelled from the spec: [hasGuestMountOptions] is declared in another
    file of the package.  The spec speaks of guest-mode flags that
    suppress the username and password requirement; the flag is taken to
    be [guest]. *)
Definition hasGuestMountOptions_spec (options : list string) : bool :=
  existsb (fun v => String.eqb v "guest") options.

(** Modelled from the spec: the constants of package smb, with the keys,
    placeholders and names the spec lists (section 6); the default domain,
    the cache directory and the text of the lock error are not given by the
    spec and are placeholders. *)
#[global] Instance spec_package : Package := {|
  sourceField := "source";
  subDirField := "subdir";
  pvcNamespaceKey := "csi.storage.k8s.io/pvc/namespace";
  pvcNameKey := "csi.storage.k8s.io/pvc/name";
  pvNameKey := "csi.storage.k8s.io/pv/name";
  pvcNamespaceMetadata := "${pvc.metadata.namespace}";
  pvcNameMetadata := "${pvc.metadata.name}";
  pvNameMetadata := "${pv.metadata.name}";
  usernameField := "username";
  passwordField := "password";
  domainField := "domain";
  defaultDomainName := "AzureAD";
  krb5Prefix := "krb5cc_";
  krb5CacheDirectory := "/var/lib/kubelet/kerberos/";
  volumeOperationAlreadyExists := fun volumeID =>
    "An operation with the given Volume ID " +:+ volumeID +:+ " already exists";
  hasGuestMountOptions := hasGuestMountOptions_spec;
  replaceWithMap := replaceWithMap_spec
|}.

(** *** A runtime for ASCII text *)

Definition ascii_lower (c : ascii) : ascii :=
  let n := N_of_ascii c in
  if ((65 <=? n) && (n <=? 90))%N then ascii_of_N (n + 32) else c.

Definition is_space (c : ascii) : bool :=
  let n := N_of_ascii c in
  ((n =? 32) || ((9 <=? n) && (n <=? 13)))%N.

Fixpoint trim_left_space (s : string) : string :=
  match s with
  | EmptyString => EmptyString
  | String c s' => if is_space c then trim_left_space s' else s
  end.

Definition quote_char : ascii := ascii_of_N 34.

Fixpoint index_of (c : ascii) (s : string) (i : Z) : option Z :=
  match s with
  | EmptyString => None
  | String x s' => if Ascii.eqb x c then Some i else index_of c s' (i + 1)
  end.

Definition decode_char (c : ascii) : option Z := index_of c base64.encodeStd 0.

Definition byte_of (n : Z) : ascii := ascii_of_N (Z.to_N (Z.land n 255)).

(** A strict decoder of padded base64 (it does not skip line breaks) *)
Fixpoint decode_strict (s : string) : option string :=
  match s with
  | EmptyString => Some EmptyString
  | String a (String b (String c (String d rest))) =>
      match decode_char a, decode_char b with
      | Some x, Some y =>
          let b0 := byte_of (Z.lor (Z.shiftl x 2) (Z.shiftr y 4)) in
          if Ascii.eqb c base64.StdPadding then
            if Ascii.eqb d base64.StdPadding && String.eqb rest "" then Some (String b0 EmptyString)
            else None
          else
            match decode_char c with
            | Some z =>
                let b1 := byte_of (Z.lor (Z.shiftl y 4) (Z.shiftr z 2)) in
                if Ascii.eqb d base64.StdPadding then
                  if String.eqb rest "" then Some (String b0 (String b1 EmptyString)) else None
                else
                  match decode_char d, decode_strict rest with
                  | Some w, Some r =>
                      let b2 := byte_of (Z.lor (Z.shiftl z 6) w) in
                      Some (String b0 (String b1 (String b2 r)))
                  | _, _ => None
                  end
            | None => None
            end
      | _, _ => None
      end
  | _ => None
  end.

#[global] Instance linux_runtime : Runtime := {|
  GOOS := "linux";
  ToLower := strings.map ascii_lower;
  TrimSpace := fun s => strings.rev (trim_left_space (strings.rev (trim_left_space s)));
  Quote := fun s => String quote_char s +:+ String quote_char EmptyString;
  FormatMap := fun m =>
    "map[" +:+ fold_right (fun kv acc => fst kv +:+ ":" +:+ snd kv +:+ " " +:+ acc) "]" m;
  FormatQuantity := fun q => itoa (q_value q);
  DecodeString := fun s =>
    match decode_strict s with
    | Some content => (content, None)
    | None => ("", Some (mkError None ErrOther "illegal base64 data"))
    end
|}.

Definition windows_runtime : Runtime := {|
  GOOS := "windows";
  ToLower := @ToLower linux_runtime;
  TrimSpace := @TrimSpace linux_runtime;
  Quote := @Quote linux_runtime;
  FormatMap := @FormatMap linux_runtime;
  FormatQuantity := @FormatQuantity linux_runtime;
  DecodeString := @DecodeString linux_runtime
|}.

(** *** A scripted host: every call has a fixed answer *)

Definition Script : Type := forall X : Type, Call X -> X.

#[global] Instance script_host : Host Script := fun X c w => (w X c, w).

Definition no_metrics : Metrics :=
  let q := {| q_value := 0; q_fits := true |} in
  {| m_Available := q; m_Capacity := q; m_Used := q;
     m_Inodes := q; m_InodesFree := q; m_InodesUsed := q |}.

(** The answers of a host on which nothing is mounted and nothing fails *)
Definition quiet : Script := fun X c =>
  match c in Call X return X with
  | IsLikelyNotMountPoint _ => (true, None)
  | MounterList => ([], None)
  | MounterMount _ _ _ _ => None
  | Unmount _ => None
  | SMBMount _ _ _ _ _ => (0, None)
  | preparePublishPath _ => None
  | prepareStagePath _ => None
  | IsCorruptedDir _ => false
  | CleanupMountPoint _ _ => None
  | CleanupSMBMountPoint _ _ => None
  | TryAcquire _ => true
  | Release _ => tt
  | ReadDir _ => ([], None)
  | MkdirAll _ _ => None
  | Remove _ => None
  | Stat _ => (Some {| fi_IsDir := false; fi_IsSymlink := false |}, None)
  | Lstat _ => (Some {| fi_IsDir := false; fi_IsSymlink := false |}, None)
  | Readlink _ => ("", Some (mkError None ErrOther "invalid argument"))
  | WriteFile _ _ _ => None
  | Chown _ _ _ => None
  | Symlink _ _ => None
  | Abs path => (path, None)
  | GetMetrics _ => (no_metrics, None)
  end.

Definition EIO : error := mkError None ErrOther "input/output error".

(** *** An ideal host

    A file tree keyed by path, a mount table and a lock table.  A call
    fails only for a cause that the state shows (a missing file, a
    directory in the place of a file, a name that is taken).  Paths are
    absolute and clean; the parents of a path are not tracked. *)

Inductive node : Type :=
| Dir
| File (content : string) (uid gid : Z)
| Link (target : string).

Record Ideal : Type := mkIdeal {
  files : gmap string node;
  table : list MountPoint;
  held : gset string
}.

Definition ENOENT : error := mkError None ErrNotExist "no such file or directory".
Definition EEXIST : error := mkError None ErrExist "file exists".
Definition ENOTDIR : error := mkError None ErrOther "not a directory".
Definition EISDIR : error := mkError None ErrOther "is a directory".
Definition ELOOP : error := mkError None ErrOther "too many levels of symbolic links".
Definition EINVAL : error := mkError None ErrOther "invalid argument".
Definition ENOTEMPTY : error := mkError None ErrOther "directory not empty".
Definition EBUSY : error := mkError None ErrOther "device or resource busy".

Definition set_files (w : Ideal) (fs : gmap string node) : Ideal :=
  mkIdeal fs (table w) (held w).

Definition set_table (w : Ideal) (t : list MountPoint) : Ideal :=
  mkIdeal (files w) t (held w).

Definition set_held (w : Ideal) (h : gset string) : Ideal :=
  mkIdeal (files w) (table w) h.

(** Where a path leads when symbolic links are followed *)
Inductive resolved : Type :=
| RNode (path : string) (n : node)
| RMissing (path : string)
| RLoop.

Fixpoint resolve (fuel : nat) (fs : gmap string node) (path : string) : resolved :=
  match fs !! path with
  | None => RMissing path
  | Some (Link target) =>
      match fuel with
      | O => RLoop
      | S fuel' => resolve fuel' fs target
      end
  | Some n => RNode path n
  end.

Definition maxSymlinks : nat := 40.

Fixpoint strip_prefix (p s : string) : option string :=
  match p with
  | EmptyString => Some s
  | String a p' =>
      match s with
      | EmptyString => None
      | String b s' => if Ascii.eqb a b then strip_prefix p' s' else None
      end
  end.

Fixpoint has_byte (c : ascii) (s : string) : bool :=
  match s with
  | EmptyString => false
  | String x s' => Ascii.eqb x c || has_byte c s'
  end.

Definition with_slash (d : string) : string :=
  match strings.rev d with
  | String "/" _ => d
  | _ => d +:+ "/"
  end.

(** The name under which the path [k] is an entry of the directory [d] *)
Definition entry_name (d k : string) : option string :=
  match strip_prefix (with_slash d) k with
  | Some n => if String.eqb n "" || has_byte "/" n then None else Some n
  | None => None
  end.

(** The entries of a directory, in the order of the map ([os.ReadDir]
    sorts them by name; the one loop over them in the file does not depend
    on the order) *)
Definition children (fs : gmap string node) (d : string) : list string :=
  omap (entry_name d) (map fst (map_to_list fs)).

Definition info_of (n : node) : FileInfo :=
  match n with
  | Dir => {| fi_IsDir := true; fi_IsSymlink := false |}
  | File _ _ _ => {| fi_IsDir := false; fi_IsSymlink := false |}
  | Link _ => {| fi_IsDir := false; fi_IsSymlink := true |}
  end.

Definition mounted (w : Ideal) (path : string) : bool :=
  existsb (fun mp => String.eqb (mp_Path mp) path) (table w).

Definition ideal_Stat (name : string) (w : Ideal) : option FileInfo * option error :=
  match resolve maxSymlinks (files w) name with
  | RNode _ n => (Some (info_of n), None)
  | RMissing _ => (None, Some ENOENT)
  | RLoop => (None, Some ELOOP)
  end.

Definition ideal_Lstat (name : string) (w : Ideal) : option FileInfo * option error :=
  match files w !! name with
  | Some n => (Some (info_of n), None)
  | None => (None, Some ENOENT)
  end.

Definition ideal_Readlink (name : string) (w : Ideal) : string * option error :=
  match files w !! name with
  | Some (Link target) => (target, None)
  | Some _ => ("", Some EINVAL)
  | None => ("", Some ENOENT)
  end.

Definition ideal_ReadDir (name : string) (w : Ideal) : list string * option error :=
  match resolve maxSymlinks (files w) name with
  | RNode path Dir => (children (files w) path, None)
  | RNode _ _ => ([], Some ENOTDIR)
  | RMissing _ => ([], Some ENOENT)
  | RLoop => ([], Some ELOOP)
  end.

Definition ideal_MkdirAll (path : string) (w : Ideal) : option error * Ideal :=
  match resolve maxSymlinks (files w) path with
  | RNode _ Dir => (None, w)
  | RNode _ _ => (Some ENOTDIR, w)
  | RMissing p =>
      if String.eqb p path then (None, set_files w (<[path := Dir]> (files w)))
      else (Some EEXIST, w)
  | RLoop => (Some ELOOP, w)
  end.

Definition ideal_Remove (name : string) (w : Ideal) : option error * Ideal :=
  match files w !! name with
  | None => (Some ENOENT, w)
  | Some Dir =>
      if mounted w name then (Some EBUSY, w)
      else match children (files w) name with
           | [] => (None, set_files w (delete name (files w)))
           | _ :: _ => (Some ENOTEMPTY, w)
           end
  | Some _ => (None, set_files w (delete name (files w)))
  end.

Definition ideal_WriteFile (name data : string) (w : Ideal) : option error * Ideal :=
  match resolve maxSymlinks (files w) name with
  | RNode path (File _ uid gid) => (None, set_files w (<[path := File data uid gid]> (files w)))
  | RNode _ _ => (Some EISDIR, w)
  | RMissing path => (None, set_files w (<[path := File data 0 0]> (files w)))
  | RLoop => (Some ELOOP, w)
  end.

Definition ideal_Chown (name : string) (uid gid : Z) (w : Ideal) : option error * Ideal :=
  match resolve maxSymlinks (files w) name with
  | RNode path (File content _ _) =>
      (None, set_files w (<[path := File content uid gid]> (files w)))
  | RNode _ _ => (None, w)
  | RMissing _ => (Some ENOENT, w)
  | RLoop => (Some ELOOP, w)
  end.

Definition ideal_Symlink (oldname newname : string) (w : Ideal) : option error * Ideal :=
  match files w !! newname with
  | Some _ => (Some EEXIST, w)
  | None => (None, set_files w (<[newname := Link oldname]> (files w)))
  end.

Definition ideal_IsLikelyNotMountPoint (file : string) (w : Ideal) : bool * option error :=
  match files w !! file with
  | None => (true, Some ENOENT)
  | Some _ => (negb (mounted w file), None)
  end.

Definition ideal_Mount (source target : string) (w : Ideal) : option error * Ideal :=
  (None, set_table w (table w ++ [ {| mp_Device := source; mp_Path := target |} ])).

(** A bind mount needs its source. *)
Definition ideal_BindMount (source target : string) (w : Ideal) : option error * Ideal :=
  match files w !! source with
  | None => (Some ENOENT, w)
  | Some _ => ideal_Mount source target w
  end.

Definition ideal_Unmount (target : string) (w : Ideal) : option error * Ideal :=
  if mounted w target
  then (None, set_table w (filter (fun mp => mp_Path mp ≠ target) (table w)))
  else (Some EINVAL, w).

Definition ideal_Cleanup (path : string) (w : Ideal) : option error * Ideal :=
  match files w !! path with
  | None => (None, w)
  | Some _ =>
      let w := if mounted w path then snd (ideal_Unmount path w) else w in
      ideal_Remove path w
  end.

Definition ideal_TryAcquire (volumeID : string) (w : Ideal) : bool * Ideal :=
  if decide (volumeID ∈ held w) then (false, w)
  else (true, set_held w ({[ volumeID ]} ∪ held w)).

Definition ideal_Release (volumeID : string) (w : Ideal) : unit * Ideal :=
  (tt, set_held w (held w ∖ {[ volumeID ]})).

#[global] Instance ideal_host : Host Ideal := fun X c =>
  match c in Call X return Ideal -> X * Ideal with
  | IsLikelyNotMountPoint file => fun w => (ideal_IsLikelyNotMountPoint file w, w)
  | MounterList => fun w => ((table w, None), w)
  | MounterMount source target _ _ => ideal_BindMount source target
  | Unmount target => ideal_Unmount target
  | SMBMount source target _ _ _ => fun w =>
      let (err, w') := ideal_Mount source target w in ((0, err), w')
  | preparePublishPath _ => fun w => (None, w)
  | prepareStagePath _ => fun w => (None, w)
  | IsCorruptedDir _ => fun w => (false, w)
  | CleanupMountPoint path _ => ideal_Cleanup path
  | CleanupSMBMountPoint path _ => ideal_Cleanup path
  | TryAcquire volumeID => ideal_TryAcquire volumeID
  | Release volumeID => ideal_Release volumeID
  | ReadDir name => fun w => (ideal_ReadDir name w, w)
  | MkdirAll path _ => ideal_MkdirAll path
  | Remove name => ideal_Remove name
  | Stat name => fun w => (ideal_Stat name w, w)
  | Lstat name => fun w => (ideal_Lstat name w, w)
  | Readlink name => fun w => (ideal_Readlink name w, w)
  | WriteFile name data _ => ideal_WriteFile name data
  | Chown name uid gid => ideal_Chown name uid gid
  | Symlink oldname newname => ideal_Symlink oldname newname
  | Abs path => fun w => ((path, None), w)
  | GetMetrics _ => fun w => ((no_metrics, None), w)
  end.

(** ** Hosts and requests used as examples *)

Definition mount_capability (mountFlags : list string) : option VolumeCapability :=
  Some {| access_type :=
            Some (AccessMount {| FsType := "cifs"; MountFlags := mountFlags;
                                 VolumeMountGroup := "" |}) |}.

Definition stage_v1 : NodeStageVolumeRequest := {|
  stage_VolumeId := "v1";
  stage_StagingTargetPath := "/staging";
  stage_VolumeCapability := mount_capability [];
  stage_Secrets := [("username", "u"); ("password", "p")];
  stage_VolumeContext := [("source", "//server/share")]
|}.

Definition stage_v1_no_secrets : NodeStageVolumeRequest := {|
  stage_VolumeId := "v1";
  stage_StagingTargetPath := "/staging";
  stage_VolumeCapability := mount_capability [];
  stage_Secrets := [];
  stage_VolumeContext := [("source", "//server/share")]
|}.

Definition stage_v1_subdir : NodeStageVolumeRequest := {|
  stage_VolumeId := "v1";
  stage_StagingTargetPath := "/staging";
  stage_VolumeCapability := mount_capability [];
  stage_Secrets := [("username", "u"); ("password", "p")];
  stage_VolumeContext :=
    [("source", "//server/share//");
     ("subDir", "${pvc.metadata.namespace}/${pvc.metadata.name}");
     ("csi.storage.k8s.io/pvc/namespace", "ns1");
     ("csi.storage.k8s.io/pvc/name", "claim1")]
|}.

Definition publish_v1 : NodePublishVolumeRequest := {|
  pub_VolumeId := "v1";
  pub_StagingTargetPath := "/staging";
  pub_TargetPath := "/target";
  pub_VolumeCapability := mount_capability [];
  pub_Readonly := true
|}.

(** An ideal host with an empty file tree *)
Definition fresh_host : Ideal := mkIdeal ∅ [] ∅.

Definition kerberos_flags : list string := ["sec=krb5"; "cruid=1000"].

Definition kerberos_secrets : gomap := [("krb5cc_1000", "dGlja2V0")].

(** An ideal host with the cache directory and the cache file of the
    volume [v2] *)
Definition kerberos_host : Ideal :=
  mkIdeal
    (<["/var/lib/kubelet/kerberos/" := Dir]>
       (<["/var/lib/kubelet/kerberos/djI=" := File "other" 1000 1000]> ∅))
    [] ∅.

(** The target is in the mount table and its listing fails. *)
Definition stale : Script := fun X c =>
  match c in Call X return X with
  | IsLikelyNotMountPoint _ => (false, None)
  | ReadDir _ => ([], Some EIO)
  | c' => quiet _ c'
  end.

(** Preparing the publish or the stage path fails. *)
Definition prepare_fails : Script := fun X c =>
  match c in Call X return X with
  | preparePublishPath _ => Some EIO
  | prepareStagePath _ => Some EIO
  | c' => quiet _ c'
  end.

(** [os.Stat] fails with an error that is not "does not exist". *)
Definition stat_fails : Script := fun X c =>
  match c in Call X return X with
  | Stat _ => (None, Some EIO)
  | c' => quiet _ c'
  end.

(** The network mount returns after three minutes. *)
Definition slow_mount : Script := fun X c =>
  match c in Call X return X with
  | SMBMount _ _ _ _ _ => (3 * Minute, None)
  | c' => quiet _ c'
  end.

Definition unstage_v1 : NodeUnstageVolumeRequest := {|
  unstage_VolumeId := "v1";
  unstage_StagingTargetPath := "/staging"
|}.

(** A request with mount flags, a volume mount group and a domain *)
Definition stage_v1_group : NodeStageVolumeRequest := {|
  stage_VolumeId := "v1";
  stage_StagingTargetPath := "/staging";
  stage_VolumeCapability :=
    Some {| access_type :=
              Some (AccessMount {| FsType := "cifs"; MountFlags := ["vers=3.0"];
                                   VolumeMountGroup := "1000" |}) |};
  stage_Secrets := [("username", "u"); ("password", "p"); ("domain", "CORP")];
  stage_VolumeContext := [("source", "//server/share")]
|}.

(** A request for a guest mount *)
Definition stage_v1_guest : NodeStageVolumeRequest := {|
  stage_VolumeId := "v1";
  stage_StagingTargetPath := "/staging";
  stage_VolumeCapability := mount_capability ["guest"];
  stage_Secrets := [("username", "u"); ("password", "p")];
  stage_VolumeContext := [("source", "//server/share")]
|}.

(** A request for a Kerberos mount *)
Definition stage_v1_kerberos : NodeStageVolumeRequest := {|
  stage_VolumeId := "v1";
  stage_StagingTargetPath := "/staging";
  stage_VolumeCapability := mount_capability kerberos_flags;
  stage_Secrets := kerberos_secrets;
  stage_VolumeContext := [("source", "//server/share")]
|}.

(** The lock of every volume is held. *)
Definition busy : Script := fun X c =>
  match c in Call X return X with
  | TryAcquire _ => false
  | c' => quiet _ c'
  end.

(** The mount table lists the target, which the first check takes for a
    plain directory. *)
Definition bind_mounted : Script := fun X c =>
  match c in Call X return X with
  | MounterList => ([ {| mp_Device := "/staging"; mp_Path := "/target" |} ], None)
  | c' => quiet _ c'
  end.

(** ** Vocabulary of the statements *)

(** A program is silent when it never calls the mount primitive. *)
Definition silent {W A} (m : M W A) : Prop := forall w, mounts (trace (m w)) = [].

(** The value and the final host of a program satisfy [Q]. *)
Definition wp {W A} (m : M W A) (w : W) (Q : A -> W -> Prop) : Prop :=
  Q (value (m w)) (world (m w)).

(** What the cleanup loop of [deleteKerberosCache] may do to a file tree:
    unlink symbolic links to [volPath], nothing else *)
Definition only_unlinks (volPath : string) (fs fs' : gmap string node) : Prop :=
  forall p, fs' !! p = fs !! p \/ (fs' !! p = None /\ fs !! p = Some (Link volPath)).

(** A byte that the renaming of [volumeKerberosCacheName] does not produce *)
Definition plain (c : ascii) : Prop := c <> "-"%char /\ c <> "_"%char.

(** A class of calls *)
Definition kind : Type := forall X : Type, Call X -> bool.

(** The events of a trace whose call is of the class [k] *)
Definition of_kind (k : kind) (l : list Event) : list Event :=
  List.filter (fun e => k _ (ev_call e)) l.

(** A program avoids a class of calls when it never makes one. *)
Definition avoids {W A} (k : kind) (m : M W A) : Prop :=
  forall w, of_kind k (trace (m w)) = [].

(** The calls of the lock table *)
Definition locking : kind := fun X c =>
  match c with
  | TryAcquire _ | Release _ => true
  | _ => false
  end.

(** The calls that change a file: its content, its owner, its name *)
Definition file_change : kind := fun X c =>
  match c with
  | WriteFile _ _ _ | Chown _ _ _ | Symlink _ _ | Remove _ => true
  | _ => false
  end.

(** The calls that read the mount table *)
Definition table_read : kind := fun X c =>
  match c with
  | MounterList | Abs _ => true
  | _ => false
  end.

(** Every call but the two reads of [NodeGetVolumeStats] *)
Definition not_stat_read : kind := fun X c =>
  match c with
  | Lstat _ | GetMetrics _ => false
  | _ => true
  end.

(** The names that a trace removes, in order *)
Definition removed (l : list Event) : list string :=
  omap (fun e => match ev_call e with Remove name => Some name | _ => None end) l.

(** The path that a call of the [os] package changes *)
Definition changed_path (e : Event) : option string :=
  match ev_call e with
  | WriteFile name _ _ => Some name
  | Chown name _ _ => Some name
  | Symlink _ newname => Some newname
  | Remove name => Some name
  | MkdirAll path _ => Some path
  | _ => None
  end.

(** The targets that a trace unmounts, in order *)
Definition unmounted (l : list Event) : list string :=
  omap (fun e => match ev_call e with Unmount target => Some target | _ => None end) l.

(** * Properties *)

(** ** Strings *)

Lemma append_inj_r (p s1 s2 : string) : p +:+ s1 = p +:+ s2 -> s1 = s2.
Proof. induction p as [| c p IH]; simpl; [trivial | intros E; injection E as E; auto]. Qed.

Lemma append_nil_r (s : string) : s +:+ "" = s.
Proof.
  induction s as [| c s IH]; [reflexivity |].
  change (String c (s +:+ "") = String c s). f_equal. exact IH.
Qed.

Lemma append_eq_self (p x : string) : p +:+ x = p -> x = "".
Proof. intros E. rewrite <- (append_nil_r p) in E at 2. exact (append_inj_r _ _ _ E). Qed.

Lemma append_nonempty_r (p x : string) : x <> "" -> p +:+ x <> "".
Proof. destruct p; cbn; [trivial | discriminate]. Qed.

Lemma append_nonempty_l (p x : string) : p <> "" -> p +:+ x <> "".
Proof. destruct p; [congruence | discriminate]. Qed.

Lemma length_nonempty (s : string) : s <> "" -> (String.length s =? 0)%nat = false.
Proof. destruct s; [congruence | reflexivity]. Qed.

Lemma eqb_nonempty (s : string) : s <> "" -> String.eqb s "" = false.
Proof. intros Hs. apply String.eqb_neq. exact Hs. Qed.

Lemma itoa_nonempty (n : Z) : itoa n <> "".
Proof.
  unfold itoa. destruct (Z.to_int n) as [d | d]; cbn; [destruct d; discriminate | discriminate].
Qed.

Lemma ReplaceAll_byte (s : string) (old new : ascii) :
  strings.ReplaceAll s (String old EmptyString) (String new EmptyString)
  = strings.map (strings.subst1 old new) s.
Proof.
  unfold strings.ReplaceAll.
  induction s as [| c s IH]; [reflexivity |].
  cbn [strings.replace_from strings.map String.prefix String.length Nat.sub].
  unfold strings.subst1 at 1.
  destruct (ascii_dec old c) as [-> | Hne].
  - rewrite Ascii.eqb_refl. destruct s; cbn [String.prefix String.append]; rewrite IH; reflexivity.
  - destruct (Ascii.eqb_spec c old) as [-> | _]; [contradiction |].
    rewrite IH. reflexivity.
Qed.

(** ** The base64 encoding is injective *)

Lemma land_shiftl_small (x y k : Z) :
  0 <= k -> 0 <= y < 2 ^ k -> Z.land (Z.shiftl x k) y = 0.
Proof.
  intros Hk Hy. apply Z.bits_inj'. intros n Hn.
  rewrite Z.land_spec, Z.bits_0.
  destruct (Z.lt_ge_cases n k) as [Hlt | Hge].
  - rewrite Z.shiftl_spec_low by lia. reflexivity.
  - destruct (Z.eq_dec y 0) as [-> | Hne].
    + rewrite Z.bits_0. apply andb_false_r.
    + rewrite (Z.bits_above_log2 y n); [apply andb_false_r | lia |].
      apply Z.log2_lt_pow2; [lia |].
      apply Z.lt_le_trans with (2 ^ k); [lia |].
      apply Z.pow_le_mono_r; lia.
Qed.

Lemma lor_shiftl_small (x y k : Z) :
  0 <= k -> 0 <= y < 2 ^ k -> Z.lor (Z.shiftl x k) y = x * 2 ^ k + y.
Proof.
  intros Hk Hy.
  rewrite <- (Z.shiftl_mul_pow2 x k) by lia.
  rewrite <- Z.add_lor_land, land_shiftl_small by assumption. lia.
Qed.

Lemma uint_range (c : ascii) : 0 <= base64.uint c < 256.
Proof. unfold base64.uint. pose proof (N_ascii_bounded c). lia. Qed.

Lemma uint_inj (a b : ascii) : base64.uint a = base64.uint b -> a = b.
Proof.
  unfold base64.uint. intros H%(inj Z.of_N).
  rewrite <- (ascii_N_embedding a), <- (ascii_N_embedding b). congruence.
Qed.

Lemma sextet_index (v k : Z) : 0 <= k -> Z.land (Z.shiftr v k) 63 = (v / 2 ^ k) mod 64.
Proof.
  intros Hk. rewrite Z.shiftr_div_pow2 by lia.
  change 63 with (Z.ones 6). rewrite Z.land_ones by lia. reflexivity.
Qed.

Lemma val3_eq (a b c : ascii) :
  Z.lor (Z.lor (Z.shiftl (base64.uint a) 16) (Z.shiftl (base64.uint b) 8)) (base64.uint c)
  = base64.uint a * 65536 + base64.uint b * 256 + base64.uint c.
Proof.
  pose proof (uint_range a). pose proof (uint_range b). pose proof (uint_range c).
  rewrite (Z.shiftl_mul_pow2 (base64.uint b)) by lia.
  rewrite lor_shiftl_small by lia.
  replace (base64.uint a * 2 ^ 16 + base64.uint b * 2 ^ 8)
    with (Z.shiftl (base64.uint a * 256 + base64.uint b) 8)
    by (rewrite Z.shiftl_mul_pow2 by lia; lia).
  rewrite lor_shiftl_small by lia. lia.
Qed.

Lemma val2_eq (a b : ascii) :
  Z.lor (Z.shiftl (base64.uint a) 16) (Z.shiftl (base64.uint b) 8)
  = base64.uint a * 65536 + base64.uint b * 256.
Proof.
  pose proof (uint_range a). pose proof (uint_range b).
  rewrite (Z.shiftl_mul_pow2 (base64.uint b)) by lia.
  rewrite lor_shiftl_small by lia. lia.
Qed.

Lemma val1_eq (a : ascii) : Z.shiftl (base64.uint a) 16 = base64.uint a * 65536.
Proof. rewrite Z.shiftl_mul_pow2 by lia. lia. Qed.

Lemma decode_encode (i : Z) : 0 <= i < 64 -> decode_char (base64.encode i) = Some i.
Proof.
  intros Hi. replace i with (Z.of_nat (Z.to_nat i)) by lia.
  assert (Hn : (Z.to_nat i < 64)%nat) by lia.
  generalize dependent (Z.to_nat i). clear. intros n Hn.
  do 64 (destruct n as [| n]; [reflexivity |]). lia.
Qed.

Lemma encode_inj (i j : Z) :
  0 <= i < 64 -> 0 <= j < 64 -> base64.encode i = base64.encode j -> i = j.
Proof. intros Hi Hj H. apply decode_encode in Hi, Hj. congruence. Qed.

Lemma encode_not_special (i : Z) :
  0 <= i < 64 ->
  base64.encode i <> "="%char /\ base64.encode i <> "-"%char /\ base64.encode i <> "_"%char.
Proof.
  intros Hi. apply decode_encode in Hi.
  repeat split; intros E; rewrite E in Hi; discriminate Hi.
Qed.

Lemma sextet_eq (v v' k : Z) :
  0 <= k -> base64.sextet v k = base64.sextet v' k ->
  (v / 2 ^ k) mod 64 = (v' / 2 ^ k) mod 64.
Proof.
  intros Hk. unfold base64.sextet. rewrite !sextet_index by assumption.
  apply encode_inj; apply Z.mod_pos_bound; lia.
Qed.

Lemma sextet_not_special (v k : Z) :
  0 <= k ->
  base64.sextet v k <> "="%char /\ base64.sextet v k <> "-"%char /\ base64.sextet v k <> "_"%char.
Proof.
  intros Hk. unfold base64.sextet. rewrite sextet_index by assumption.
  apply encode_not_special, Z.mod_pos_bound. lia.
Qed.

Ltac sextets :=
  repeat match goal with
  | H : base64.sextet _ _ = base64.sextet _ _ |- _ =>
      apply sextet_eq in H;
      [change (2 ^ 18) with 262144 in H; change (2 ^ 12) with 4096 in H;
       change (2 ^ 6) with 64 in H; change (2 ^ 0) with 1 in H | lia]
  | H : base64.sextet ?v ?k = base64.StdPadding |- _ =>
      exfalso; exact (proj1 (sextet_not_special v k ltac:(lia)) H)
  | H : base64.StdPadding = base64.sextet ?v ?k |- _ =>
      exfalso; exact (proj1 (sextet_not_special v k ltac:(lia)) (eq_sym H))
  end.

Lemma EncodeToString_inj_le (n : nat) (s1 s2 : string) :
  (String.length s1 <= n)%nat ->
  base64.EncodeToString s1 = base64.EncodeToString s2 -> s1 = s2.
Proof.
  revert s1 s2. induction n as [| n IH]; intros s1 s2 Hlen.
  - destruct s1; [| simpl in Hlen; lia].
    destruct s2 as [| a [| b [| c r]]]; simpl; intros E; congruence.
  - destruct s1 as [| a1 [| b1 [| c1 r1]]]; destruct s2 as [| a2 [| b2 [| c2 r2]]];
      cbn [base64.EncodeToString]; cbv zeta; intros E;
      try discriminate E; try reflexivity;
      rewrite ?val3_eq, ?val2_eq, ?val1_eq in E; simplify_eq;
      try (sextets; fail).
    + sextets.
      pose proof (uint_range a1). pose proof (uint_range a2).
      f_equal. apply uint_inj. Z.div_mod_to_equations. lia.
    + sextets.
      pose proof (uint_range a1). pose proof (uint_range a2).
      pose proof (uint_range b1). pose proof (uint_range b2).
      assert (base64.uint a1 = base64.uint a2 /\ base64.uint b1 = base64.uint b2)
        as [Ha Hb] by (Z.div_mod_to_equations; lia).
      apply uint_inj in Ha, Hb. congruence.
    + sextets.
      pose proof (uint_range a1). pose proof (uint_range a2).
      pose proof (uint_range b1). pose proof (uint_range b2).
      pose proof (uint_range c1). pose proof (uint_range c2).
      assert (base64.uint a1 = base64.uint a2 /\ base64.uint b1 = base64.uint b2
              /\ base64.uint c1 = base64.uint c2)
        as (Ha & Hb & Hc) by (Z.div_mod_to_equations; lia).
      apply uint_inj in Ha, Hb, Hc. subst.
      f_equal. f_equal. f_equal. apply IH; [simpl in Hlen; lia | assumption].
Qed.

Lemma EncodeToString_inj (s1 s2 : string) :
  base64.EncodeToString s1 = base64.EncodeToString s2 -> s1 = s2.
Proof. apply (EncodeToString_inj_le (String.length s1)). lia. Qed.

Lemma sextet_plain (v k : Z) : 0 <= k -> plain (base64.sextet v k).
Proof. intros Hk. split; apply (sextet_not_special v k Hk). Qed.

Lemma padding_plain : plain base64.StdPadding.
Proof. split; discriminate. Qed.

Lemma EncodeToString_plain_le (n : nat) (s : string) :
  (String.length s <= n)%nat -> strings.Forall plain (base64.EncodeToString s).
Proof.
  revert s. induction n as [| n IH]; intros s Hlen.
  - destruct s; [exact I | simpl in Hlen; lia].
  - destruct s as [| a [| b [| c r]]]; cbn [base64.EncodeToString strings.Forall]; cbv zeta;
      repeat (split; [first [apply sextet_plain; lia | apply padding_plain] |]);
      try exact I.
    apply IH. simpl in Hlen. lia.
Qed.

(** ** The cache file name *)

Lemma cache_name_map (volumeID : string) :
  volumeKerberosCacheName volumeID
  = strings.map (fun c => strings.subst1 "+" "_" (strings.subst1 "/" "-" c))
      (base64.EncodeToString volumeID).
Proof.
  unfold volumeKerberosCacheName. cbv zeta. rewrite !ReplaceAll_byte.
  generalize (base64.EncodeToString volumeID). intros s.
  induction s as [| c s IH]; simpl; [reflexivity | rewrite IH; reflexivity].
Qed.

Lemma subst_inj (c d : ascii) :
  plain c -> plain d ->
  strings.subst1 "+" "_" (strings.subst1 "/" "-" c)
  = strings.subst1 "+" "_" (strings.subst1 "/" "-" d) -> c = d.
Proof.
  unfold strings.subst1. intros [Hc1 Hc2] [Hd1 Hd2].
  destruct (Ascii.eqb_spec c "/") as [-> | Hc3]; destruct (Ascii.eqb_spec d "/") as [-> | Hd3];
    cbn [Ascii.eqb Bool.eqb];
    repeat match goal with
    | |- context [Ascii.eqb ?x "+"] => destruct (Ascii.eqb_spec x "+") as [-> | ?]
    end;
    intros E; first [reflexivity | congruence].
Qed.

Lemma map_subst_inj (s1 s2 : string) :
  strings.Forall plain s1 -> strings.Forall plain s2 ->
  strings.map (fun c => strings.subst1 "+" "_" (strings.subst1 "/" "-" c)) s1
  = strings.map (fun c => strings.subst1 "+" "_" (strings.subst1 "/" "-" c)) s2 ->
  s1 = s2.
Proof.
  revert s2. induction s1 as [| c s1 IH]; intros [| d s2]; simpl; try discriminate; [reflexivity |].
  intros [Hc H1] [Hd H2] E. injection E as Ec Es.
  f_equal; [exact (subst_inj c d Hc Hd Ec) | exact (IH s2 H1 H2 Es)].
Qed.

Lemma volumeKerberosCacheName_inj (v1 v2 : string) :
  volumeKerberosCacheName v1 = volumeKerberosCacheName v2 -> v1 = v2.
Proof.
  rewrite !cache_name_map. intros E.
  apply EncodeToString_inj, map_subst_inj; [| | exact E];
    eapply EncodeToString_plain_le; reflexivity.
Qed.

Example volumeKerberosCacheName_ex1 :
  volumeKerberosCacheName "vol_1##" = "dm9sXzEjIw==".
Proof. reflexivity. Qed.

Example volumeKerberosCacheName_ex2 :
  volumeKerberosCacheName "???>>>" = "Pz8-Pj4_".
Proof. reflexivity. Qed.

Section CacheNames.

Context `{!Package}.

(** Claim C9.  [volumeKerberosCacheName] is injective: two distinct volume
    ids have distinct cache file names, and so distinct cache file paths;
    [deleteKerberosCache] of one volume never names the cache file of
    another. *)
Theorem volumeKerberosCacheName_injective (volumeID1 volumeID2 : string) :
  volumeID1 <> volumeID2 ->
  volumeKerberosCacheName volumeID1 <> volumeKerberosCacheName volumeID2
  /\ getKerberosFilePath (volumeKerberosCacheName volumeID1)
     <> getKerberosFilePath (volumeKerberosCacheName volumeID2).
Proof.
  intros Hne. split.
  - intros E. apply Hne. exact (volumeKerberosCacheName_inj _ _ E).
  - intros E. apply Hne. unfold getKerberosFilePath in E.
    exact (volumeKerberosCacheName_inj _ _ (append_inj_r _ _ _ E)).
Qed.

End CacheNames.

(** With the prefix [krb5cc_], a cache name is never a canonical name
    unless the volume id starts with one of the bytes 0x90-0x93.  No valid
    UTF-8 text starts with such a byte (they are continuation bytes), and a
    volume id that arrives in a gRPC message is valid UTF-8. *)
Lemma cache_name_not_canonical (volumeID : string) (credUID : Z) :
  (forall c rest, volumeID = String c rest -> ~ (144 <= base64.uint c <= 147)) ->
  volumeKerberosCacheName volumeID <> @getKrb5CcacheName spec_package credUID.
Proof.
  intros Hfirst. rewrite cache_name_map.
  unfold getKrb5CcacheName. cbn [krb5Prefix spec_package].
  change ("krb5cc_" +:+ itoa credUID) with (String "k" ("rb5cc_" +:+ itoa credUID)).
  destruct volumeID as [| c rest]; [discriminate |].
  specialize (Hfirst c rest eq_refl).
  assert (Hk : forall v, strings.subst1 "+" "_" (strings.subst1 "/" "-" (base64.sextet v 18))
                         = "k"%char -> (v / 262144) mod 64 = 36).
  { intros v E.
    apply (subst_inj _ "k") in E; [| apply sextet_plain; lia | split; discriminate].
    change "k"%char with (base64.sextet (36 * 262144) 18) in E.
    apply sextet_eq in E; [| lia]. exact E. }
  pose proof (uint_range c) as Hc.
  destruct rest as [| b [| d r]]; cbn [base64.EncodeToString strings.map]; cbv zeta;
    rewrite ?val3_eq, ?val2_eq, ?val1_eq; intros E; injection E as E _;
    apply Hk in E.
  - Z.div_mod_to_equations. lia.
  - pose proof (uint_range b). Z.div_mod_to_equations. lia.
  - pose proof (uint_range b). pose proof (uint_range d). Z.div_mod_to_equations. lia.
Qed.

(** ** Traces of the handlers, on every host *)

Lemma mounts_app (l1 l2 : list Event) : mounts (l1 ++ l2) = mounts l1 ++ mounts l2.
Proof. apply List.filter_app. Qed.

Lemma smb_mounts_app (l1 l2 : list Event) :
  smb_mounts (l1 ++ l2) = smb_mounts l1 ++ smb_mounts l2.
Proof. unfold smb_mounts. apply omap_app. Qed.

Lemma smb_mounts_of_mounts (l : list Event) : mounts l = [] -> smb_mounts l = [].
Proof.
  induction l as [| [X c x] l IH]; [reflexivity |].
  destruct c; cbn; try discriminate; exact IH.
Qed.

Lemma is_nil_cap_some (cap : option VolumeCapability) : cap <> None -> is_nil_cap cap = false.
Proof. destruct cap; [reflexivity | congruence]. Qed.

Ltac run_bind := unfold mbind, M_bind, bind, mret, M_ret, ret; cbn [value world trace].

Section Traces.

Context {W : Type} `{!Host W} `{!Runtime} `{!Package}.

Lemma silent_ret {A} (a : A) : silent (mret a : M W A).
Proof. intros w. reflexivity. Qed.

Lemma silent_bind {A B} (m : M W A) (k : A -> M W B) :
  silent m -> (forall a, silent (k a)) -> silent (m ≫= k).
Proof.
  intros Hm Hk w. unfold mbind, M_bind, bind. cbn [trace].
  rewrite mounts_app, Hm, Hk. reflexivity.
Qed.

Lemma silent_call {X} (c : Call X) : mount_call c = false -> silent (call c).
Proof.
  intros Hc w. unfold call, mounts, is_mount. cbn. rewrite Hc. reflexivity.
Qed.

Lemma smb_mounts_silent {A} (m : M W A) (w : W) : silent m -> smb_mounts (trace (m w)) = [].
Proof. intros Hm. apply smb_mounts_of_mounts, Hm. Qed.

Ltac silent_step :=
  first
    [ apply silent_ret
    | apply silent_call; reflexivity
    | apply silent_bind; [| intros ?]
    | match goal with
      | |- silent (if ?b then _ else _) => destruct b
      | |- silent (match ?x with _ => _ end) => destruct x
      | |- silent (let (_, _) := ?x in _) => destruct x
      end
    | assumption ].

Ltac silent_tac := repeat silent_step.

Ltac quiet_call c :=
  match goal with
  | |- context [smb_mounts (trace (call c ?w0))] =>
      change (smb_mounts (trace (call c w0)))
        with (@nil (string * string * string * list string * list string))
  end.

Lemma silent_makeDir (pathname : string) : silent (makeDir pathname).
Proof. unfold makeDir. silent_tac. Qed.

Lemma silent_probePrimary (target : string) : silent (probePrimary target).
Proof. unfold probePrimary. silent_tac. Qed.

Lemma silent_probeMountList (target : string) (notMnt : bool) :
  silent (probeMountList target notMnt).
Proof. unfold probeMountList. silent_tac. Qed.

Lemma silent_probeFinish (target : string) (notMnt : bool) : silent (probeFinish target notMnt).
Proof. unfold probeFinish. pose proof (silent_makeDir target). silent_tac. Qed.

(** The prober never mounts. *)
Lemma silent_ensureMountPoint (target : string) : silent (ensureMountPoint target).
Proof.
  unfold ensureMountPoint.
  apply silent_bind; [apply silent_probePrimary |]. intros [early | notMnt]; [apply silent_ret |].
  apply silent_bind; [apply silent_probeMountList |]. intros [early | notMnt']; [apply silent_ret |].
  apply silent_probeFinish.
Qed.

Lemma silent_kerberosCacheDirectoryExists : silent kerberosCacheDirectoryExists.
Proof. unfold kerberosCacheDirectoryExists. silent_tac. Qed.

Lemma silent_ensureKerberosCache (volumeID : string) (mountFlags : list string)
    (secrets : gomap) :
  silent (ensureKerberosCache volumeID mountFlags secrets).
Proof.
  unfold ensureKerberosCache. pose proof silent_kerberosCacheDirectoryExists. silent_tac.
Qed.

Lemma silent_stageOptions (volumeID targetPath : string) (mountFlags : list string)
    (volumeMountGroup : string) (secrets : gomap) (gidPresent : bool) :
  silent (stageOptions volumeID targetPath mountFlags volumeMountGroup secrets gidPresent).
Proof.
  unfold stageOptions.
  pose proof (silent_ensureKerberosCache volumeID mountFlags secrets).
  silent_tac.
Qed.

(** Claim C1.  Stage and publish are idempotent: when the probe that the
    handler runs reports the target as already validly mounted, the
    handler answers success and its trace has no call of the mount
    primitive.  For publish the probe is the first thing the handler does
    to the host; for stage it comes after the lock is taken and the
    options are worked out. *)
Theorem mounted_target_is_noop :
  (forall (req : NodePublishVolumeRequest) (w : W),
     pub_VolumeCapability req <> None ->
     pub_VolumeId req <> "" ->
     pub_TargetPath req <> "" ->
     pub_StagingTargetPath req <> "" ->
     let probed := ensureMountPoint (pub_TargetPath req) w in
     value probed = (true, None) ->
     let o := NodePublishVolume req w in
     value o = None /\ mounts (trace o) = [] /\ world o = world probed)
  /\
  (forall (req : NodeStageVolumeRequest) (w : W) (source subDir : string)
          (subDirReplaceMap : gomap) (mountOptions sensitiveMountOptions : list string),
     stage_VolumeId req <> "" ->
     stage_VolumeCapability req <> None ->
     stage_StagingTargetPath req <> "" ->
     stageContext (stage_VolumeContext req) = (source, subDir, subDirReplaceMap) ->
     source <> "" ->
     let volumeID := stage_VolumeId req in
     let targetPath := stage_StagingTargetPath req in
     let mountFlags := GetMountFlags (GetMount (stage_VolumeCapability req)) in
     let locked := call (TryAcquire volumeID) w in
     value locked = true ->
     let prepared :=
       stageOptions volumeID targetPath mountFlags
         (GetVolumeMountGroup (GetMount (stage_VolumeCapability req)))
         (stage_Secrets req) (checkGidPresentInMountFlags mountFlags) (world locked) in
     value prepared = inr (mountOptions, sensitiveMountOptions) ->
     let probed := ensureMountPoint targetPath (world prepared) in
     value probed = (true, None) ->
     let o := NodeStageVolume req w in
     value o = None /\ mounts (trace o) = []
     /\ world o = world (call (Release volumeID) (world probed))).
Proof.
  split.
  - intros req w Hcap Hid Htarget Hsource probed Hprobe o. subst o.
    unfold NodePublishVolume.
    rewrite (is_nil_cap_some _ Hcap), (length_nonempty _ Hid),
      (length_nonempty _ Htarget), (length_nonempty _ Hsource).
    run_bind. fold probed. rewrite Hprobe. cbn [value world trace].
    rewrite app_nil_r. repeat split. apply silent_ensureMountPoint.
  - intros req w source subDir subDirReplaceMap mountOptions sensitiveMountOptions
      Hid Hcap Htarget Hctx Hsource volumeID targetPath mountFlags locked Hlocked
      prepared Hprepared probed Hprobe o. subst o.
    unfold NodeStageVolume.
    rewrite (length_nonempty _ Hid), (is_nil_cap_some _ Hcap), (length_nonempty _ Htarget),
      Hctx, (eqb_nonempty _ Hsource).
    run_bind. fold volumeID targetPath mountFlags locked. rewrite Hlocked. cbn [negb].
    run_bind. fold prepared. rewrite Hprepared. unfold stageMount.
    run_bind. fold probed. rewrite Hprobe. cbn [value world trace].
    repeat split.
    rewrite !mounts_app, !app_nil_r.
    unfold prepared, probed.
    rewrite silent_stageOptions, silent_ensureMountPoint. reflexivity.
Qed.

(** Claim C2 (the code departs from it).  When the verdict is "mounted"
    and the listing of the directory fails with [e], the prober unmounts
    the path.  When the unmount fails its error is returned, with the
    verdict "mounted".  When the unmount succeeds the prober returns "not
    mounted" together with [e], the error of the listing: the [err] of
    line 406 is the one line 394 declared, not nil. *)
Theorem stale_mount_recovery_surfaces_error (target : string) (w : W) (e : error) :
  let listed := call (ReadDir target) w in
  snd (value listed) = Some e ->
  let unmounted := call (Unmount target) (world listed) in
  let o := probeFinish target false w in
  value o = match value unmounted with
            | Some unmountErr => (true, Some unmountErr)
            | None => (false, Some e)
            end
  /\ trace o = trace listed ++ trace unmounted
  /\ world o = world unmounted.
Proof.
  intros listed He unmounted o. subst o. unfold probeFinish. cbn [negb].
  run_bind. fold listed. destruct (value listed) as [entries err] eqn:Hl.
  cbn [snd] in He. subst err. cbn [is_nil].
  run_bind. fold unmounted. destruct (value unmounted) as [unmountErr |] eqn:Hu;
    cbn [is_nil negb value world trace]; rewrite ?app_nil_r; repeat split.
Qed.

(** Claim C10.  Whenever [os.Stat] of the cache directory fails, for
    whatever reason, [kerberosCacheDirectoryExists] answers [false] with an
    error, and [deleteKerberosCache] returns nil after that one call: it
    scans and removes nothing, and the error is not returned. *)
Theorem deleteKerberosCache_skips_on_stat_error (volumeID : string) (w : W) (e : error) :
  let stat := call (Stat krb5CacheDirectory) w in
  snd (value stat) = Some e ->
  let o := deleteKerberosCache volumeID w in
  fst (value (kerberosCacheDirectoryExists w)) = false
  /\ snd (value (kerberosCacheDirectoryExists w)) <> None
  /\ value o = None
  /\ trace o = trace stat
  /\ world o = world stat.
Proof.
  intros stat He o. subst o. unfold deleteKerberosCache, kerberosCacheDirectoryExists.
  run_bind. fold stat. destruct (value stat) as [fi err] eqn:Hs.
  cbn [snd] in He. subst err.
  destruct (os_IsNotExist (Some e)); cbn [value world trace fst snd negb];
    rewrite ?app_nil_r; repeat split; discriminate.
Qed.

(** Claim C5.  When the bind mount of publish fails, publish removes the
    target directory and then returns the error of the mount, an internal
    error; when the removal fails it returns the error of the removal
    instead.  Nothing else is done after the failed mount. *)
Theorem publish_rolls_back_failed_bind_mount (req : NodePublishVolumeRequest) (w : W)
    (e : error) :
  pub_VolumeCapability req <> None ->
  pub_VolumeId req <> "" ->
  pub_TargetPath req <> "" ->
  pub_StagingTargetPath req <> "" ->
  let target := pub_TargetPath req in
  let source := pub_StagingTargetPath req in
  let mountOptions := if pub_Readonly req then ["bind"; "ro"] else ["bind"] in
  let probed := ensureMountPoint target w in
  value probed = (false, None) ->
  let prepared := call (preparePublishPath target) (world probed) in
  value prepared = None ->
  let mounted := call (MounterMount source target "" mountOptions) (world prepared) in
  value mounted = Some e ->
  let removed := call (Remove target) (world mounted) in
  let o := NodePublishVolume req w in
  value o = Some (match value removed with
                  | Some removeErr =>
                      status_Error Internal
                        ("Could not remove mount target " +:+ Quote target +:+ ": "
                           +:+ Error removeErr)
                  | None =>
                      status_Error Internal
                        ("Could not mount " +:+ Quote source +:+ " at " +:+ Quote target
                           +:+ ": " +:+ Error e)
                  end)
  /\ trace o = trace probed ++ trace prepared ++ trace mounted ++ trace removed
  /\ world o = world removed.
Proof.
  intros Hcap Hid Htarget Hsource target source mountOptions probed Hprobe prepared Hprep
    mounted Hmount removed o. subst o.
  unfold NodePublishVolume.
  rewrite (is_nil_cap_some _ Hcap), (length_nonempty _ Hid),
    (length_nonempty _ Htarget), (length_nonempty _ Hsource).
  run_bind. fold target probed. rewrite Hprobe.
  run_bind. fold prepared. rewrite Hprep.
  run_bind. fold source.
  replace (if pub_Readonly req then ["bind"] ++ ["ro"] else ["bind"]) with mountOptions
    by (unfold mountOptions; destruct (pub_Readonly req); reflexivity).
  fold mounted. rewrite Hmount.
  run_bind. fold removed.
  destruct (value removed) as [removeErr |]; cbn [value world trace];
    rewrite ?app_nil_r; repeat split.
Qed.

Lemma poll_unfold {S : Type} (ticks : nat) (interval remaining : Duration)
    (condition : S -> M W (Duration * S * (bool * option error))) (s : S) :
  poll ticks interval remaining condition s
  = ('(elapsed, s', (done, err)) ← condition s;
     if negb (is_nil err) then mret (s', err) else
     if (done : bool) then mret (s', None) else
     if remaining <=? 0 then mret (s', Some ErrWaitTimeout) else
     match ticks with
     | O => mret (s', Some ErrWaitTimeout)
     | S ticks' => poll ticks' interval (remaining - Z.max elapsed interval) condition s'
     end).
Proof. destruct ticks; reflexivity. Qed.

Lemma timeout_text_eq (p : string) (e : error) :
  p +:+ " failed with timeout(10m)" = p +:+ " failed with " +:+ Error e
  <-> Error e = "timeout(10m)".
Proof.
  split.
  - intros E. apply append_inj_r in E.
    change " failed with timeout(10m)" with (" failed with " +:+ "timeout(10m)") in E.
    apply append_inj_r in E. symmetry. exact E.
  - intros ->. reflexivity.
Qed.

Lemma stage_errors_eq (volumeID source targetPath : string) (e : error) :
  stageTimeoutError volumeID source targetPath = stageMountError volumeID source targetPath e
  <-> Error e = "timeout(10m)".
Proof.
  unfold stageTimeoutError, stageMountError, status_Error.
  rewrite <- (timeout_text_eq (Quote targetPath) e).
  split.
  - intros E. injection E as E. do 5 apply append_inj_r in E. exact E.
  - intros E. rewrite E. reflexivity.
Qed.

(** A poll whose condition mounts and answers [true] makes one call of
    the mount and hands its error on, whatever the interval, the window
    and the time the call took; the condition has run, so the variable it
    sets is set. *)
Lemma poll_mounts_once (ticks : nat) (interval remaining : Duration)
    (source targetPath : string) (mountOptions sensitiveMountOptions : list string)
    (mountComplete : bool) (w : W) :
  let attempt := call (SMBMount source targetPath "cifs" mountOptions sensitiveMountOptions) w in
  let polled :=
    poll ticks interval remaining
      (fun _ : bool =>
         '(elapsed, err) ← call (SMBMount source targetPath "cifs"
                                   mountOptions sensitiveMountOptions);
         mret (elapsed, true, (true, err)))
      mountComplete w in
  trace polled = trace attempt
  /\ world polled = world attempt
  /\ value polled = (true, snd (value attempt)).
Proof.
  intros attempt polled. subst polled. rewrite poll_unfold. run_bind. fold attempt.
  destruct (value attempt) as [elapsed [e |]];
    cbn [is_nil negb fst snd value world trace]; rewrite !app_nil_r; repeat split.
Qed.

(** The poll of stage: one call of the mount, whose answer decides. *)
Lemma stagePoll_run (volumeID source targetPath : string)
    (mountOptions sensitiveMountOptions : list string) (w : W) :
  let attempt := call (SMBMount source targetPath "cifs" mountOptions sensitiveMountOptions) w in
  let o := stagePoll volumeID source targetPath mountOptions sensitiveMountOptions w in
  trace o = trace attempt
  /\ world o = world attempt
  /\ value o = match snd (value attempt) with
               | Some e => Some (stageMountError volumeID source targetPath e)
               | None => None
               end.
Proof.
  intros attempt o. subst o. unfold stagePoll, PollImmediate.
  match goal with
  | |- context [poll ?ticks ?interval ?remaining ?condition false] =>
      pose proof (poll_mounts_once ticks interval remaining source targetPath
                    mountOptions sensitiveMountOptions false w) as Hpoll;
      cbv zeta in Hpoll; fold attempt in Hpoll;
      change (poll ticks interval remaining _ false w)
        with (poll ticks interval remaining condition false w) in Hpoll;
      generalize dependent (poll ticks interval remaining condition false)
  end.
  intros polled (Ht & Hw & Hv).
  run_bind. rewrite Ht, Hw, Hv. cbn [negb].
  destruct (snd (value attempt)) as [e |]; cbn [value world trace]; rewrite app_nil_r;
    repeat split.
Qed.

(** The network mounts of [stageMount]: none, or the one of the poll *)
Lemma stageMount_smb_mounts (volumeID targetPath source subDir : string)
    (subDirReplaceMap : gomap) (mountOptions sensitiveMountOptions : list string) (w : W) :
  let o := stageMount volumeID targetPath source subDir subDirReplaceMap
             mountOptions sensitiveMountOptions w in
  smb_mounts (trace o) = []
  \/ smb_mounts (trace o)
     = [(stageSource source subDir subDirReplaceMap, targetPath, "cifs",
         mountOptions, sensitiveMountOptions)].
Proof.
  intros o. subst o. unfold stageMount. run_bind.
  rewrite !smb_mounts_app, (smb_mounts_silent _ _ (silent_ensureMountPoint targetPath)).
  destruct (value (ensureMountPoint targetPath w)) as [isDirMounted [e |]];
    cbn [value world trace]; [left; reflexivity |].
  destruct isDirMounted; cbn [value world trace]; [left; reflexivity |].
  rewrite !smb_mounts_app.
  quiet_call (prepareStagePath targetPath).
  destruct (value (call (prepareStagePath targetPath) (world (ensureMountPoint targetPath w))));
    cbn [value world trace]; [left; reflexivity |].
  right.
  rewrite (proj1 (stagePoll_run _ _ _ _ _ _)). reflexivity.
Qed.

(** The network mounts of a stage call: at most one, of the source worked
    out from the context, with the options worked out by [stageOptions] *)
Lemma NodeStageVolume_smb_mounts (req : NodeStageVolumeRequest) (w : W)
    (source subDir : string) (subDirReplaceMap : gomap) :
  stageContext (stage_VolumeContext req) = (source, subDir, subDirReplaceMap) ->
  let volumeID := stage_VolumeId req in
  let targetPath := stage_StagingTargetPath req in
  let mountFlags := GetMountFlags (GetMount (stage_VolumeCapability req)) in
  let prepared :=
    stageOptions volumeID targetPath mountFlags
      (GetVolumeMountGroup (GetMount (stage_VolumeCapability req)))
      (stage_Secrets req) (checkGidPresentInMountFlags mountFlags)
      (world (call (TryAcquire volumeID) w)) in
  let o := NodeStageVolume req w in
  smb_mounts (trace o) = []
  \/ exists mountOptions sensitiveMountOptions,
       value prepared = inr (mountOptions, sensitiveMountOptions)
       /\ smb_mounts (trace o)
          = [(stageSource source subDir subDirReplaceMap, targetPath, "cifs",
              mountOptions, sensitiveMountOptions)].
Proof.
  intros Hctx volumeID targetPath mountFlags prepared o. subst o.
  unfold NodeStageVolume. fold volumeID targetPath mountFlags.
  destruct (String.length volumeID =? 0)%nat; [left; reflexivity |].
  destruct (is_nil_cap (stage_VolumeCapability req)); [left; reflexivity |].
  destruct (String.length targetPath =? 0)%nat; [left; reflexivity |].
  rewrite Hctx.
  destruct (String.eqb source ""); [left; reflexivity |].
  run_bind.
  destruct (value (call (TryAcquire volumeID) w)) eqn:Hacq;
    cbn [negb value world trace];
    [| left; apply (smb_mounts_silent (call (TryAcquire volumeID)));
       apply silent_call; reflexivity].
  fold prepared.
  rewrite !smb_mounts_app.
  quiet_call (TryAcquire volumeID). quiet_call (Release volumeID).
  assert (Hquiet : smb_mounts (trace prepared) = [])
    by apply smb_mounts_silent, silent_stageOptions.
  rewrite Hquiet. cbn [app]. rewrite !app_nil_r.
  destruct (value prepared) as [e | [mountOptions sensitiveMountOptions]] eqn:Hprep;
    cbn [value world trace]; [left; reflexivity |].
  destruct (stageMount_smb_mounts volumeID targetPath source subDir subDirReplaceMap
              mountOptions sensitiveMountOptions (world prepared)) as [E | E];
    rewrite E; [left; reflexivity | right].
  exists mountOptions, sensitiveMountOptions. split; reflexivity.
Qed.

(** Claim C4.  The mount of stage is the condition of a poll of one second
    and two minutes, and there is exactly one attempt, which is terminal,
    success or error.  But the poll bounds nothing.  Its condition runs to
    its end and always says that it is done, so for every interval and
    every window the poll is the one call of the mount: the variable
    [mountComplete] is set when the poll returns, and the error of the
    poll is the error of the mount, however long the mount took.  A stage
    call that reaches the mount therefore ends after that one call, with
    success or with the error of a completed failure; the timeout error
    of lines 232-234 is the answer only when a failed mount carries that
    very text as its own. *)
Theorem stage_poll_never_times_out :
  (forall (volumeID source targetPath : string)
          (mountOptions sensitiveMountOptions : list string),
     let condition : bool -> M W (Duration * bool * (bool * option error)) :=
       fun _ =>
         '(elapsed, err) ← call (SMBMount source targetPath "cifs"
                                   mountOptions sensitiveMountOptions);
         mret (elapsed, true, (true, err)) in
     stagePoll volumeID source targetPath mountOptions sensitiveMountOptions
     = ('(mountComplete, err) ← PollImmediate (1 * Second) (2 * Minute) condition false;
        if negb mountComplete
        then mret (Some (stageTimeoutError volumeID source targetPath))
        else match err with
             | Some e => mret (Some (stageMountError volumeID source targetPath e))
             | None => mret None
             end)
     /\ forall (interval timeout : Duration) (mountComplete : bool) (w : W),
          let attempt :=
            call (SMBMount source targetPath "cifs" mountOptions sensitiveMountOptions) w in
          let polled := PollImmediate interval timeout condition mountComplete w in
          trace polled = [Ev (SMBMount source targetPath "cifs"
                                mountOptions sensitiveMountOptions) (value attempt)]
          /\ world polled = world attempt
          /\ value polled = (true, snd (value attempt)))
  /\
  (forall (req : NodeStageVolumeRequest) (w : W) (source subDir : string)
          (subDirReplaceMap : gomap) (mountOptions sensitiveMountOptions : list string),
     stage_VolumeId req <> "" ->
     stage_VolumeCapability req <> None ->
     stage_StagingTargetPath req <> "" ->
     stageContext (stage_VolumeContext req) = (source, subDir, subDirReplaceMap) ->
     source <> "" ->
     let volumeID := stage_VolumeId req in
     let targetPath := stage_StagingTargetPath req in
     let mountFlags := GetMountFlags (GetMount (stage_VolumeCapability req)) in
     let locked := call (TryAcquire volumeID) w in
     value locked = true ->
     let prepared :=
       stageOptions volumeID targetPath mountFlags
         (GetVolumeMountGroup (GetMount (stage_VolumeCapability req)))
         (stage_Secrets req) (checkGidPresentInMountFlags mountFlags) (world locked) in
     value prepared = inr (mountOptions, sensitiveMountOptions) ->
     let probed := ensureMountPoint targetPath (world prepared) in
     value probed = (false, None) ->
     let readied := call (prepareStagePath targetPath) (world probed) in
     value readied = None ->
     let mounted := stageSource source subDir subDirReplaceMap in
     let attempt :=
       call (SMBMount mounted targetPath "cifs" mountOptions sensitiveMountOptions)
         (world readied) in
     let o := NodeStageVolume req w in
     trace o
       = trace locked ++ trace prepared ++ trace probed ++ trace readied
           ++ [Ev (SMBMount mounted targetPath "cifs" mountOptions sensitiveMountOptions)
                 (value attempt);
               Ev (Release volumeID) tt]
     /\ mounts (trace o)
        = [Ev (SMBMount mounted targetPath "cifs" mountOptions sensitiveMountOptions)
             (value attempt)]
     /\ world o = world (call (Release volumeID) (world attempt))
     /\ value o = match snd (value attempt) with
                  | Some e => Some (stageMountError volumeID mounted targetPath e)
                  | None => None
                  end
     /\ (value o = Some (stageTimeoutError volumeID mounted targetPath) ->
         exists e, snd (value attempt) = Some e /\ Error e = "timeout(10m)")).
Proof.
  split.
  - intros volumeID source targetPath mountOptions sensitiveMountOptions condition.
    split.
    { unfold stagePoll. subst condition. cbv zeta.
      match goal with |- ?l = ?r => constr_eq l r end. reflexivity. }
    intros interval timeout mountComplete w attempt polled.
    exact (poll_mounts_once _ interval timeout source targetPath
             mountOptions sensitiveMountOptions mountComplete w).
  - intros req w source subDir subDirReplaceMap mountOptions sensitiveMountOptions
      Hid Hcap Htarget Hctx Hsource volumeID targetPath mountFlags locked Hlocked
      prepared Hprepared probed Hprobe readied Hready mounted attempt o.
    assert (Hrun : trace o
                   = trace locked ++ trace prepared ++ trace probed ++ trace readied
                       ++ trace attempt ++ [Ev (Release volumeID) tt]
                   /\ world o = world (call (Release volumeID) (world attempt))
                   /\ value o = match snd (value attempt) with
                                | Some e => Some (stageMountError volumeID mounted targetPath e)
                                | None => None
                                end).
    { subst o. unfold NodeStageVolume.
      rewrite (length_nonempty _ Hid), (is_nil_cap_some _ Hcap), (length_nonempty _ Htarget),
        Hctx, (eqb_nonempty _ Hsource).
      run_bind. fold volumeID targetPath mountFlags locked. rewrite Hlocked. cbn [negb].
      run_bind. fold prepared. rewrite Hprepared. unfold stageMount.
      run_bind. fold probed. rewrite Hprobe. cbn [value world trace].
      fold readied. rewrite Hready. cbn [value world trace]. fold mounted.
      destruct (stagePoll_run volumeID mounted targetPath mountOptions sensitiveMountOptions
                  (world readied)) as (Ht & Hw & Hv).
      fold attempt in Ht, Hw, Hv. cbv zeta in Ht, Hw, Hv. rewrite Ht, Hw, Hv.
      split; [| split; reflexivity].
      rewrite <- !app_assoc, app_nil_r.
      change (trace (call (Release volumeID) (world attempt)))
        with [Ev (Release volumeID) (value (call (Release volumeID) (world attempt)))].
      destruct (value (call (Release volumeID) (world attempt))). reflexivity. }
    destruct Hrun as (Ht & Hw & Hv).
    split; [exact Ht |]. split; [| split; [exact Hw | split; [exact Hv |]]].
    + rewrite Ht, !mounts_app.
      rewrite (silent_call (TryAcquire volumeID) eq_refl w : mounts (trace locked) = []).
      unfold prepared, probed, readied.
      rewrite silent_stageOptions, silent_ensureMountPoint.
      rewrite (silent_call (prepareStagePath targetPath) eq_refl).
      reflexivity.
    + rewrite Hv. destruct (snd (value attempt)) as [e |]; [| discriminate].
      intros E. exists e. split; [reflexivity |].
      apply (stage_errors_eq volumeID mounted targetPath e). congruence.
Qed.

Lemma ensureKerberosCache_used (volumeID : string) (mountFlags : list string)
    (secrets : gomap) (w : W) :
  let o := ensureKerberosCache volumeID mountFlags secrets w in
  snd (value o) = None -> fst (value o) = hasKerberosMountOption mountFlags.
Proof.
  intros o. subst o. unfold ensureKerberosCache.
  destruct (hasKerberosMountOption mountFlags); [| reflexivity].
  run_bind.
  destruct (value (kerberosCacheDirectoryExists w)) as [ex [e |]];
    cbn [is_nil negb value fst snd]; [discriminate |].
  destruct (getCredUID mountFlags) as [credUID [e |]];
    cbn [is_nil negb value fst snd]; [discriminate |].
  destruct (getKerberosCache credUID secrets) as [[krb5CacheFileName content] [e |]];
    cbn [is_nil negb value fst snd]; [discriminate |].
  run_bind.
  repeat match goal with
  | |- context [match value (call ?c ?w0) with _ => _ end] =>
      destruct (value (call c w0)); cbn [value world trace fst snd]; try discriminate
  | |- context [if os_IsNotExist ?x then _ else _] =>
      destruct (os_IsNotExist x); cbn [value world trace fst snd]
  end; try reflexivity.
Qed.

(** What [stageOptions] hands over when it succeeds *)
Lemma stageOptions_value (volumeID targetPath : string) (mountFlags : list string)
    (volumeMountGroup : string) (secrets : gomap) (gidPresent : bool) (w : W)
    (mountOptions sensitiveMountOptions : list string) :
  value (stageOptions volumeID targetPath mountFlags volumeMountGroup secrets gidPresent w)
    = inr (mountOptions, sensitiveMountOptions) ->
  hasGuestMountOptions mountFlags = false ->
  let '(username, password, domain) := stageSecrets secrets in
  if String.eqb GOOS "windows" then
    mountOptions
      = [if negb (strings.Contains username "\")
         then (if String.eqb domain "" then defaultDomainName else domain) +:+ "\" +:+ username
         else username]
    /\ sensitiveMountOptions = [password]
  else
    hasKerberosMountOption mountFlags = false ->
    sensitiveMountOptions
      = [usernameField +:+ "=" +:+ username +:+ "," +:+ passwordField +:+ "=" +:+ password].
Proof.
  unfold stageOptions. intros Hv Hguest. rewrite Hguest in Hv. cbn [negb] in Hv.
  destruct (stageSecrets secrets) as [[username password] domain].
  destruct (String.eqb GOOS "windows").
  - injection Hv as <- <-. split; reflexivity.
  - intros Hkrb. revert Hv. run_bind.
    pose proof (ensureKerberosCache_used volumeID mountFlags secrets w) as Hused.
    cbv zeta in Hused.
    destruct (value (ensureKerberosCache volumeID mountFlags secrets w))
      as [useKerberosCache [e |]]; cbn [value world trace]; [discriminate |].
    cbn [fst snd] in Hused. rewrite (Hused eq_refl), Hkrb.
    run_bind.
    match goal with
    | |- context [match value (call ?c ?w0) with _ => _ end] =>
        destruct (value (call c w0)); cbn [value world trace]; [discriminate |]
    end.
    cbn [negb andb]. intros [= _ <-]. reflexivity.
Qed.

(** Claim C7, as amended.  Stage does not check that credentials are
    present.  For mount flags that do not ask for guest mode, every
    network mount of a stage call is handed the trimmed username and
    password of the secrets, empty when they are missing: on Windows as the
    option [domain\username] and the sensitive option [password]; elsewhere,
    when no Kerberos cache is asked for, as the one sensitive option
    [username=...,password=...]. *)
Theorem stage_hands_credentials_to_mount (req : NodeStageVolumeRequest) (w : W)
    (source target fsType : string) (mountOptions sensitiveMountOptions : list string) :
  let mountFlags := GetMountFlags (GetMount (stage_VolumeCapability req)) in
  hasGuestMountOptions mountFlags = false ->
  In (source, target, fsType, mountOptions, sensitiveMountOptions)
     (smb_mounts (trace (NodeStageVolume req w))) ->
  let '(username, password, domain) := stageSecrets (stage_Secrets req) in
  if String.eqb GOOS "windows" then
    mountOptions
      = [if negb (strings.Contains username "\")
         then (if String.eqb domain "" then defaultDomainName else domain) +:+ "\" +:+ username
         else username]
    /\ sensitiveMountOptions = [password]
  else
    hasKerberosMountOption mountFlags = false ->
    sensitiveMountOptions
      = [usernameField +:+ "=" +:+ username +:+ "," +:+ passwordField +:+ "=" +:+ password].
Proof.
  intros mountFlags Hguest Hin.
  destruct (stageContext (stage_VolumeContext req)) as [[src subDir] m] eqn:Hctx.
  destruct (NodeStageVolume_smb_mounts req w src subDir m Hctx) as [E | (mo & smo & Hv & E)];
    rewrite E in Hin; [destruct Hin |].
  destruct Hin as [[= <- <- <- <- <-] | []].
  exact (stageOptions_value _ _ _ _ _ _ _ _ _ Hv Hguest).
Qed.

(** Claim C8.  For a stage request with a non-empty sub-directory, the
    source of every network mount of the call is the source of the
    context with its trailing '/' trimmed, then '/', then the
    sub-directory after [replaceWithMap].  With the sub-directory
    [${pvc.metadata.namespace}/${pvc.metadata.name}], the namespace [ns1]
    and the name [claim1], it is the trimmed source followed by
    [/ns1/claim1]. *)
Theorem stage_mounts_source_with_subdir :
  (forall (req : NodeStageVolumeRequest) (w : W) (source subDir : string)
          (subDirReplaceMap : gomap)
          (mounted target fsType : string) (mountOptions sensitiveMountOptions : list string),
     stageContext (stage_VolumeContext req) = (source, subDir, subDirReplaceMap) ->
     subDir <> "" ->
     In (mounted, target, fsType, mountOptions, sensitiveMountOptions)
        (smb_mounts (trace (NodeStageVolume req w))) ->
     mounted
       = strings.TrimRight1 source "/" +:+ "/" +:+ replaceWithMap subDir subDirReplaceMap)
  /\
  (forall source : string,
     let context :=
       [("source", source);
        ("subDir", "${pvc.metadata.namespace}/${pvc.metadata.name}");
        ("csi.storage.k8s.io/pvc/namespace", "ns1");
        ("csi.storage.k8s.io/pvc/name", "claim1")] in
     let '(source', subDir, subDirReplaceMap) :=
       @stageContext linux_runtime spec_package context in
     source' = source
     /\ @stageSource spec_package source' subDir subDirReplaceMap
        = strings.TrimRight1 source "/" +:+ "/ns1/claim1").
Proof.
  split.
  - intros req w source subDir m mounted target fsType mountOptions sensitiveMountOptions
      Hctx Hsub Hin.
    destruct (NodeStageVolume_smb_mounts req w source subDir m Hctx)
      as [E | (mo & smo & Hv & E)]; rewrite E in Hin; [destruct Hin |].
    destruct Hin as [[= <- <- <- <- <-] | []].
    unfold stageSource. rewrite (eqb_nonempty _ Hsub). reflexivity.
  - intros source. split; reflexivity.
Qed.

Ltac code_cases :=
  repeat first
    [ progress run_bind
    | match goal with
      | |- context [if ?b then _ else _] => destruct b
      | |- context [match value ?o with _ => _ end] => destruct (value o)
      | |- context [match ?x with Some _ => _ | None => _ end] => destruct x
      | |- context [match ?x with inl _ => _ | inr _ => _ end] => destruct x
      | |- context [let (_, _) := ?x in _] => destruct x
      end ];
  cbn [value status_Code status_Error fmt_Errorf err_status].

(** The codes of the answers.  Only a failure to prepare the publish or
    the stage path is answered with a plain error, that is with the code
    Unknown. *)
Lemma NodePublishVolume_codes (req : NodePublishVolumeRequest) (w : W) :
  let o := NodePublishVolume req w in
  In (status_Code (value o)) [OK; InvalidArgument; Internal]
  \/ exists e,
       value o = Some (fmt_Errorf ("prepare publish failed for " +:+ pub_TargetPath req
                                     +:+ " with error: " +:+ Error e)).
Proof.
  intros o. subst o. unfold NodePublishVolume.
  code_cases; try (left; cbn; tauto); right; eexists; reflexivity.
Qed.


Lemma stageOptions_error (volumeID targetPath : string) (mountFlags : list string)
    (volumeMountGroup : string) (secrets : gomap) (gidPresent : bool) (w : W) (e : error) :
  value (stageOptions volumeID targetPath mountFlags volumeMountGroup secrets gidPresent w)
    = inl e ->
  err_status e = Some Internal.
Proof.
  unfold stageOptions.
  code_cases; intros [= <-]; reflexivity.
Qed.

Lemma stageMount_codes (volumeID targetPath source subDir : string) (subDirReplaceMap : gomap)
    (mountOptions sensitiveMountOptions : list string) (w : W) :
  let o := stageMount volumeID targetPath source subDir subDirReplaceMap
             mountOptions sensitiveMountOptions w in
  In (status_Code (value o)) [OK; Internal]
  \/ exists e,
       value o = Some (fmt_Errorf ("prepare stage path failed for " +:+ targetPath
                                     +:+ " with error: " +:+ Error e)).
Proof.
  intros o. subst o. unfold stageMount. run_bind.
  destruct (value (ensureMountPoint targetPath w)) as [isDirMounted [e |]];
    cbn [value]; [left; cbn; tauto |].
  destruct isDirMounted; cbn [value]; [left; cbn; tauto |].
  destruct (value (call (prepareStagePath targetPath) _)) as [e |]; cbn [value];
    [right; eexists; reflexivity |].
  left. rewrite (proj2 (proj2 (stagePoll_run _ _ _ _ _ _))).
  destruct (snd _); cbn; tauto.
Qed.

Lemma NodeStageVolume_codes (req : NodeStageVolumeRequest) (w : W) :
  let o := NodeStageVolume req w in
  In (status_Code (value o)) [OK; InvalidArgument; Aborted; Internal]
  \/ exists e,
       value o = Some (fmt_Errorf ("prepare stage path failed for "
                                     +:+ stage_StagingTargetPath req
                                     +:+ " with error: " +:+ Error e)).
Proof.
  intros o. subst o. unfold NodeStageVolume.
  destruct (String.length (stage_VolumeId req) =? 0)%nat; [left; cbn; tauto |].
  destruct (is_nil_cap (stage_VolumeCapability req)); [left; cbn; tauto |].
  destruct (String.length (stage_StagingTargetPath req) =? 0)%nat; [left; cbn; tauto |].
  destruct (stageContext (stage_VolumeContext req)) as [[source subDir] m].
  destruct (String.eqb source ""); [left; cbn; tauto |].
  run_bind.
  destruct (value (call (TryAcquire (stage_VolumeId req)) w)); cbn [negb value];
    [| left; cbn; tauto].
  match goal with
  | |- context [value (stageOptions ?a ?b ?c ?d ?e ?f ?w0)] =>
      pose proof (stageOptions_error a b c d e f w0) as Herr;
      destruct (value (stageOptions a b c d e f w0)) as [e0 | [mo smo]]
  end; cbn [value].
  - left. unfold status_Code. rewrite (Herr e0 eq_refl). cbn. tauto.
  - match goal with
    | |- context [stageMount ?a ?b ?c ?d ?e ?f ?g ?w0] =>
        destruct (stageMount_codes a b c d e f g w0) as [Hin | Hprep]
    end.
    + left. cbn in Hin |- *. tauto.
    + right. exact Hprep.
Qed.

Lemma NodeUnpublishVolume_codes (req : NodeUnpublishVolumeRequest) (w : W) :
  In (status_Code (value (NodeUnpublishVolume req w))) [OK; InvalidArgument; Internal].
Proof. unfold NodeUnpublishVolume. code_cases; cbn; tauto. Qed.

Lemma NodeUnstageVolume_codes (req : NodeUnstageVolumeRequest) (w : W) :
  In (status_Code (value (NodeUnstageVolume req w))) [OK; InvalidArgument; Aborted; Internal].
Proof. unfold NodeUnstageVolume. code_cases; cbn; tauto. Qed.

Lemma NodeGetVolumeStats_codes (req : NodeGetVolumeStatsRequest) (w : W) :
  let o := NodeGetVolumeStats req w in
  In (status_Code (snd (value o))) [OK; InvalidArgument; NotFound; Internal]
  /\ (status_Code (snd (value o)) = NotFound ->
      os_IsNotExist (snd (value (call (Lstat (stats_VolumePath req)) w))) = true).
Proof.
  intros o. subst o. unfold NodeGetVolumeStats, AsInt64.
  destruct (String.length (stats_VolumeId req) =? 0)%nat; [split; [cbn; tauto | discriminate] |].
  destruct (String.length (stats_VolumePath req) =? 0)%nat; [split; [cbn; tauto | discriminate] |].
  run_bind.
  destruct (value (call (Lstat (stats_VolumePath req)) w)) as [fi [e |]]; cbn [snd value].
  - destruct (os_IsNotExist (Some e)) eqn:Hne; cbn [snd value];
      (split; [cbn; tauto | first [discriminate | intros _; reflexivity]]).
  - split; [| code_cases; cbn; discriminate].
    code_cases; cbn; tauto.
Qed.

Lemma NodeExpandVolume_code (w : W) :
  status_Code (value (NodeExpandVolume w)) = Unimplemented.
Proof. reflexivity. Qed.

End Traces.

(** ** The credential cache on the ideal host *)

Lemma wp_ret {W A} (a : A) (w : W) (Q : A -> W -> Prop) : Q a w -> wp (mret a) w Q.
Proof. trivial. Qed.

Lemma wp_bind {W A B} (m : M W A) (k : A -> M W B) (w : W) (Q : B -> W -> Prop) :
  wp m w (fun a w' => wp (k a) w' Q) -> wp (m ≫= k) w Q.
Proof. trivial. Qed.

Lemma wp_call {W} `{!Host W} {X} (c : Call X) (w : W) (Q : X -> W -> Prop) :
  Q (fst (handle X c w)) (snd (handle X c w)) -> wp (call c) w Q.
Proof. trivial. Qed.

Ltac wp_call :=
  first [apply wp_bind; apply wp_call | apply wp_call];
  unfold handle, ideal_host; cbn [fst snd].

Lemma strip_prefix_Some (p s n : string) : strip_prefix p s = Some n -> s = p +:+ n.
Proof.
  revert s. induction p as [| a p IH]; intros s; cbn.
  - intros [= ->]. reflexivity.
  - destruct s as [| b s]; [discriminate |].
    destruct (Ascii.eqb_spec a b) as [-> | _]; [| discriminate].
    intros E. rewrite (IH _ E). reflexivity.
Qed.

Lemma entry_name_Some (d k n : string) : entry_name d k = Some n -> k = with_slash d +:+ n.
Proof.
  unfold entry_name. destruct (strip_prefix (with_slash d) k) as [n' |] eqn:E; [| discriminate].
  destruct (String.eqb n' "" || has_byte "/" n'); [discriminate |].
  intros [= <-]. exact (strip_prefix_Some _ _ _ E).
Qed.

Lemma elem_of_children (fs : gmap string node) (d n : string) :
  n ∈ children fs d <-> is_Some (fs !! (with_slash d +:+ n))
                        /\ entry_name d (with_slash d +:+ n) = Some n.
Proof.
  unfold children. rewrite list_elem_of_omap. split.
  - intros (k & Hk & Hn). pose proof (entry_name_Some _ _ _ Hn) as ->.
    split; [| exact Hn].
    apply list_elem_of_fmap in Hk as ([k' x] & -> & Hx). cbn.
    apply elem_of_map_to_list in Hx. rewrite Hx. eauto.
  - intros ([x Hx] & Hn). exists (with_slash d +:+ n). split; [| exact Hn].
    apply list_elem_of_fmap. exists (with_slash d +:+ n, x). split; [reflexivity |].
    apply elem_of_map_to_list. exact Hx.
Qed.

Lemma with_slash_nonempty (d : string) : with_slash d = d -> d <> "".
Proof. intros E ->. discriminate E. Qed.

Lemma resolve_node (fuel : nat) (fs : gmap string node) (p : string) (n : node) :
  fs !! p = Some n -> (forall target, n <> Link target) -> resolve fuel fs p = RNode p n.
Proof.
  intros Hp Hn. destruct fuel; cbn [resolve]; rewrite Hp; destruct n; try reflexivity;
    exfalso; eapply Hn; reflexivity.
Qed.

Lemma resolve_missing (fuel : nat) (fs : gmap string node) (p : string) :
  fs !! p = None -> resolve fuel fs p = RMissing p.
Proof. intros Hp. destruct fuel; cbn [resolve]; rewrite Hp; reflexivity. Qed.

Lemma only_unlinks_refl (volPath : string) (fs : gmap string node) : only_unlinks volPath fs fs.
Proof. intros p. left. reflexivity. Qed.

Lemma only_unlinks_trans (volPath : string) (fs1 fs2 fs3 : gmap string node) :
  only_unlinks volPath fs1 fs2 -> only_unlinks volPath fs2 fs3 -> only_unlinks volPath fs1 fs3.
Proof.
  intros H12 H23 p. destruct (H23 p) as [E | [E1 E2]], (H12 p) as [F | [F1 F2]].
  - left. congruence.
  - right. split; congruence.
  - right. split; congruence.
  - congruence.
Qed.

Lemma only_unlinks_keeps_no_link (volPath : string) (fs fs' : gmap string node) (p : string) :
  only_unlinks volPath fs fs' -> fs !! p <> Some (Link volPath) -> fs' !! p <> Some (Link volPath).
Proof. intros Hu Hp. destruct (Hu p) as [E | [E _]]; rewrite E; [exact Hp | discriminate]. Qed.

Lemma ideal_Remove_gone (name : string) (w : Ideal) :
  fst (ideal_Remove name w) = None -> files (snd (ideal_Remove name w)) !! name = None.
Proof.
  unfold ideal_Remove.
  destruct (files w !! name) as [[| content uid gid | target] |] eqn:Hn; cbn [fst snd];
    try discriminate; try (intros _; apply lookup_delete_eq).
  destruct (mounted w name); [discriminate |].
  destruct (children (files w) name); [intros _; apply lookup_delete_eq | discriminate].
Qed.

Section IdealCache.

Context `{!Runtime} `{!Package}.

Lemma getKerberosCache_name (credUID : Z) (secrets : gomap) (name content : string) :
  getKerberosCache credUID secrets = (name, content, None) ->
  name = getKerberosFilePath (getKrb5CcacheName credUID).
Proof.
  unfold getKerberosCache.
  destruct (String.eqb _ ""); [discriminate |].
  destruct (DecodeString _) as [c [e |]]; [discriminate |].
  intros [= <- _]. reflexivity.
Qed.

(** One turn of the cleanup loop: it unlinks the entry when the entry is
    a symbolic link to [volPath], and does nothing else. *)
Lemma removeSymlinkTo_spec (volPath name : string) (w : Ideal) :
  volPath <> "" ->
  let w' := world (removeSymlinkTo volPath name w) in
  only_unlinks volPath (files w) (files w')
  /\ files w' !! getKerberosFilePath name <> Some (Link volPath).
Proof.
  intros Hne. unfold removeSymlinkTo, mbind, M_bind, bind, mret, M_ret, ret, call, handle, ideal_host.
  cbn [value world trace fst snd]. unfold ideal_Lstat, ideal_Readlink.
  destruct (files w !! getKerberosFilePath name) as [n |] eqn:Hn;
    rewrite ?Hn; cbn [fst snd value world].
  - destruct n as [| content uid gid | target]; cbn [fst snd value world].
    + destruct (String.eqb_spec "" volPath) as [E | _]; [congruence |].
      cbn [world]. split; [apply only_unlinks_refl | rewrite Hn; discriminate].
    + destruct (String.eqb_spec "" volPath) as [E | _]; [congruence |].
      cbn [world]. split; [apply only_unlinks_refl | rewrite Hn; discriminate].
    + destruct (String.eqb_spec target volPath) as [-> | Hneq]; cbn [value world trace fst snd].
      * unfold ideal_Remove. rewrite Hn. cbn [snd files set_files].
        split; [| rewrite lookup_delete_eq; discriminate].
        intros p. destruct (decide (p = getKerberosFilePath name)) as [-> | Hp].
        -- right. rewrite lookup_delete_eq. split; [reflexivity | exact Hn].
        -- left. apply lookup_delete_ne. congruence.
      * split; [apply only_unlinks_refl | rewrite Hn; congruence].
  - split; [apply only_unlinks_refl | rewrite Hn; discriminate].
Qed.

Lemma forEach_removeSymlinkTo_spec (volPath : string) (names : list string) (w : Ideal) :
  volPath <> "" ->
  let w' := world (forEach (removeSymlinkTo volPath) names w) in
  only_unlinks volPath (files w) (files w')
  /\ forall name, name ∈ names -> files w' !! getKerberosFilePath name <> Some (Link volPath).
Proof.
  intros Hne. revert w. induction names as [| a names IH]; intros w.
  - split; [apply only_unlinks_refl | intros name Hin; inversion Hin].
  - cbn [forEach]. unfold mbind, M_bind, bind. cbn [world].
    destruct (removeSymlinkTo_spec volPath a w Hne) as [Hstep Ha].
    destruct (IH (world (removeSymlinkTo volPath a w))) as [Hrest Hnames].
    split; [exact (only_unlinks_trans _ _ _ _ Hstep Hrest) |].
    intros name Hin. apply elem_of_cons in Hin as [-> | Hin]; [| exact (Hnames name Hin)].
    exact (only_unlinks_keeps_no_link _ _ _ _ Hrest Ha).
Qed.

(** After [ensureKerberosCache] succeeded: the cache file of the volume is
    a regular file, the canonical name is a symbolic link to it, and
    every other path is as before. *)
Lemma ensureKerberosCache_post (w : Ideal) (volumeID : string) (mountFlags : list string)
    (secrets : gomap) :
  let volPath := getKerberosFilePath (volumeKerberosCacheName volumeID) in
  let canon := getKerberosFilePath (getKrb5CcacheName (fst (getCredUID mountFlags))) in
  (forall target, files w !! volPath <> Some (Link target)) ->
  volPath <> canon ->
  wp (ensureKerberosCache volumeID mountFlags secrets) w (fun v w' =>
    v = (true, None) ->
    files w !! volPath <> Some Dir
    /\ (exists content uid gid, files w' !! volPath = Some (File content uid gid))
    /\ files w' !! canon = Some (Link volPath)
    /\ (forall p, p <> volPath -> p <> canon -> files w' !! p = files w !! p)).
Proof.
  intros volPath canon Hnolink Hneq. unfold ensureKerberosCache.
  destruct (hasKerberosMountOption mountFlags); [| apply wp_ret; discriminate].
  apply wp_bind. unfold kerberosCacheDirectoryExists. wp_call.
  destruct (ideal_Stat krb5CacheDirectory w) as [fi [e |]].
  { destruct (os_IsNotExist (Some e)); apply wp_ret; cbn [is_nil negb]; apply wp_ret; discriminate. }
  apply wp_ret. cbn [is_nil negb].
  destruct (getCredUID mountFlags) as [credUID [e |]] eqn:Hcred;
    cbn [is_nil negb]; [apply wp_ret; discriminate |].
  destruct (getKerberosCache credUID secrets) as [[fname content] [e |]] eqn:Hcache;
    cbn [is_nil negb]; [apply wp_ret; discriminate |].
  apply getKerberosCache_name in Hcache. subst fname.
  cbn [fst] in canon. fold volPath canon.
  (* WriteFile *)
  wp_call. unfold ideal_WriteFile.
  destruct (files w !! volPath) as [[| c0 uid0 gid0 | target] |] eqn:Hvol;
    [ rewrite (resolve_node _ _ _ _ Hvol) by discriminate; apply wp_ret; discriminate
    | rewrite (resolve_node _ _ _ _ Hvol) by discriminate
    | exfalso; exact (Hnolink target eq_refl)
    | rewrite (resolve_missing _ _ _ Hvol) ].
  all: cbn [fst snd].
  (* Chown *)
  all: wp_call; unfold ideal_Chown; cbn [files set_files].
  all: erewrite resolve_node; [| apply lookup_insert_eq | discriminate].
  all: cbn [fst snd files set_files]; rewrite insert_insert_eq.
  (* Stat and Remove of the canonical name *)
  all: wp_call.
  all: match goal with
       | |- context [ideal_Stat ?c ?w0] => destruct (ideal_Stat c w0) as [fi2 err2]
       end.
  all: apply wp_bind.
  all: destruct (os_IsNotExist err2);
         [ apply wp_ret
         | apply wp_call; unfold handle, ideal_host, ideal_Remove; cbn [files set_files table] ].
  (* what is known of the file tree before the symbolic link is made *)
  all: match goal with
       | |- wp _ ?wC _ =>
           assert (HC1 : files wC !! volPath = Some (File content credUID credUID))
             by (repeat case_match; cbn [snd files set_files];
                 rewrite ?lookup_delete_ne by congruence; apply lookup_insert_eq);
           assert (HC2 : forall p, p <> volPath -> p <> canon -> files wC !! p = files w !! p)
             by (intros p Hp1 Hp2; repeat case_match; cbn [snd files set_files];
                 rewrite ?lookup_delete_ne by congruence; apply lookup_insert_ne; congruence);
           let x := fresh "wC" in set (x := wC) in *; clearbody x
       end.
  (* Symlink *)
  all: wp_call; unfold ideal_Symlink.
  all: destruct (files wC !! canon) eqn:HC3; cbn [fst snd]; apply wp_ret; [discriminate |].
  all: intros _; cbn [files set_files].
  all: split; [discriminate |].
  all: split; [exists content, credUID, credUID; rewrite lookup_insert_ne by congruence; exact HC1 |].
  all: split; [apply lookup_insert_eq |].
  all: intros p Hp1 Hp2; rewrite lookup_insert_ne by congruence; apply HC2; assumption.
Qed.

(** [deleteKerberosCache] when the directory and the cache file are there:
    the loop unlinks the symbolic links to the cache file among the
    entries of the directory, then the cache file is removed. *)
Lemma deleteKerberosCache_post (w : Ideal) (volumeID content : string) (uid gid : Z) :
  let volPath := getKerberosFilePath (volumeKerberosCacheName volumeID) in
  files w !! krb5CacheDirectory = Some Dir ->
  with_slash krb5CacheDirectory = krb5CacheDirectory ->
  files w !! volPath = Some (File content uid gid) ->
  wp (deleteKerberosCache volumeID) w (fun v w' =>
    v = None
    /\ exists fs,
         only_unlinks volPath (files w) fs
         /\ files w' = delete volPath fs
         /\ forall name, name ∈ children (files w) krb5CacheDirectory ->
              fs !! getKerberosFilePath name <> Some (Link volPath)).
Proof.
  intros volPath Hdir Hslash Hvol.
  assert (Hne : volPath <> "")
    by (apply append_nonempty_l, with_slash_nonempty, Hslash).
  unfold deleteKerberosCache.
  apply wp_bind. unfold kerberosCacheDirectoryExists. wp_call. unfold ideal_Stat.
  rewrite (resolve_node _ _ _ _ Hdir) by discriminate. apply wp_ret. cbn [negb is_nil].
  fold volPath. wp_call. unfold ideal_Stat.
  rewrite (resolve_node _ _ _ _ Hvol) by discriminate. cbn [os_IsNotExist is_nil negb].
  wp_call. unfold ideal_ReadDir.
  rewrite (resolve_node _ _ _ _ Hdir) by discriminate.
  apply wp_bind. unfold wp at 1.
  destruct (forEach_removeSymlinkTo_spec volPath (children (files w) krb5CacheDirectory) w Hne)
    as [Hunlink Hnames].
  set (wL := world (forEach (removeSymlinkTo volPath) (children (files w) krb5CacheDirectory) w))
    in *.
  wp_call. unfold ideal_Remove.
  assert (HvolL : files wL !! volPath = Some (File content uid gid)).
  { destruct (Hunlink volPath) as [E | [_ E]]; congruence. }
  rewrite HvolL. cbn [snd files set_files]. apply wp_ret.
  split; [reflexivity |]. exists (files wL). repeat split; assumption.
Qed.

(** Claim C3.  The credential-cache round trip, on the ideal host.  Let a
    stage with Kerberos succeed for [volumeID] ([ensureKerberosCache]
    returns true), and let [deleteKerberosCache] follow for the same
    volume.  Then the deletion succeeds, the cache file of the volume is
    gone, no entry of the cache directory is a symbolic link to it, and
    the cache path of every other volume holds what it held before.  The
    cache directory is a directory whose name ends in a separator; the
    cache path of the volume did not hold a symbolic link before the
    stage; and the names involved are not the canonical name
    [krb5cc_<uid>] that the stage links. *)
Theorem credential_cache_round_trip (w : Ideal) (volumeID : string) (mountFlags : list string)
    (secrets : gomap) :
  let volPath := getKerberosFilePath (volumeKerberosCacheName volumeID) in
  let credUID := fst (getCredUID mountFlags) in
  files w !! krb5CacheDirectory = Some Dir ->
  with_slash krb5CacheDirectory = krb5CacheDirectory ->
  (forall target, files w !! volPath <> Some (Link target)) ->
  volumeKerberosCacheName volumeID <> getKrb5CcacheName credUID ->
  let ensured := ensureKerberosCache volumeID mountFlags secrets w in
  value ensured = (true, None) ->
  let deleted := deleteKerberosCache volumeID (world ensured) in
  value deleted = None
  /\ files (world deleted) !! volPath = None
  /\ (forall name,
        name ∈ fst (ideal_ReadDir krb5CacheDirectory (world deleted)) ->
        files (world deleted) !! getKerberosFilePath name <> Some (Link volPath))
  /\ (forall other,
        other <> volumeID ->
        volumeKerberosCacheName other <> getKrb5CcacheName credUID ->
        let otherPath := getKerberosFilePath (volumeKerberosCacheName other) in
        files w !! otherPath <> Some (Link volPath) ->
        files (world deleted) !! otherPath = files w !! otherPath).
Proof.
  intros volPath credUID Hdir Hslash Hnolink Hname ensured Hensured deleted.
  set (canon := getKerberosFilePath (getKrb5CcacheName credUID)).
  assert (Hneq : volPath <> canon).
  { intros E. apply Hname. exact (append_inj_r _ _ _ E). }
  destruct (ensureKerberosCache_post w volumeID mountFlags secrets Hnolink Hneq Hensured)
    as (Hnodir & (content & uid & gid & Hvol1) & Hcanon1 & Hsame1).
  fold ensured in Hvol1, Hcanon1, Hsame1. fold volPath canon in Hcanon1, Hsame1.
  assert (Hdv : krb5CacheDirectory <> volPath).
  { intros E. apply Hnodir. change (files w !! volPath = Some Dir). rewrite <- E. exact Hdir. }
  assert (Hdc : krb5CacheDirectory <> canon).
  { intros E. symmetry in E. apply append_eq_self in E.
    exact (append_nonempty_r _ _ (itoa_nonempty credUID) E). }
  assert (Hdir1 : files (world ensured) !! krb5CacheDirectory = Some Dir)
    by (rewrite Hsame1; assumption).
  destruct (deleteKerberosCache_post (world ensured) volumeID content uid gid Hdir1 Hslash Hvol1)
    as (Hvalue & fs & Hunlink & Hfiles & Hnames).
  fold deleted in Hvalue, Hfiles. fold volPath in Hunlink, Hfiles, Hnames.
  split; [exact Hvalue |].
  split; [rewrite Hfiles; apply lookup_delete_eq |].
  split.
  - intros name Hin Hlink. unfold ideal_ReadDir in Hin.
    assert (Hdir2 : files (world deleted) !! krb5CacheDirectory = Some Dir).
    { rewrite Hfiles, lookup_delete_ne by congruence.
      destruct (Hunlink krb5CacheDirectory) as [E | [_ E]]; congruence. }
    rewrite (resolve_node _ _ _ _ Hdir2) in Hin by discriminate. cbn [fst] in Hin.
    apply elem_of_children in Hin as [_ Hentry]. rewrite Hslash in Hentry.
    change (krb5CacheDirectory +:+ name) with (getKerberosFilePath name) in Hentry.
    rewrite Hfiles in Hlink. apply lookup_delete_Some in Hlink as [_ Hlink].
    apply (Hnames name); [| exact Hlink].
    apply elem_of_children. rewrite Hslash.
    change (krb5CacheDirectory +:+ name) with (getKerberosFilePath name).
    split; [| exact Hentry].
    destruct (Hunlink (getKerberosFilePath name)) as [E | [E _]]; [| congruence].
    rewrite <- E, Hlink. eauto.
  - intros other Hother Hothername otherPath Hnotlink.
    assert (Hov : otherPath <> volPath).
    { intros E. apply append_inj_r, volumeKerberosCacheName_inj in E. contradiction. }
    assert (Hoc : otherPath <> canon).
    { intros E. apply append_inj_r in E. contradiction. }
    rewrite Hfiles, lookup_delete_ne by congruence.
    destruct (Hunlink otherPath) as [E | [_ E]].
    + rewrite E. apply Hsame1; assumption.
    + rewrite Hsame1 in E by assumption. contradiction.
Qed.

End IdealCache.

(** ** Decimal numerals *)

Lemma parse_digits_uint (d d' : Decimal.uint) :
  parse_digits (Z.of_N (DecimalPos.Unsigned.of_lu d')) (DecimalString.NilEmpty.string_of_uint d)
  = Some (Z.of_N (DecimalPos.Unsigned.of_lu (Decimal.revapp d d'))).
Proof.
  revert d'. induction d as [| d IH | d IH | d IH | d IH | d IH | d IH | d IH | d IH | d IH | d IH];
    intros d'; [reflexivity | ..];
    cbn [DecimalString.NilEmpty.string_of_uint parse_digits Decimal.revapp];
    (match goal with |- context [digit ?c] => change (digit c) with (Some (Z.of_N (N_of_ascii c) - 48)) end);
    cbn [N_of_ascii N_of_digits];
    rewrite <- IH; f_equal; f_equal; cbn [DecimalPos.Unsigned.of_lu]; lia.
Qed.

Lemma parse_digits_of_uint (d : Decimal.uint) :
  parse_digits 0 (DecimalString.NilEmpty.string_of_uint d) = Some (Z.of_uint d).
Proof.
  change 0 with (Z.of_N (DecimalPos.Unsigned.of_lu Decimal.Nil)).
  rewrite parse_digits_uint. unfold Z.of_uint. rewrite DecimalPos.Unsigned.of_uint_alt.
  reflexivity.
Qed.

Lemma parse_digits_to_uint (p : positive) :
  parse_digits 0 (DecimalString.NilEmpty.string_of_uint (Pos.to_uint p)) = Some (Z.pos p).
Proof.
  rewrite parse_digits_of_uint. unfold Z.of_uint.
  rewrite DecimalPos.Unsigned.of_to. reflexivity.
Qed.

(** A numeral starts with a digit. *)
Lemma string_of_uint_head (d : Decimal.uint) :
  d <> Decimal.Nil ->
  exists c s, DecimalString.NilEmpty.string_of_uint d = String c s
              /\ digit c <> None.
Proof.
  destruct d; [congruence | ..]; intros _; eexists _, _; (split; [reflexivity | discriminate]).
Qed.

Lemma itoa_pos (p : positive) :
  itoa (Z.pos p) = DecimalString.NilEmpty.string_of_uint (Pos.to_uint p).
Proof.
  unfold itoa. cbn [Z.to_int DecimalString.NilZero.string_of_int].
  pose proof (DecimalPos.Unsigned.to_uint_nonnil p) as Hn.
  destruct (Pos.to_uint p); [congruence | reflexivity ..].
Qed.

Lemma itoa_neg (p : positive) :
  itoa (Z.neg p) = String "-" (DecimalString.NilEmpty.string_of_uint (Pos.to_uint p)).
Proof.
  unfold itoa. cbn [Z.to_int DecimalString.NilZero.string_of_int].
  pose proof (DecimalPos.Unsigned.to_uint_nonnil p) as Hn.
  destruct (Pos.to_uint p); [congruence | reflexivity ..].
Qed.

Lemma digit_not_sign (c : ascii) : digit c <> None -> c <> "-"%char /\ c <> "+"%char.
Proof. intros Hc. split; intros ->; apply Hc; reflexivity. Qed.

Section Numerals.

Context `{!Runtime}.

Lemma Atoi_unsigned (c : ascii) (s : string) (n : Z) :
  digit c <> None ->
  parse_digits 0 (String c s) = Some n ->
  0 <= n < 2 ^ 63 ->
  Atoi (String c s) = (n, None).
Proof.
  intros Hc Hp Hn. apply digit_not_sign in Hc as [Hm Hpl].
  unfold Atoi.
  assert (Hbody : (match String c s with
                   | String "-" r => (true, r)
                   | String "+" r => (false, r)
                   | _ => (false, String c s)
                   end) = (false, String c s)).
  { destruct c as [[|] [|] [|] [|] [|] [|] [|] [|]]; try reflexivity; congruence. }
  rewrite Hbody, Hp.
  destruct (Z.ltb_spec n (- 2 ^ 63)); [lia |].
  destruct (Z.ltb_spec (2 ^ 63 - 1) n); [lia | reflexivity].
Qed.

Lemma Atoi_negative (c : ascii) (s : string) (n : Z) :
  parse_digits 0 (String c s) = Some n ->
  0 < n <= 2 ^ 63 ->
  Atoi (String "-" (String c s)) = (- n, None).
Proof.
  intros Hp Hn. unfold Atoi. rewrite Hp.
  destruct (Z.ltb_spec (- n) (- 2 ^ 63)); [lia |].
  destruct (Z.ltb_spec (2 ^ 63 - 1) (- n)); [lia | reflexivity].
Qed.

(** [strconv.Atoi] reads back what [%d] prints. *)
Lemma Atoi_itoa (n : Z) : - 2 ^ 63 <= n < 2 ^ 63 -> Atoi (itoa n) = (n, None).
Proof.
  intros Hn. destruct n as [| p | p].
  - reflexivity.
  - rewrite itoa_pos.
    destruct (string_of_uint_head (Pos.to_uint p) (DecimalPos.Unsigned.to_uint_nonnil p))
      as (c & s & E & Hc).
    pose proof (parse_digits_to_uint p) as Hp. rewrite E in Hp |- *.
    apply Atoi_unsigned; [assumption | assumption | lia].
  - rewrite itoa_neg.
    destruct (string_of_uint_head (Pos.to_uint p) (DecimalPos.Unsigned.to_uint_nonnil p))
      as (c & s & E & Hc).
    pose proof (parse_digits_to_uint p) as Hp. rewrite E in Hp |- *.
    change (Z.neg p) with (- Z.pos p).
    apply Atoi_negative; [assumption | lia].
Qed.

End Numerals.

Lemma itoa_inj (n m : Z) : itoa n = itoa m -> n = m.
Proof.
  unfold itoa. intros E. apply DecimalZ.to_int_inj.
  assert (Hnil : forall z, Z.to_int z <> Decimal.Pos Decimal.Nil
                           /\ Z.to_int z <> Decimal.Neg Decimal.Nil).
  { intros [| p | p]; cbn; split; try discriminate;
      intros [= E']; exact (DecimalPos.Unsigned.to_uint_nonnil p E'). }
  pose proof (DecimalString.NilZero.isi (Z.to_int n) (proj1 (Hnil n)) (proj2 (Hnil n))) as Hn.
  pose proof (DecimalString.NilZero.isi (Z.to_int m) (proj1 (Hnil m)) (proj2 (Hnil m))) as Hm.
  rewrite E in Hn. congruence.
Qed.

(** ** Prefixes *)

Lemma HasPrefix_app (p s : string) : strings.HasPrefix (p +:+ s) p = true.
Proof.
  unfold strings.HasPrefix. induction p as [| a p IH]; [destruct s; reflexivity |].
  change (String.prefix (String a p) (String a (p +:+ s)) = true). cbn [String.prefix].
  destruct (ascii_dec a a); [exact IH | congruence].
Qed.

Lemma substring_skip (p s : string) (n : nat) :
  String.substring (String.length p) n (p +:+ s) = String.substring 0 n s.
Proof.
  induction p as [| a p IH]; [reflexivity |].
  change (String.substring (S (String.length p)) n (String a (p +:+ s))
          = String.substring 0 n s).
  cbn [String.substring]. exact IH.
Qed.

Lemma substring_all (s : string) : String.substring 0 (String.length s) s = s.
Proof. induction s as [| a s IH]; cbn; [reflexivity | rewrite IH; reflexivity]. Qed.

Lemma string_length_app (p s : string) :
  String.length (p +:+ s) = (String.length p + String.length s)%nat.
Proof.
  induction p as [| a p IH]; [reflexivity |].
  change (S (String.length (p +:+ s)) = S (String.length p + String.length s)).
  rewrite IH. reflexivity.
Qed.

Lemma TrimPrefix_app (p s : string) : strings.TrimPrefix (p +:+ s) p = s.
Proof.
  unfold strings.TrimPrefix. rewrite HasPrefix_app, substring_skip, string_length_app.
  replace (String.length p + String.length s - String.length p)%nat with (String.length s) by lia.
  apply substring_all.
Qed.

Section CredUID.

Context `{!Runtime}.

Lemma Atoi_error (s : string) (e : error) :
  snd (Atoi s) = Some e -> exists rest, err_text e = "strconv.Atoi: parsing " +:+ rest.
Proof.
  unfold Atoi.
  destruct (match s with
            | String "-" r => (true, r)
            | String "+" r => (false, r)
            | _ => (false, s)
            end) as [neg body].
  destruct body as [| c body]; [intros [= <-]; eexists; reflexivity |].
  destruct (parse_digits 0 (String c body)) as [n |]; [| intros [= <-]; eexists; reflexivity].
  destruct (_ <? _); [intros [= <-]; eexists; reflexivity |].
  destruct (_ <? _); [intros [= <-]; eexists; reflexivity | discriminate].
Qed.

(** [getCredUID] reads the first flag that starts with [cruid=], and reads
    its number as [%d] prints it, sign included; the flags before it and
    after it do not matter. *)
Theorem getCredUID_reads_first_cruid (before after : list string) (credUID : Z) :
  Forall (fun mountFlag => strings.HasPrefix mountFlag "cruid=" = false) before ->
  - 2 ^ 63 <= credUID < 2 ^ 63 ->
  getCredUID (before ++ ("cruid=" +:+ itoa credUID) :: after) = (credUID, None).
Proof.
  intros Hbefore Hrange. induction Hbefore as [| flag before Hflag _ IH].
  - cbn [app getCredUID]. rewrite HasPrefix_app, TrimPrefix_app. apply Atoi_itoa, Hrange.
  - cbn [app getCredUID]. rewrite Hflag. exact IH.
Qed.

(** [getCredUID] answers "Can't find credUid in mount flags", with the uid
    -1, exactly when no flag starts with [cruid=]. *)
Theorem getCredUID_not_found (mountFlags : list string) :
  getCredUID mountFlags = (-1, Some (fmt_Errorf "Can't find credUid in mount flags"))
  <-> Forall (fun mountFlag => strings.HasPrefix mountFlag "cruid=" = false) mountFlags.
Proof.
  induction mountFlags as [| flag rest IH]; cbn [getCredUID].
  - split; [constructor | reflexivity].
  - destruct (strings.HasPrefix flag "cruid=") eqn:Hflag.
    + split.
      * intros E.
        destruct (Atoi_error (strings.TrimPrefix flag "cruid=")
                    (fmt_Errorf "Can't find credUid in mount flags")) as [rest' Htext];
          [rewrite E; reflexivity | discriminate Htext].
      * intros Hall. inversion Hall; congruence.
    + rewrite IH. split; [constructor; assumption | intros Hall; inversion Hall; assumption].
Qed.

End CredUID.

Section CanonicalNames.

Context `{!Package}.

(** Two uids share a canonical cache name, or a canonical cache path, only
    when they are equal. *)
Theorem getKrb5CcacheName_injective (credUID1 credUID2 : Z) :
  (getKrb5CcacheName credUID1 = getKrb5CcacheName credUID2 <-> credUID1 = credUID2)
  /\ (getKerberosFilePath (getKrb5CcacheName credUID1)
      = getKerberosFilePath (getKrb5CcacheName credUID2) <-> credUID1 = credUID2).
Proof.
  unfold getKerberosFilePath, getKrb5CcacheName. split; split; try (intros ->; reflexivity).
  - intros E. exact (itoa_inj _ _ (append_inj_r _ _ _ E)).
  - intros E. exact (itoa_inj _ _ (append_inj_r _ _ _ (append_inj_r _ _ _ E))).
Qed.

End CanonicalNames.

(** ** The cache file name is a file name *)

Lemma has_byte_map (f : ascii -> ascii) (c : ascii) (s : string) :
  (forall x, f x <> c) -> has_byte c (strings.map f s) = false.
Proof.
  intros Hf. induction s as [| x s IH]; cbn; [reflexivity |].
  rewrite IH. destruct (Ascii.eqb_spec (f x) c) as [E | _]; [destruct (Hf x E) | reflexivity].
Qed.

Lemma string_length_map (f : ascii -> ascii) (s : string) :
  String.length (strings.map f s) = String.length s.
Proof. induction s as [| x s IH]; cbn; [reflexivity | rewrite IH; reflexivity]. Qed.

Lemma length_EncodeToString_le (n : nat) (s : string) :
  (String.length s <= n)%nat ->
  String.length (base64.EncodeToString s) = (4 * ((String.length s + 2) / 3))%nat.
Proof.
  revert s. induction n as [| n IH]; intros s Hlen.
  - destruct s; [reflexivity | cbn in Hlen; lia].
  - destruct s as [| a [| b [| c r]]]; try reflexivity.
    cbn [base64.EncodeToString String.length]. cbv zeta. cbn [String.length].
    rewrite IH by (cbn in Hlen; lia).
    replace (S (S (S (String.length r))) + 2)%nat with (1 * 3 + (String.length r + 2))%nat by lia.
    rewrite Nat.div_add_l by lia. lia.
Qed.

(** The cache file name of a volume has no ['/'] (and no ['+']): it names
    an entry of the cache directory, whatever the volume id.  It has four
    bytes for every three bytes of the volume id, rounded up, and is empty
    only for the empty volume id. *)
Theorem volumeKerberosCacheName_is_a_file_name (volumeID : string) :
  let name := volumeKerberosCacheName volumeID in
  has_byte "/" name = false
  /\ has_byte "+" name = false
  /\ String.length name = (4 * ((String.length volumeID + 2) / 3))%nat
  /\ (name = "" <-> volumeID = "").
Proof.
  intros name. subst name. rewrite cache_name_map.
  assert (Hlen : String.length
                   (strings.map (fun c => strings.subst1 "+" "_" (strings.subst1 "/" "-" c))
                      (base64.EncodeToString volumeID))
                 = (4 * ((String.length volumeID + 2) / 3))%nat).
  { rewrite string_length_map. apply (length_EncodeToString_le (String.length volumeID)). lia. }
  split; [| split; [| split; [exact Hlen |]]].
  - apply has_byte_map. intros x. unfold strings.subst1.
    destruct (Ascii.eqb_spec x "/") as [-> | Hx]; [discriminate |].
    destruct (Ascii.eqb_spec x "+") as [-> | _]; [discriminate | exact Hx].
  - apply has_byte_map. intros x. unfold strings.subst1.
    destruct (Ascii.eqb_spec x "/") as [-> | _]; [discriminate |].
    destruct (Ascii.eqb_spec x "+") as [-> | Hx]; [discriminate | exact Hx].
  - split.
    + intros E. rewrite E in Hlen. cbn [String.length] in Hlen.
      destruct volumeID as [| a r]; [reflexivity | exfalso].
      cbn [String.length] in Hlen.
      pose proof (Nat.div_str_pos (S (String.length r) + 2) 3). lia.
    + intros ->. reflexivity.
Qed.

(** ** Trimming *)

Lemma list_of_app (a b : string) :
  String.list_ascii_of_string (a +:+ b)
  = String.list_ascii_of_string a ++ String.list_ascii_of_string b.
Proof.
  induction a as [| c a IH]; [reflexivity |].
  change (c :: String.list_ascii_of_string (a +:+ b)
          = c :: (String.list_ascii_of_string a ++ String.list_ascii_of_string b)).
  rewrite IH. reflexivity.
Qed.

Lemma string_of_app (l1 l2 : list ascii) :
  String.string_of_list_ascii (l1 ++ l2)
  = String.string_of_list_ascii l1 +:+ String.string_of_list_ascii l2.
Proof.
  induction l1 as [| c l1 IH]; [reflexivity |].
  change (String c (String.string_of_list_ascii (l1 ++ l2))
          = String c (String.string_of_list_ascii l1 +:+ String.string_of_list_ascii l2)).
  rewrite IH. reflexivity.
Qed.

Lemma string_rev_app (a b : string) : strings.rev (a +:+ b) = strings.rev b +:+ strings.rev a.
Proof. unfold strings.rev. rewrite list_of_app, List.rev_app_distr, string_of_app. reflexivity. Qed.

Lemma string_rev_rev (s : string) : strings.rev (strings.rev s) = s.
Proof.
  unfold strings.rev.
  rewrite String.list_ascii_of_string_of_list_ascii, List.rev_involutive.
  apply String.string_of_list_ascii_of_string.
Qed.

Lemma string_Forall_rev (P : ascii -> Prop) (s : string) :
  strings.Forall P s -> strings.Forall P (strings.rev s).
Proof.
  assert (Happ : forall a b, strings.Forall P a -> strings.Forall P b -> strings.Forall P (a +:+ b)).
  { intros a b Ha Hb. induction a as [| c a IH]; [exact Hb |]. destruct Ha as [Hc Ha].
    split; [exact Hc | exact (IH Ha)]. }
  induction s as [| c s IH]; [trivial |]. intros [Hc Hs].
  change (String c s) with (String c "" +:+ s). rewrite string_rev_app.
  apply Happ; [exact (IH Hs) | split; [exact Hc | exact I]].
Qed.

(** What [trim_left_byte] cuts off, and what it leaves *)
Lemma trim_left_byte_spec (c : ascii) (s : string) :
  exists cut,
    s = cut +:+ strings.trim_left_byte c s
    /\ strings.Forall (fun x => x = c) cut
    /\ forall rest, strings.trim_left_byte c s <> String c rest.
Proof.
  induction s as [| x s (cut & E & Hcut & Hrest)].
  - exists "". repeat split. discriminate.
  - cbn [strings.trim_left_byte]. destruct (Ascii.eqb_spec x c) as [-> | Hne].
    + exists (String c cut). split; [| split; [split; [reflexivity | exact Hcut] | exact Hrest]].
      change (String c s = String c (cut +:+ strings.trim_left_byte c s)). rewrite <- E. reflexivity.
    + exists "". repeat split. intros rest [= -> _]. congruence.
Qed.

(** [strings.TrimRight(s, c)] cuts off the bytes [c] at the end of [s], all
    of them and nothing else. *)
Lemma TrimRight1_spec (s : string) (c : ascii) :
  exists cut,
    s = strings.TrimRight1 s c +:+ cut
    /\ strings.Forall (fun x => x = c) cut
    /\ forall rest, strings.TrimRight1 s c <> rest +:+ String c "".
Proof.
  unfold strings.TrimRight1.
  destruct (trim_left_byte_spec c (strings.rev s)) as (cut & E & Hcut & Hrest).
  exists (strings.rev cut). split; [| split].
  - rewrite <- string_rev_app, <- E. symmetry. apply string_rev_rev.
  - apply string_Forall_rev, Hcut.
  - intros rest Eq. apply (f_equal strings.rev) in Eq. rewrite string_rev_rev, string_rev_app in Eq.
    exact (Hrest _ Eq).
Qed.

Lemma TrimRight1_app (s : string) (c : ascii) :
  strings.TrimRight1 (s +:+ String c "") c = strings.TrimRight1 s c.
Proof.
  unfold strings.TrimRight1. rewrite string_rev_app.
  change (strings.rev (String c "")) with (String c "").
  change (String c "" +:+ strings.rev s) with (String c (strings.rev s)).
  cbn [strings.trim_left_byte]. rewrite Ascii.eqb_refl. reflexivity.
Qed.

Section Source.

Context `{!Package}.

(** With a sub-directory, the slashes that end the source do not count:
    the mounted source is the source without them, one ['/'], and the
    sub-directory after substitution; a source with one more ['/'] at its
    end is mounted as the same path.  Without a sub-directory the source is
    mounted as it is, slashes included. *)
Theorem stage_source_ignores_trailing_slashes (source subDir : string)
    (subDirReplaceMap : gomap) :
  (subDir <> "" ->
   stageSource (source +:+ "/") subDir subDirReplaceMap
   = stageSource source subDir subDirReplaceMap
   /\ exists base slashes,
        source = base +:+ slashes
        /\ strings.Forall (fun c => c = "/"%char) slashes
        /\ (forall rest, base <> rest +:+ "/")
        /\ stageSource source subDir subDirReplaceMap
           = base +:+ "/" +:+ replaceWithMap subDir subDirReplaceMap)
  /\ stageSource source "" subDirReplaceMap = source.
Proof.
  split; [| reflexivity].
  intros Hsub. unfold stageSource. rewrite (eqb_nonempty _ Hsub). cbn [negb].
  split; [rewrite TrimRight1_app; reflexivity |].
  destruct (TrimRight1_spec source "/") as (cut & E & Hcut & Hend).
  exists (strings.TrimRight1 source "/"), cut. repeat split; assumption.
Qed.

End Source.

(** ** The order of a map *)

Lemma NoDup_permuted {A} (l l' : list A) : l ≡ₚ l' -> NoDup l -> NoDup l'.
Proof. intros Hp Hn. rewrite <- Hp. exact Hn. Qed.

Lemma fold_left_related {A B} (R : relation A) (f : A -> B -> A) (l : list B) :
  (forall a a' x, R a a' -> R (f a x) (f a' x)) ->
  forall a a', R a a' -> R (fold_left f l a) (fold_left f l a').
Proof.
  intros Hf. induction l as [| x l IH]; intros a a' Ha; [exact Ha |].
  cbn [fold_left]. apply IH, Hf, Ha.
Qed.

(** A loop over a map whose turns commute, for different keys, gives the
    same result in whatever order the map is read. *)
Lemma fold_left_any_order {A B} (R : relation A) (key : B -> string) (f : A -> B -> A)
    (l l' : list B) :
  Symmetric R -> Transitive R ->
  (forall a a' x, R a a' -> R (f a x) (f a' x)) ->
  (forall a a' x y, R a a' -> key x <> key y -> R (f (f a x) y) (f (f a' y) x)) ->
  NoDup (map key l) -> l ≡ₚ l' ->
  forall a a', R a a' -> R (fold_left f l a) (fold_left f l' a').
Proof.
  intros Hsym Htrans Hf Hcomm Hnodup Hperm.
  induction Hperm as [| x l l' Hperm IH | x y l | l l' l'' Hperm1 IH1 Hperm2 IH2];
    intros a a' Ha.
  - exact Ha.
  - cbn [fold_left]. apply IH; [| apply Hf, Ha].
    cbn [map] in Hnodup. apply NoDup_cons in Hnodup as [_ Hnodup]. exact Hnodup.
  - cbn [fold_left]. apply (fold_left_related R f l Hf).
    apply Hcomm; [exact Ha |].
    cbn [map] in Hnodup. apply NoDup_cons in Hnodup as [Hnotin _].
    intros E. apply Hnotin. rewrite E. constructor.
  - apply (Htrans _ (fold_left f l' a')).
    + apply IH1; assumption.
    + apply IH2; [| apply (Htrans _ a); [apply Hsym, Ha | exact Ha]].
      eapply NoDup_permuted; [| exact Hnodup]. apply Permutation_map, Hperm1.
Qed.

Lemma map_store_perm (k v : string) (m : gomap) :
  NoDup (map fst m) ->
  map_store k v m ≡ₚ (k, v) :: List.filter (fun kv => negb (String.eqb (fst kv) k)) m.
Proof.
  induction m as [| [k' v'] m IH]; intros Hnodup; [reflexivity |].
  cbn [map fst] in Hnodup. apply NoDup_cons in Hnodup as [Hnotin Hnodup].
  cbn [map_store List.filter fst]. destruct (String.eqb_spec k' k) as [-> | Hne]; cbn [negb].
  - apply Permutation_cons; [reflexivity |].
    clear IH. induction m as [| [k'' v''] m IH]; [reflexivity |].
    cbn [List.filter fst]. cbn [map fst] in Hnotin, Hnodup.
    apply NoDup_cons in Hnodup as [_ Hnodup].
    destruct (String.eqb_spec k'' k) as [-> | _]; cbn [negb].
    + exfalso. apply Hnotin. constructor.
    + apply Permutation_cons; [reflexivity |]. apply IH; [| exact Hnodup].
      intros Hin. apply Hnotin. constructor. exact Hin.
  - rewrite (IH Hnodup). apply perm_swap.
Qed.

Lemma gomap_filter_keys (k : string) (m : gomap) :
  map fst (List.filter (fun kv => negb (String.eqb (fst kv) k)) m)
  = List.filter (fun k' => negb (String.eqb k' k)) (map fst m).
Proof.
  induction m as [| [k' v'] m IH]; [reflexivity |].
  cbn [List.filter map fst]. destruct (negb (String.eqb k' k)); cbn [map fst]; rewrite IH; reflexivity.
Qed.

Lemma map_store_NoDup (k v : string) (m : gomap) :
  NoDup (map fst m) -> NoDup (map fst (map_store k v m)).
Proof.
  intros Hnodup.
  eapply NoDup_permuted; [symmetry; apply Permutation_map, map_store_perm, Hnodup |].
  cbn [map fst]. rewrite gomap_filter_keys. apply NoDup_cons. split.
  - intros Hin%list_elem_of_In%List.filter_In. destruct Hin as [_ Hin].
    rewrite String.eqb_refl in Hin. discriminate Hin.
  - apply NoDup_ListNoDup, List.NoDup_filter, NoDup_ListNoDup, Hnodup.
Qed.

Lemma gomap_filter_perm (k : string) (m m' : gomap) :
  m ≡ₚ m' ->
  List.filter (fun kv => negb (String.eqb (fst kv) k)) m
  ≡ₚ List.filter (fun kv => negb (String.eqb (fst kv) k)) m'.
Proof.
  induction 1 as [| x l l' _ IH | x y l | l l' l'' _ IH1 _ IH2]; cbn [List.filter].
  - reflexivity.
  - destruct (negb _); [apply Permutation_cons; [reflexivity | exact IH] | exact IH].
  - destruct (negb (String.eqb (fst x) k)), (negb (String.eqb (fst y) k));
      first [apply perm_swap | reflexivity].
  - etrans; eassumption.
Qed.

Lemma map_store_related (k v : string) (m m' : gomap) :
  NoDup (map fst m) -> m ≡ₚ m' -> map_store k v m ≡ₚ map_store k v m'.
Proof.
  intros Hnodup Hperm.
  rewrite (map_store_perm k v m Hnodup).
  rewrite (map_store_perm k v m')
    by (eapply NoDup_permuted; [apply Permutation_map, Hperm | exact Hnodup]).
  apply Permutation_cons; [reflexivity | apply gomap_filter_perm, Hperm].
Qed.

Lemma map_store_comm (k v k' v' : string) (m m' : gomap) :
  k <> k' -> NoDup (map fst m) -> m ≡ₚ m' ->
  map_store k' v' (map_store k v m) ≡ₚ map_store k v (map_store k' v' m').
Proof.
  intros Hne Hnodup Hperm.
  assert (Hnodup' : NoDup (map fst m'))
    by (eapply NoDup_permuted; [apply Permutation_map, Hperm | exact Hnodup]).
  rewrite (map_store_perm k' v' _ (map_store_NoDup k v m Hnodup)).
  rewrite (map_store_perm k v _ (map_store_NoDup k' v' m' Hnodup')).
  rewrite (gomap_filter_perm k' _ _ (map_store_perm k v m Hnodup)).
  rewrite (gomap_filter_perm k _ _ (map_store_perm k' v' m' Hnodup')).
  cbn [List.filter fst].
  destruct (String.eqb_spec k k') as [E | _]; [contradiction |].
  destruct (String.eqb_spec k' k) as [E | _]; [congruence |]. cbn [negb].
  rewrite perm_swap. do 2 (apply Permutation_cons; [reflexivity |]).
  etrans; [apply gomap_filter_perm, gomap_filter_perm, Hperm |].
  clear. induction m' as [| [k0 v0] m' IH]; [reflexivity |].
  cbn [List.filter fst].
  destruct (String.eqb k0 k) eqn:E1, (String.eqb k0 k') eqn:E2; cbn [negb List.filter fst];
    rewrite ?E1, ?E2; cbn [negb]; rewrite ?IH; reflexivity.
Qed.

Section Order.

Context `{!Runtime} `{!Package}.

(** The loops of stage over the secrets and over the volume context read
    a Go map, in an order that the language does not fix.  When no two
    keys of the map are equal up to the case of their letters, the order
    does not matter: the credentials, the source and the sub-directory come
    out the same, and so does the replacement map (as a map; its
    placeholders are three different strings). *)
Theorem stage_reads_its_maps_in_any_order (secrets secrets' context context' : gomap) :
  NoDup (map (fun kv => ToLower (fst kv)) secrets) ->
  secrets ≡ₚ secrets' ->
  NoDup (map (fun kv => ToLower (fst kv)) context) ->
  context ≡ₚ context' ->
  pvcNamespaceMetadata <> pvcNameMetadata ->
  pvcNamespaceMetadata <> pvNameMetadata ->
  pvcNameMetadata <> pvNameMetadata ->
  stageSecrets secrets' = stageSecrets secrets
  /\ fst (stageContext context') = fst (stageContext context)
  /\ snd (stageContext context') ≡ₚ snd (stageContext context).
Proof.
  intros Hs Hsperm Hc Hcperm Hp1 Hp2 Hp3. split.
  - symmetry. unfold stageSecrets.
    apply (fold_left_any_order eq (fun kv => ToLower (fst kv)) stageSecretsStep secrets secrets');
      try assumption; try reflexivity.
    + intros a a' Ha. symmetry. exact Ha.
    + intros a b c Hab Hbc. congruence.
    + intros a a' x ->. reflexivity.
    + intros [[username password] domain] a' [k1 v1] [k2 v2] <- Hne. cbn [fst] in Hne.
      unfold stageSecretsStep.
      repeat match goal with
      | |- context [String.eqb ?a ?b] => destruct (String.eqb_spec a b)
      end; try reflexivity; congruence.
  - set (R := fun a a' : string * string * gomap =>
                fst a = fst a' /\ NoDup (map fst (snd a)) /\ snd a ≡ₚ snd a').
    assert (HR : R (stageContext context) (stageContext context')).
    { unfold stageContext.
      apply (fold_left_any_order R (fun kv => ToLower (fst kv)) stageContextStep context context');
        try assumption.
      - intros a a' (E & Hn & Hp). split; [congruence |]. split; [| symmetry; exact Hp].
        eapply NoDup_permuted; [apply Permutation_map, Hp | exact Hn].
      - intros a b c (E1 & Hn1 & Hp1') (E2 & Hn2 & Hp2'). split; [congruence |].
        split; [exact Hn1 | etrans; eassumption].
      - intros [[s d] m] [[s' d'] m'] [k v] (E & Hn & Hp). cbn [fst snd] in E, Hn, Hp.
        injection E as <- <-. unfold stageContextStep.
        repeat match goal with
        | |- context [String.eqb ?a ?b] => destruct (String.eqb_spec a b)
        end; (split; [reflexivity |]); cbn [snd];
          (split; [first [exact Hn | apply map_store_NoDup, Hn]
                  | first [exact Hp | apply map_store_related; assumption]]).
      - intros [[s d] m] [[s' d'] m'] [k1 v1] [k2 v2] (E & Hn & Hp) Hne.
        cbn [fst snd] in E, Hn, Hp, Hne. injection E as <- <-. unfold stageContextStep.
        repeat match goal with
        | |- context [String.eqb ?a ?b] => destruct (String.eqb_spec a b)
        end; try congruence; (split; [reflexivity |]); cbn [snd];
          (split; [repeat apply map_store_NoDup; exact Hn |]);
          first [ exact Hp
                | apply map_store_related; assumption
                | apply map_store_comm; solve [assumption | congruence] ].
      - split; [reflexivity |]. split; [constructor | reflexivity]. }
    destruct HR as (E & _ & Hp). split; [symmetry; exact E | symmetry; exact Hp].
Qed.

End Order.

(** ** The handlers on every host: validation, locks, mounts and the cache *)

Lemma length_eqb_0 (s : string) : (String.length s =? 0)%nat = true <-> s = "".
Proof. destruct s; cbn; split; intros E; first [reflexivity | discriminate E]. Qed.

Lemma length_eqb_0_false (s : string) : (String.length s =? 0)%nat = false <-> s <> "".
Proof. destruct s; cbn; split; intros E; first [reflexivity | discriminate | congruence]. Qed.

Lemma is_nil_cap_true (cap : option VolumeCapability) : is_nil_cap cap = true <-> cap = None.
Proof. destruct cap; cbn; split; congruence. Qed.

Lemma removed_app (l1 l2 : list Event) : removed (l1 ++ l2) = removed l1 ++ removed l2.
Proof. unfold removed. apply omap_app. Qed.

Lemma of_kind_app (k : kind) (l1 l2 : list Event) :
  of_kind k (l1 ++ l2) = of_kind k l1 ++ of_kind k l2.
Proof. apply List.filter_app. Qed.

Section Handlers.

Context {W : Type} `{!Host W} `{!Runtime} `{!Package}.

Lemma mounts_call {X} (c : Call X) (w : W) :
  mounts (trace (call c w)) = if mount_call c then [Ev c (value (call c w))] else [].
Proof. unfold mounts, call. cbn. unfold is_mount. cbn. destruct (mount_call c); reflexivity. Qed.

Lemma avoids_ret {A} (k : kind) (a : A) : avoids k (mret a : M W A).
Proof. intros w. reflexivity. Qed.

Lemma avoids_bind {A B} (k : kind) (m : M W A) (f : A -> M W B) :
  avoids k m -> (forall a, avoids k (f a)) -> avoids k (m ≫= f).
Proof.
  intros Hm Hf w. unfold mbind, M_bind, bind. cbn [trace].
  rewrite of_kind_app, Hm, Hf. reflexivity.
Qed.

Lemma avoids_call {X} (k : kind) (c : Call X) : k X c = false -> avoids k (call c).
Proof. intros Hc w. unfold call, of_kind. cbn. rewrite Hc. reflexivity. Qed.

Ltac avoid_step :=
  match goal with
  | |- avoids _ (mret _) => apply avoids_ret
  | |- avoids _ (call _) => apply avoids_call; reflexivity
  | |- avoids _ (_ ≫= _) => apply avoids_bind; [| intros ?]
  | |- avoids _ (if ?b then _ else _) => destruct b
  | |- avoids _ (match ?x with _ => _ end) => destruct x
  | |- avoids _ (let (_, _) := ?x in _) => destruct x
  | H : avoids ?k ?m |- avoids ?k ?m => exact H
  | H : context [avoids ?k _] |- avoids ?k _ => apply H
  end.

Ltac avoid_tac := repeat avoid_step.

Lemma avoids_ensureMountPoint (k : kind) (target : string) :
  k _ (IsLikelyNotMountPoint target) = false ->
  k _ (IsCorruptedDir target) = false ->
  k _ MounterList = false ->
  k _ (Abs target) = false ->
  k _ (ReadDir target) = false ->
  k _ (Unmount target) = false ->
  k _ (MkdirAll target 493) = false ->
  avoids k (ensureMountPoint target).
Proof.
  intros H1 H2 H3 H4 H5 H6 H7.
  unfold ensureMountPoint, probePrimary, probeMountList, probeFinish, makeDir.
  repeat first
    [ apply avoids_ret
    | apply avoids_call; assumption
    | apply avoids_bind; [| intros ?]
    | match goal with
      | |- avoids _ (if ?b then _ else _) => destruct b
      | |- avoids _ (match ?x with _ => _ end) => destruct x
      | |- avoids _ (let (_, _) := ?x in _) => destruct x
      end ].
Qed.

Ltac branch :=
  match goal with
  | |- context [if ?b then _ else _] => destruct b eqn:?
  | |- context [match value ?o with _ => _ end] => destruct (value o) eqn:?
  | |- context [match ?x with Some _ => _ | None => _ end] => destruct x eqn:?
  | |- context [match ?x with inl _ => _ | inr _ => _ end] => destruct x eqn:?
  | |- context [let (_, _) := ?x in _] => destruct x eqn:?
  end.

Ltac branches := repeat first [progress run_bind | branch].

(** A publish request is refused as invalid exactly when the capability,
    the volume id, the target path or the staging path is missing; it is
    refused before the host is touched. *)
Theorem publish_rejects_incomplete_request (req : NodePublishVolumeRequest) (w : W) :
  let o := NodePublishVolume req w in
  (status_Code (value o) = InvalidArgument
   <-> pub_VolumeCapability req = None \/ pub_VolumeId req = ""
       \/ pub_TargetPath req = "" \/ pub_StagingTargetPath req = "")
  /\ (status_Code (value o) = InvalidArgument -> trace o = [] /\ world o = w).
Proof.
  intros o. subst o. unfold NodePublishVolume.
  destruct (is_nil_cap (pub_VolumeCapability req)) eqn:Hcap;
    [apply is_nil_cap_true in Hcap; cbn; tauto |].
  destruct (String.length (pub_VolumeId req) =? 0)%nat eqn:Hid;
    [apply length_eqb_0 in Hid; cbn; tauto |].
  destruct (String.length (pub_TargetPath req) =? 0)%nat eqn:Htarget;
    [apply length_eqb_0 in Htarget; cbn; tauto |].
  destruct (String.length (pub_StagingTargetPath req) =? 0)%nat eqn:Hstaging;
    [apply length_eqb_0 in Hstaging; cbn; tauto |].
  apply length_eqb_0_false in Hid, Htarget, Hstaging.
  assert (Hc : pub_VolumeCapability req <> None)
    by (intros E; apply is_nil_cap_true in E; congruence).
  match goal with
  | |- context [status_Code (value ?o)] =>
      assert (Hcode : status_Code (value o) <> InvalidArgument)
        by (branches; cbn; discriminate)
  end.
  tauto.
Qed.

(** Publish makes at most one mount, and it is the bind mount of the
    staging path on the target path, read-only when the request says so.
    When publish succeeds, either the probe had found the target mounted
    or that one bind mount succeeded. *)
Theorem publish_bind_mounts_staging_path (req : NodePublishVolumeRequest) (w : W) :
  let o := NodePublishVolume req w in
  let source := pub_StagingTargetPath req in
  let target := pub_TargetPath req in
  let mountOptions := if pub_Readonly req then ["bind"; "ro"] else ["bind"] in
  (mounts (trace o) = []
   \/ exists r, mounts (trace o) = [Ev (MounterMount source target "" mountOptions) r])
  /\ (value o = None ->
      value (ensureMountPoint target w) = (true, None)
      \/ mounts (trace o) = [Ev (MounterMount source target "" mountOptions) None]).
Proof.
  intros o source target mountOptions. subst o. unfold NodePublishVolume.
  destruct (is_nil_cap (pub_VolumeCapability req)); [split; [left; reflexivity | discriminate] |].
  destruct (String.length (pub_VolumeId req) =? 0)%nat; [split; [left; reflexivity | discriminate] |].
  destruct (String.length (pub_TargetPath req) =? 0)%nat; [split; [left; reflexivity | discriminate] |].
  destruct (String.length (pub_StagingTargetPath req) =? 0)%nat;
    [split; [left; reflexivity | discriminate] |].
  fold source target.
  replace (if pub_Readonly req then ["bind"] ++ ["ro"] else ["bind"]) with mountOptions
    by (unfold mountOptions; destruct (pub_Readonly req); reflexivity).
  run_bind. rewrite !mounts_app, (silent_ensureMountPoint target w). cbn [app].
  destruct (value (ensureMountPoint target w)) as [mnt [e |]] eqn:Hprobe; cbn [value world trace];
    [split; [left; reflexivity | discriminate] |].
  destruct mnt; cbn [value world trace]; [split; [left; reflexivity | left; reflexivity] |].
  rewrite !mounts_app.
  destruct (value (call (preparePublishPath target) _)); cbn [value world trace];
    [split; [left; reflexivity | discriminate] |].
  rewrite !mounts_app.
  match goal with
  | |- context [value (call (MounterMount source target "" mountOptions) ?w0)] =>
      destruct (value (call (MounterMount source target "" mountOptions) w0)) as [e |] eqn:Hm
  end; cbn [value world trace].
  - rewrite !mounts_call. cbn [mount_call app]. rewrite Hm.
    split; [right; exists (Some e) |].
    + destruct (value (call (Remove target) _)); reflexivity.
    + destruct (value (call (Remove target) _)); discriminate.
  - rewrite !mounts_call. cbn [mount_call app]. rewrite Hm.
    split; [right; exists None | intros _; right]; reflexivity.
Qed.

Lemma avoids_stagePoll (k : kind) (volumeID source targetPath : string)
    (mountOptions sensitiveMountOptions : list string) :
  k _ (SMBMount source targetPath "cifs" mountOptions sensitiveMountOptions) = false ->
  avoids k (stagePoll volumeID source targetPath mountOptions sensitiveMountOptions).
Proof.
  intros Hk w. rewrite (proj1 (stagePoll_run _ _ _ _ _ _)). apply avoids_call, Hk.
Qed.

Lemma avoids_forEach {A} (k : kind) (f : A -> M W unit) (l : list A) :
  (forall a, avoids k (f a)) -> avoids k (forEach f l).
Proof.
  intros Hf. induction l as [| a l IH]; cbn [forEach]; [apply avoids_ret |].
  apply avoids_bind; [apply Hf | intros _; exact IH].
Qed.

Lemma locking_ensureMountPoint (target : string) : avoids locking (ensureMountPoint target).
Proof. apply avoids_ensureMountPoint; reflexivity. Qed.

Lemma locking_ensureKerberosCache (volumeID : string) (mountFlags : list string)
    (secrets : gomap) :
  avoids locking (ensureKerberosCache volumeID mountFlags secrets).
Proof. unfold ensureKerberosCache, kerberosCacheDirectoryExists. avoid_tac. Qed.

Lemma locking_stageOptions (volumeID targetPath : string) (mountFlags : list string)
    (volumeMountGroup : string) (secrets : gomap) (gidPresent : bool) :
  avoids locking (stageOptions volumeID targetPath mountFlags volumeMountGroup secrets gidPresent).
Proof.
  unfold stageOptions.
  pose proof (locking_ensureKerberosCache volumeID mountFlags secrets).
  avoid_tac.
Qed.

Lemma locking_stageMount (volumeID targetPath source subDir : string) (subDirReplaceMap : gomap)
    (mountOptions sensitiveMountOptions : list string) :
  avoids locking (stageMount volumeID targetPath source subDir subDirReplaceMap
                    mountOptions sensitiveMountOptions).
Proof.
  unfold stageMount.
  pose proof (locking_ensureMountPoint targetPath).
  assert (forall src, avoids locking
            (stagePoll volumeID src targetPath mountOptions sensitiveMountOptions))
    by (intros src; apply avoids_stagePoll; reflexivity).
  avoid_tac.
Qed.

Lemma locking_deleteKerberosCache (volumeID : string) :
  avoids locking (deleteKerberosCache volumeID).
Proof.
  unfold deleteKerberosCache, kerberosCacheDirectoryExists.
  assert (forall p l, avoids locking (forEach (removeSymlinkTo p) l)).
  { intros p l. apply avoids_forEach. intros a. unfold removeSymlinkTo. avoid_tac. }
  avoid_tac.
Qed.

Lemma trace_Release (volumeID : string) (w : W) :
  trace (call (Release volumeID) w) = [Ev (Release volumeID) tt].
Proof. unfold call. cbn [trace]. destruct (fst (handle unit (Release volumeID) w)). reflexivity. Qed.

(** A stage request that is accepted: the lock, the options, the probe and
    the mount, and the release of the lock *)
Lemma NodeStageVolume_accepted (req : NodeStageVolumeRequest) (w : W)
    (source subDir : string) (subDirReplaceMap : gomap) :
  stage_VolumeId req <> "" ->
  stage_VolumeCapability req <> None ->
  stage_StagingTargetPath req <> "" ->
  stageContext (stage_VolumeContext req) = (source, subDir, subDirReplaceMap) ->
  source <> "" ->
  let volumeID := stage_VolumeId req in
  let targetPath := stage_StagingTargetPath req in
  let mountFlags := GetMountFlags (GetMount (stage_VolumeCapability req)) in
  let locked := call (TryAcquire volumeID) w in
  let prepared :=
    stageOptions volumeID targetPath mountFlags
      (GetVolumeMountGroup (GetMount (stage_VolumeCapability req)))
      (stage_Secrets req) (checkGidPresentInMountFlags mountFlags) (world locked) in
  let finished :=
    match value prepared with
    | inl e => mkOutcome (Some e) (world prepared) []
    | inr (mountOptions, sensitiveMountOptions) =>
        stageMount volumeID targetPath source subDir subDirReplaceMap
          mountOptions sensitiveMountOptions (world prepared)
    end in
  NodeStageVolume req w
  = if value locked
    then mkOutcome (value finished) (world (call (Release volumeID) (world finished)))
           (trace locked ++ (trace prepared ++ trace finished) ++ [Ev (Release volumeID) tt])
    else mkOutcome (Some (status_Error Aborted (volumeOperationAlreadyExists volumeID)))
           (world locked) (trace locked).
Proof.
  intros Hid Hcap Htarget Hctx Hsource volumeID targetPath mountFlags locked prepared finished.
  subst finished. unfold NodeStageVolume.
  rewrite (length_nonempty _ Hid), (is_nil_cap_some _ Hcap), (length_nonempty _ Htarget), Hctx,
    (eqb_nonempty _ Hsource).
  fold volumeID targetPath mountFlags. run_bind. fold locked.
  destruct (value locked); cbn [negb value world trace]; [| rewrite app_nil_r; reflexivity].
  fold prepared. rewrite app_nil_r.
  destruct (value prepared) as [e | [mo smo]]; cbn [value world trace];
    rewrite trace_Release; reflexivity.
Qed.

Lemma NodeStageVolume_accepted_code (req : NodeStageVolumeRequest) (w : W) :
  stage_VolumeId req <> "" ->
  stage_VolumeCapability req <> None ->
  stage_StagingTargetPath req <> "" ->
  fst (fst (stageContext (stage_VolumeContext req))) <> "" ->
  let o := NodeStageVolume req w in
  In (status_Code (value o)) [OK; Aborted; Internal; Unknown]
  /\ (status_Code (value o) = Aborted <-> value (call (TryAcquire (stage_VolumeId req)) w) = false).
Proof.
  intros Hid Hcap Htarget Hsource o. subst o.
  destruct (stageContext (stage_VolumeContext req)) as [[source subDir] rmap] eqn:Hctx.
  cbn [fst] in Hsource.
  rewrite (NodeStageVolume_accepted req w source subDir rmap Hid Hcap Htarget Hctx Hsource).
  cbv zeta.
  destruct (value (call (TryAcquire (stage_VolumeId req)) w)); cbn [value];
    [| split; [cbn; tauto | split; reflexivity]].
  match goal with
  | |- context [value (stageOptions ?a ?b ?c ?d ?e ?f ?w0)] =>
      pose proof (stageOptions_error a b c d e f w0) as Herr;
      destruct (value (stageOptions a b c d e f w0)) as [e0 | [mo smo]]
  end; cbn [value].
  - unfold status_Code. rewrite (Herr e0 eq_refl). split; [cbn; tauto | split; discriminate].
  - match goal with
    | |- context [stageMount ?a ?b ?c ?d ?e ?f ?g ?w0] =>
        destruct (stageMount_codes a b c d e f g w0) as [Hin | [e1 Hprep]]
    end.
    + cbn [In] in Hin. destruct Hin as [<- | [<- | []]]; (split; [cbn; tauto | split; discriminate]).
    + rewrite Hprep. split; [cbn; tauto | split; discriminate].
Qed.

(** A stage request is refused as invalid exactly when the volume id, the
    capability or the staging path is missing or the context names no
    source; it is refused before the lock is taken and before the host is
    touched. *)
Theorem stage_rejects_incomplete_request (req : NodeStageVolumeRequest) (w : W) :
  let o := NodeStageVolume req w in
  let source := fst (fst (stageContext (stage_VolumeContext req))) in
  (status_Code (value o) = InvalidArgument
   <-> stage_VolumeId req = "" \/ stage_VolumeCapability req = None
       \/ stage_StagingTargetPath req = "" \/ source = "")
  /\ (status_Code (value o) = InvalidArgument -> trace o = [] /\ world o = w).
Proof.
  intros o source.
  destruct (decide (stage_VolumeId req = "")) as [Hid | Hid].
  { subst o. unfold NodeStageVolume. rewrite Hid. cbn. tauto. }
  destruct (decide (stage_VolumeCapability req = None)) as [Hcap | Hcap].
  { subst o. unfold NodeStageVolume. rewrite (length_nonempty _ Hid), Hcap. cbn. tauto. }
  destruct (decide (stage_StagingTargetPath req = "")) as [Htarget | Htarget].
  { subst o. unfold NodeStageVolume.
    rewrite (length_nonempty _ Hid), (is_nil_cap_some _ Hcap), Htarget. cbn. tauto. }
  destruct (decide (source = "")) as [Hsource | Hsource].
  { subst o source. unfold NodeStageVolume.
    rewrite (length_nonempty _ Hid), (is_nil_cap_some _ Hcap), (length_nonempty _ Htarget).
    destruct (stageContext (stage_VolumeContext req)) as [[src subDir] rmap].
    cbn [fst] in Hsource. rewrite Hsource. cbn. tauto. }
  destruct (NodeStageVolume_accepted_code req w Hid Hcap Htarget Hsource) as [Hin _].
  fold o in Hin.
  assert (Hcode : status_Code (value o) <> InvalidArgument).
  { intros E. rewrite E in Hin. cbn in Hin. intuition discriminate. }
  tauto.
Qed.

(** Stage works under the lock of the volume.  When the lock is not free,
    stage answers Aborted and does nothing else.  When the lock is taken,
    it is released by the last call of the handler, on the paths that fail
    as on the one that succeeds, and the lock table is not touched in
    between. *)
Theorem stage_releases_the_volume_lock (req : NodeStageVolumeRequest) (w : W) :
  stage_VolumeId req <> "" ->
  stage_VolumeCapability req <> None ->
  stage_StagingTargetPath req <> "" ->
  fst (fst (stageContext (stage_VolumeContext req))) <> "" ->
  let o := NodeStageVolume req w in
  let volumeID := stage_VolumeId req in
  let locked := call (TryAcquire volumeID) w in
  (status_Code (value o) = Aborted <-> value locked = false)
  /\ if value locked
     then exists body,
            trace o = trace locked ++ body ++ [Ev (Release volumeID) tt]
            /\ of_kind locking body = []
     else value o = Some (status_Error Aborted (volumeOperationAlreadyExists volumeID))
          /\ trace o = trace locked /\ world o = world locked.
Proof.
  intros Hid Hcap Htarget Hsource o volumeID locked.
  split; [exact (proj2 (NodeStageVolume_accepted_code req w Hid Hcap Htarget Hsource)) |].
  destruct (stageContext (stage_VolumeContext req)) as [[source subDir] rmap] eqn:Hctx.
  cbn [fst] in Hsource. subst o.
  rewrite (NodeStageVolume_accepted req w source subDir rmap Hid Hcap Htarget Hctx Hsource).
  cbv zeta. fold volumeID locked.
  destruct (value locked); cbn [value world trace]; [| repeat split].
  eexists. split; [reflexivity |].
  rewrite of_kind_app, locking_stageOptions. cbn [app].
  destruct (value (stageOptions _ _ _ _ _ _ _)) as [e | [mo smo]]; [reflexivity |].
  apply locking_stageMount.
Qed.

(** Unstage works under the lock of the volume: it unmounts the staging
    path, then deletes the credential cache of the volume, and releases
    the lock by its last call.  When the unmount fails the cache is left
    alone.  When the lock is not free, unstage answers Aborted and does
    nothing else. *)
Theorem unstage_unmounts_then_clears_cache (req : NodeUnstageVolumeRequest) (w : W) :
  unstage_VolumeId req <> "" ->
  unstage_StagingTargetPath req <> "" ->
  let volumeID := unstage_VolumeId req in
  let stagingTargetPath := unstage_StagingTargetPath req in
  let locked := call (TryAcquire volumeID) w in
  let cleaned := call (CleanupSMBMountPoint stagingTargetPath true) (world locked) in
  let deleted := deleteKerberosCache volumeID (world cleaned) in
  let o := NodeUnstageVolume req w in
  if value locked then
    match value cleaned with
    | Some e =>
        value o = Some (status_Error Internal
                    ("failed to unmount staging target " +:+ Quote stagingTargetPath +:+ ": "
                       +:+ Error e))
        /\ trace o = trace locked ++ trace cleaned ++ [Ev (Release volumeID) tt]
    | None =>
        value o = match value deleted with
                  | Some e =>
                      Some (status_Error Internal
                        ("failed to delete kerberos cache: " +:+ Error e))
                  | None => None
                  end
        /\ trace o = trace locked ++ trace cleaned ++ trace deleted ++ [Ev (Release volumeID) tt]
        /\ of_kind locking (trace deleted) = []
    end
  else
    value o = Some (status_Error Aborted (volumeOperationAlreadyExists volumeID))
    /\ trace o = trace locked /\ world o = world locked.
Proof.
  intros Hid Hpath volumeID stagingTargetPath locked cleaned deleted o. subst o.
  unfold NodeUnstageVolume.
  rewrite (length_nonempty _ Hid), (length_nonempty _ Hpath).
  fold volumeID stagingTargetPath. run_bind. fold locked.
  destruct (value locked); cbn [negb value world trace]; [| rewrite app_nil_r; repeat split].
  fold cleaned. rewrite app_nil_r.
  destruct (value cleaned) as [e |]; cbn [value world trace].
  - rewrite trace_Release. split; [reflexivity |]. rewrite app_nil_r. reflexivity.
  - fold deleted. rewrite trace_Release.
    split; [destruct (value deleted); reflexivity |].
    split; [| apply locking_deleteKerberosCache].
    destruct (value deleted); cbn [trace]; rewrite app_nil_r, <- !app_assoc; reflexivity.
Qed.

(** The options that [stageOptions] works out, when it does *)
Lemma stageOptions_inr (volumeID targetPath : string) (mountFlags : list string)
    (volumeMountGroup : string) (secrets : gomap) (gidPresent : bool) (w : W)
    (mountOptions sensitiveMountOptions : list string) :
  value (stageOptions volumeID targetPath mountFlags volumeMountGroup secrets gidPresent w)
    = inr (mountOptions, sensitiveMountOptions) ->
  let '(username, password, domain) := stageSecrets secrets in
  if String.eqb GOOS "windows" then
    hasGuestMountOptions mountFlags = true -> mountOptions = [] /\ sensitiveMountOptions = []
  else
    mountOptions
      = mountFlags
          ++ (if negb gidPresent && negb (String.eqb volumeMountGroup "")
              then ["gid=" +:+ volumeMountGroup] else [])
          ++ (if negb (String.eqb domain "") then [domainField +:+ "=" +:+ domain] else [])
    /\ (hasGuestMountOptions mountFlags = true \/ hasKerberosMountOption mountFlags = true ->
        sensitiveMountOptions = []).
Proof.
  unfold stageOptions. intros Hv.
  destruct (stageSecrets secrets) as [[username password] domain].
  destruct (String.eqb GOOS "windows").
  - intros Hguest. rewrite Hguest in Hv. cbn [negb] in Hv. injection Hv as <- <-. split; reflexivity.
  - revert Hv. run_bind.
    pose proof (ensureKerberosCache_used volumeID mountFlags secrets w) as Hused.
    cbv zeta in Hused.
    destruct (value (ensureKerberosCache volumeID mountFlags secrets w))
      as [useKerberosCache [e |]]; cbn [value world trace]; [discriminate |].
    cbn [fst snd] in Hused. rewrite (Hused eq_refl).
    run_bind.
    match goal with
    | |- context [match value (call ?c ?w0) with _ => _ end] =>
        destruct (value (call c w0)); cbn [value world trace]; [discriminate |]
    end.
    intros [= <- <-]. split.
    + destruct (negb gidPresent && negb (String.eqb volumeMountGroup ""));
        destruct (negb (String.eqb domain "")); cbn [app]; rewrite ?app_nil_r, <- ?app_assoc;
        reflexivity.
    + intros [-> | ->]; cbn [negb andb]; [reflexivity | rewrite andb_false_r; reflexivity].
Qed.

(** Every network mount of a stage call is a [cifs] mount on the staging
    path; when the context gives no sub-directory, the source is mounted
    as the context gives it. *)
Theorem stage_mounts_cifs_on_staging_path (req : NodeStageVolumeRequest) (w : W)
    (mounted target fsType : string) (mountOptions sensitiveMountOptions : list string) :
  In (mounted, target, fsType, mountOptions, sensitiveMountOptions)
     (smb_mounts (trace (NodeStageVolume req w))) ->
  let '(source, subDir, _) := stageContext (stage_VolumeContext req) in
  target = stage_StagingTargetPath req
  /\ fsType = "cifs"
  /\ (subDir = "" -> mounted = source).
Proof.
  intros Hin.
  destruct (stageContext (stage_VolumeContext req)) as [[source subDir] rmap] eqn:Hctx.
  destruct (NodeStageVolume_smb_mounts req w source subDir rmap Hctx)
    as [E | (mo & smo & Hv & E)]; rewrite E in Hin; [destruct Hin |].
  destruct Hin as [[= <- <- <- <- <-] | []].
  split; [reflexivity |]. split; [reflexivity |].
  intros ->. reflexivity.
Qed.

(** On a host that is not Windows, the options of every network mount of
    a stage call are the mount flags of the request, in order, followed by
    [gid=<group>] when the request names a volume mount group and no flag
    starts with [gid], followed by [domain=<domain>] when the secrets give
    a domain. *)
Theorem stage_passes_mount_flags (req : NodeStageVolumeRequest) (w : W)
    (mounted target fsType : string) (mountOptions sensitiveMountOptions : list string) :
  String.eqb GOOS "windows" = false ->
  In (mounted, target, fsType, mountOptions, sensitiveMountOptions)
     (smb_mounts (trace (NodeStageVolume req w))) ->
  let mountFlags := GetMountFlags (GetMount (stage_VolumeCapability req)) in
  let volumeMountGroup := GetVolumeMountGroup (GetMount (stage_VolumeCapability req)) in
  let domain := snd (stageSecrets (stage_Secrets req)) in
  mountOptions
    = mountFlags
        ++ (if negb (checkGidPresentInMountFlags mountFlags)
               && negb (String.eqb volumeMountGroup "")
            then ["gid=" +:+ volumeMountGroup] else [])
        ++ (if negb (String.eqb domain "") then [domainField +:+ "=" +:+ domain] else []).
Proof.
  intros Hos Hin mountFlags volumeMountGroup domain.
  destruct (stageContext (stage_VolumeContext req)) as [[source subDir] rmap] eqn:Hctx.
  destruct (NodeStageVolume_smb_mounts req w source subDir rmap Hctx)
    as [E | (mo & smo & Hv & E)]; rewrite E in Hin; [destruct Hin |].
  destruct Hin as [[= <- <- <- <- <-] | []].
  apply stageOptions_inr in Hv. subst domain.
  destruct (stageSecrets (stage_Secrets req)) as [[username password] dom].
  rewrite Hos in Hv. exact (proj1 Hv).
Qed.

(** Stage hands no credentials to the mount in guest mode, and none when
    the flags ask for Kerberos on a host that is not Windows: the sensitive
    options are empty.  On Windows in guest mode the options are empty as
    well. *)
Theorem stage_withholds_credentials (req : NodeStageVolumeRequest) (w : W)
    (mounted target fsType : string) (mountOptions sensitiveMountOptions : list string) :
  let mountFlags := GetMountFlags (GetMount (stage_VolumeCapability req)) in
  hasGuestMountOptions mountFlags = true
  \/ (String.eqb GOOS "windows" = false /\ hasKerberosMountOption mountFlags = true) ->
  In (mounted, target, fsType, mountOptions, sensitiveMountOptions)
     (smb_mounts (trace (NodeStageVolume req w))) ->
  sensitiveMountOptions = []
  /\ (String.eqb GOOS "windows" = true -> mountOptions = []).
Proof.
  intros mountFlags Hmode Hin.
  destruct (stageContext (stage_VolumeContext req)) as [[source subDir] rmap] eqn:Hctx.
  destruct (NodeStageVolume_smb_mounts req w source subDir rmap Hctx)
    as [E | (mo & smo & Hv & E)]; rewrite E in Hin; [destruct Hin |].
  destruct Hin as [[= <- <- <- <- <-] | []].
  apply stageOptions_inr in Hv. fold mountFlags in Hv.
  destruct (stageSecrets (stage_Secrets req)) as [[username password] dom].
  destruct (String.eqb GOOS "windows").
  - destruct Hmode as [Hguest | [Hos _]]; [| discriminate].
    destruct (Hv Hguest) as [-> ->]. split; [reflexivity | intros _; reflexivity].
  - destruct Hv as [_ Hs]. split; [| discriminate].
    apply Hs. tauto.
Qed.

Lemma file_change_ensureMountPoint (target : string) :
  avoids file_change (ensureMountPoint target).
Proof. apply avoids_ensureMountPoint; reflexivity. Qed.

Lemma file_change_stageMount (volumeID targetPath source subDir : string)
    (subDirReplaceMap : gomap) (mountOptions sensitiveMountOptions : list string) :
  avoids file_change (stageMount volumeID targetPath source subDir subDirReplaceMap
                        mountOptions sensitiveMountOptions).
Proof.
  unfold stageMount.
  pose proof (file_change_ensureMountPoint targetPath).
  assert (forall src, avoids file_change
            (stagePoll volumeID src targetPath mountOptions sensitiveMountOptions))
    by (intros src; apply avoids_stagePoll; reflexivity).
  avoid_tac.
Qed.

(** Unless the flags ask for Kerberos on a host that is not Windows, stage
    changes no file: it writes none, changes no owner, makes no symbolic
    link and removes nothing. *)
Theorem stage_without_kerberos_changes_no_file (req : NodeStageVolumeRequest) (w : W) :
  String.eqb GOOS "windows" = true
  \/ hasKerberosMountOption (GetMountFlags (GetMount (stage_VolumeCapability req))) = false ->
  of_kind file_change (trace (NodeStageVolume req w)) = [].
Proof.
  intros Hmode. revert w. change (avoids file_change (NodeStageVolume req)).
  unfold NodeStageVolume.
  pose proof file_change_stageMount as Hmount.
  assert (Hopts : forall volumeID targetPath volumeMountGroup secrets gidPresent,
            avoids file_change
              (stageOptions volumeID targetPath
                 (GetMountFlags (GetMount (stage_VolumeCapability req)))
                 volumeMountGroup secrets gidPresent)).
  { intros. unfold stageOptions, ensureKerberosCache.
    destruct Hmode as [-> | ->]; avoid_tac. }
  avoid_tac.
Qed.

Lemma trace_call {X} (c : Call X) (w : W) : trace (call c w) = [Ev c (value (call c w))].
Proof. reflexivity. Qed.

(** The verdicts of the prober that come without an error.  "Mounted" is
    reported only after the directory has just been listed with success;
    "not mounted" only after the directory has just been made, or was
    found to exist. *)
Theorem ensureMountPoint_verdict (target : string) (w : W) :
  let o := ensureMountPoint target w in
  snd (value o) = None ->
  if fst (value o)
  then exists entries, last (trace o) = Some (Ev (ReadDir target) (entries, None))
  else exists r, last (trace o) = Some (Ev (MkdirAll target 493) r)
                 /\ (r = None \/ os_IsExist r = true).
Proof.
  intros o. subst o. unfold ensureMountPoint, probePrimary, probeMountList, probeFinish, makeDir.
  run_bind.
  repeat match goal with
  | |- context [value (call ?c ?w0)] =>
      let v := fresh "v" in
      rewrite (trace_call c w0);
      destruct (value (call c w0)) eqn:?; cbn [value world trace fst snd is_nil negb andb]
  | |- context [if ?b then _ else _] => destruct b eqn:?; cbn [value world trace fst snd is_nil negb andb]
  | |- context [match ?x with Some _ => _ | None => _ end] => destruct x eqn:?; cbn [value world trace fst snd is_nil negb andb]
  end.
  all: try discriminate.
  all: intros E; try (subst; discriminate).
  all: cbn [app last].
  all: repeat match goal with
       | Hn : is_nil ?x = true |- _ => destruct x; [discriminate Hn |]; clear Hn
       end.
  all: try (eexists; reflexivity).
  all: eexists; (split; [reflexivity |]).
  all: try (left; reflexivity).
  all: right.
  all: match goal with
       | Hm : negb (os_IsExist ?r) = false |- _ => apply negb_false_iff in Hm; exact Hm
       end.
Qed.

(** On a host that is not Windows the prober also reads the mount table: a
    target that the table lists counts as mounted, whatever the first check
    said (a bind mount), and its directory is listed to confirm it.  On
    Windows the table is not read. *)
Theorem ensureMountPoint_consults_mount_table (target : string) (w : W) :
  (String.eqb GOOS "windows" = true ->
   of_kind table_read (trace (ensureMountPoint target w)) = [])
  /\ (String.eqb GOOS "windows" = false ->
      let primary := call (IsLikelyNotMountPoint target) w in
      snd (value primary) = None ->
      let listed := call MounterList (world primary) in
      snd (value listed) = None ->
      let abs := call (Abs target) (world listed) in
      snd (value abs) = None ->
      existsb (fun mountPoint => String.eqb (mp_Path mountPoint) (fst (value abs)))
        (fst (value listed)) = true ->
      let read := call (ReadDir target) (world abs) in
      snd (value read) = None ->
      value (ensureMountPoint target w) = (true, None)
      /\ trace (ensureMountPoint target w)
         = trace primary ++ trace listed ++ trace abs ++ trace read).
Proof.
  split.
  - intros Hos. revert w. change (avoids table_read (ensureMountPoint target)).
    unfold ensureMountPoint, probePrimary, probeMountList, probeFinish, makeDir.
    rewrite Hos. cbn [negb]. avoid_tac.
  - intros Hos primary Hprimary listed Hlisted abs Habs Hfound read Hread.
    unfold ensureMountPoint, probePrimary, probeMountList, probeFinish.
    rewrite Hos. cbn [negb]. run_bind. fold primary.
    destruct (value primary) as [notMnt err]. cbn [snd] in Hprimary. subst err.
    cbn [is_nil negb andb value world trace]. fold listed.
    destruct (value listed) as [mountList err]. cbn [fst snd] in Hlisted, Hfound. subst err.
    cbn [is_nil negb value world trace]. fold abs.
    destruct (value abs) as [targetAbs err]. cbn [fst snd] in Habs, Hfound. subst err.
    cbn [is_nil negb value world trace]. rewrite Hfound. cbn [negb]. fold read.
    destruct (value read) as [entries err]. cbn [snd] in Hread. subst err.
    cbn [is_nil value world trace]. rewrite !app_nil_r, <- !app_assoc. split; reflexivity.
Qed.


(** The only error that [deleteKerberosCache] returns is the one of
    [os.Stat] on the cache file of the volume, when it is not "does not
    exist"; nothing has been removed then.  A failure to list the
    directory, to read a link or to remove an entry is not reported. *)
Theorem deleteKerberosCache_reports_only_stat_error (volumeID : string) (w : W) :
  let volPath := getKerberosFilePath (volumeKerberosCacheName volumeID) in
  let dir := call (Stat krb5CacheDirectory) w in
  let file := call (Stat volPath) (world dir) in
  let o := deleteKerberosCache volumeID w in
  value o = match snd (value dir) with
            | Some _ => None
            | None => if os_IsNotExist (snd (value file)) then None else snd (value file)
            end
  /\ (value o <> None -> trace o = trace dir ++ trace file).
Proof.
  intros volPath dir file o. subst o.
  unfold deleteKerberosCache, kerberosCacheDirectoryExists.
  run_bind. fold dir. destruct (value dir) as [fi [e |]]; cbn [snd].
  - destruct (os_IsNotExist (Some e)); cbn [value world trace negb];
      (split; [reflexivity | congruence]).
  - cbn [value world trace negb is_nil]. fold volPath file.
    destruct (value file) as [fi' err]. cbn [snd].
    destruct (os_IsNotExist err); cbn [value world trace]; [split; [reflexivity | congruence] |].
    destruct err as [e |]; cbn [is_nil negb value world trace].
    + split; [reflexivity |]. intros _. rewrite !app_nil_r. reflexivity.
    + match goal with
      | |- context [value (call (ReadDir ?d) ?w0)] => destruct (value (call (ReadDir d) w0))
      end.
      cbn [value]. split; [reflexivity | congruence].
Qed.

Lemma removed_removeSymlinkTo (volPath name : string) (w : W) (p : string) :
  In p (removed (trace (removeSymlinkTo volPath name w))) ->
  p = getKerberosFilePath name
  /\ exists err, In (Ev (Readlink p) (volPath, err)) (trace (removeSymlinkTo volPath name w)).
Proof.
  unfold removeSymlinkTo. run_bind.
  destruct (value (call (Lstat (getKerberosFilePath name)) w)) as [[fi |] err];
    cbn [value world trace]; [| intros []].
  rewrite !trace_call.
  destruct (value (call (Readlink (getKerberosFilePath name)) _)) as [target err'].
  cbn [value world trace].
  destruct (String.eqb_spec target volPath) as [-> | Hne]; cbn [value world trace];
    [| intros []].
  rewrite !trace_call. cbn [app removed omap list_omap ev_call].
  intros [<- | []]. split; [reflexivity |]. exists err'. right. left. reflexivity.
Qed.

Lemma removed_forEach (volPath : string) (names : list string) (w : W) (p : string) :
  In p (removed (trace (forEach (removeSymlinkTo volPath) names w))) ->
  exists name err,
    In name names /\ p = getKerberosFilePath name
    /\ In (Ev (Readlink p) (volPath, err)) (trace (forEach (removeSymlinkTo volPath) names w)).
Proof.
  revert w. induction names as [| a names IH]; intros w; cbn [forEach]; [intros [] |].
  run_bind. rewrite removed_app. intros [Hin | Hin]%in_app_or.
  - apply removed_removeSymlinkTo in Hin as [-> [err Hin]].
    exists a, err. split; [left; reflexivity |]. split; [reflexivity |].
    apply in_or_app. left. exact Hin.
  - apply IH in Hin as (name & err & Hname & -> & Hin).
    exists name, err. split; [right; exact Hname |]. split; [reflexivity |].
    apply in_or_app. right. exact Hin.
Qed.

(** What [deleteKerberosCache] removes: the cache file of the volume, and
    entries of the cache directory for which [os.Readlink] answered the
    path of that cache file.  It removes nothing else. *)
Theorem deleteKerberosCache_removes_only_links_to_the_cache (volumeID : string) (w : W)
    (p : string) :
  let volPath := getKerberosFilePath (volumeKerberosCacheName volumeID) in
  let o := deleteKerberosCache volumeID w in
  In p (removed (trace o)) ->
  p = volPath
  \/ exists entries listErr name err,
       In (Ev (ReadDir krb5CacheDirectory) (entries, listErr)) (trace o)
       /\ In name entries
       /\ p = getKerberosFilePath name
       /\ In (Ev (Readlink p) (volPath, err)) (trace o).
Proof.
  intros volPath o. subst o. unfold deleteKerberosCache, kerberosCacheDirectoryExists.
  run_bind. rewrite !trace_call.
  destruct (value (call (Stat krb5CacheDirectory) w)) as [fi [e |]]; cbn [value world trace].
  { destruct (os_IsNotExist (Some e)); cbn [value world trace negb]; intros []. }
  cbn [negb is_nil value world trace]. fold volPath. rewrite !trace_call.
  destruct (value (call (Stat volPath) _)) as [fi' err].
  destruct (os_IsNotExist err); cbn [value world trace]; [intros [] |].
  destruct err as [e |]; cbn [is_nil negb value world trace]; [intros [] |].
  rewrite !trace_call.
  match goal with
  | |- context [value (call (ReadDir ?d) ?w0)] =>
      destruct (value (call (ReadDir d) w0)) as [entries listErr]
  end.
  cbn [value world trace].
  rewrite !removed_app. rewrite !trace_call. cbn [removed omap list_omap ev_call app].
  intros [Hin | Hin]%in_app_or.
  - right. apply removed_forEach in Hin as (name & err & Hname & -> & Hin).
    exists entries, listErr, name, err.
    split; [right; right; left; reflexivity |].
    split; [exact Hname |]. split; [reflexivity |].
    right. right. right. apply in_or_app. left. exact Hin.
  - left. destruct Hin as [<- | []]. reflexivity.
Qed.


(** With Kerberos asked for, [ensureKerberosCache] checks before it
    writes: when the cache directory cannot be examined, when the flags
    carry no usable [cruid=], or when the secrets hold no cache that
    decodes for that uid, it fails after the one look at the directory and
    has changed nothing. *)
Theorem ensureKerberosCache_checks_before_writing (volumeID : string)
    (mountFlags : list string) (secrets : gomap) (w : W) :
  hasKerberosMountOption mountFlags = true ->
  let dir := call (Stat krb5CacheDirectory) w in
  let credUID := getCredUID mountFlags in
  let cache := getKerberosCache (fst credUID) secrets in
  snd (value dir) <> None \/ snd credUID <> None \/ snd cache <> None ->
  let o := ensureKerberosCache volumeID mountFlags secrets w in
  fst (value o) = false /\ snd (value o) <> None
  /\ trace o = trace dir /\ world o = world dir.
Proof.
  intros Hkrb dir credUID cache Hbad o. subst o credUID cache.
  unfold ensureKerberosCache, kerberosCacheDirectoryExists. rewrite Hkrb.
  run_bind. fold dir.
  destruct (value dir) as [fi [e |]]; cbn [snd value world trace] in *.
  { destruct (os_IsNotExist (Some e)); cbn [value world trace is_nil negb fst snd];
      rewrite !app_nil_r; repeat split; discriminate. }
  cbn [is_nil negb].
  destruct (getCredUID mountFlags) as [uid [e |]]; cbn [fst snd is_nil negb value world trace] in *.
  { rewrite !app_nil_r. repeat split; discriminate. }
  destruct (getKerberosCache uid secrets) as [[name content] [e |]];
    cbn [fst snd is_nil negb value world trace] in *.
  { rewrite !app_nil_r. repeat split; discriminate. }
  exfalso. destruct Hbad as [Hb | [Hb | Hb]]; apply Hb; reflexivity.
Qed.

(** When [ensureKerberosCache] reports that the cache is in use, this is
    what it did, in this order: it examined the cache directory; it wrote
    the decoded cache of the secrets to the cache file of the volume, with
    mode 0700; it gave the file to the uid of [cruid=], as owner and as
    group; it examined the canonical name [krb5cc_<uid>] and removed it
    unless it did not exist (whether the removal worked or not); and it
    made the canonical name a symbolic link to the cache file. *)
Theorem ensureKerberosCache_success_trace (volumeID : string) (mountFlags : list string)
    (secrets : gomap) (w : W) :
  let o := ensureKerberosCache volumeID mountFlags secrets w in
  fst (value o) = true ->
  let volPath := getKerberosFilePath (volumeKerberosCacheName volumeID) in
  exists credUID content dirInfo canonStat removal,
    let canon := getKerberosFilePath (getKrb5CcacheName credUID) in
    hasKerberosMountOption mountFlags = true
    /\ getCredUID mountFlags = (credUID, None)
    /\ getKerberosCache credUID secrets = (canon, content, None)
    /\ snd (value o) = None
    /\ trace o
       = [Ev (Stat krb5CacheDirectory) (dirInfo, None);
          Ev (WriteFile volPath content 448) None;
          Ev (Chown volPath credUID credUID) None;
          Ev (Stat canon) canonStat]
         ++ removal ++ [Ev (Symlink volPath canon) None]
    /\ (if os_IsNotExist (snd canonStat) then removal = []
        else exists r, removal = [Ev (Remove canon) r]).
Proof.
  intros o. subst o. unfold ensureKerberosCache, kerberosCacheDirectoryExists.
  destruct (hasKerberosMountOption mountFlags); [| discriminate].
  run_bind. rewrite !trace_call.
  destruct (value (call (Stat krb5CacheDirectory) w)) as [dirInfo [e |]].
  { destruct (os_IsNotExist (Some e)); cbn [value world trace]; discriminate. }
  cbn [value world trace is_nil negb].
  destruct (getCredUID mountFlags) as [credUID [e |]]; cbn [is_nil negb value]; [discriminate |].
  destruct (getKerberosCache credUID secrets) as [[name content] [e |]] eqn:Hcache;
    cbn [is_nil negb value]; [discriminate |].
  pose proof (getKerberosCache_name _ _ _ _ Hcache) as ->.
  run_bind. rewrite !trace_call.
  match goal with
  | |- context [value (call (WriteFile ?a ?b ?c) ?w0)] =>
      destruct (value (call (WriteFile a b c) w0)) as [e |]
  end; cbn [value world trace]; [discriminate |].
  rewrite !trace_call.
  match goal with
  | |- context [value (call (Chown ?a ?b ?c) ?w0)] =>
      destruct (value (call (Chown a b c) w0)) as [e |]
  end; cbn [value world trace]; [discriminate |].
  rewrite !trace_call.
  match goal with
  | |- context [value (call (Stat ?a) ?w0)] =>
      destruct (value (call (Stat a) w0)) as [canonInfo canonErr] eqn:Hstat
  end.
  intros Hv.
  exists credUID, content, dirInfo, (canonInfo, canonErr).
  cbv zeta. cbn [snd].
  destruct (os_IsNotExist canonErr) eqn:Hne; cbn [value world trace snd] in Hv |- *.
  - exists []. revert Hv. rewrite !trace_call.
    match goal with
    | |- context [value (call (Symlink ?a ?b) ?w0)] =>
        destruct (value (call (Symlink a b) w0)) as [e |]
    end; cbn [value world trace fst snd]; [discriminate |].
    intros _. repeat split; assumption.
  - revert Hv. rewrite !trace_call.
    match goal with
    | |- context [value (call (Remove ?a) ?w0)] =>
        destruct (value (call (Remove a) w0)) as [removeErr |]
    end.
    all: match goal with
         | |- context [value (call (Symlink ?a ?b) ?w0)] =>
             destruct (value (call (Symlink a b) w0)) as [e |]
         end; cbn [value world trace fst snd]; [discriminate |].
    all: intros _; eexists; repeat split; try assumption; eexists; reflexivity.
Qed.

(** [ensureKerberosCache] changes two paths at most: the cache file of the
    volume and the canonical cache name of the uid of [cruid=]. *)
Theorem ensureKerberosCache_changes_two_paths (volumeID : string) (mountFlags : list string)
    (secrets : gomap) (w : W) (p : string) :
  In p (omap changed_path (trace (ensureKerberosCache volumeID mountFlags secrets w))) ->
  p = getKerberosFilePath (volumeKerberosCacheName volumeID)
  \/ p = getKerberosFilePath (getKrb5CcacheName (fst (getCredUID mountFlags))).
Proof.
  unfold ensureKerberosCache, kerberosCacheDirectoryExists.
  destruct (hasKerberosMountOption mountFlags); [| intros []].
  run_bind. rewrite !trace_call.
  destruct (value (call (Stat krb5CacheDirectory) w)) as [dirInfo [e |]].
  { destruct (os_IsNotExist (Some e)); cbn [value world trace]; intros []. }
  cbn [value world trace is_nil negb].
  destruct (getCredUID mountFlags) as [credUID [e |]]; cbn [is_nil negb value trace fst];
    [intros [] |].
  destruct (getKerberosCache credUID secrets) as [[name content] [e |]] eqn:Hcache;
    cbn [is_nil negb value trace]; [intros [] |].
  pose proof (getKerberosCache_name _ _ _ _ Hcache) as ->.
  run_bind. rewrite !trace_call.
  repeat match goal with
  | |- context [if os_IsNotExist ?x then _ else _] =>
      destruct (os_IsNotExist x); cbn [value world trace]; rewrite ?trace_call
  | |- context [match value (call ?c ?w0) with _ => _ end] =>
      destruct (value (call c w0)); cbn [value world trace]; rewrite ?trace_call
  | |- context [value (call ?c ?w0)] =>
      destruct (value (call c w0)); cbn [value world trace]; rewrite ?trace_call
  end.
  all: cbn [app omap list_omap changed_path ev_call In].
  all: intuition (subst; auto).
Qed.


(** On a host that is not Windows, a failure of the credential cache ends
    the stage call at once: the answer is an internal error that quotes
    the failure (a cache missing from the secrets included), the lock is
    released, and the staging path has been neither made, probed nor
    mounted. *)
Theorem stage_stops_on_cache_failure (req : NodeStageVolumeRequest) (w : W) (e : error) :
  stage_VolumeId req <> "" ->
  stage_VolumeCapability req <> None ->
  stage_StagingTargetPath req <> "" ->
  fst (fst (stageContext (stage_VolumeContext req))) <> "" ->
  String.eqb GOOS "windows" = false ->
  let volumeID := stage_VolumeId req in
  let mountFlags := GetMountFlags (GetMount (stage_VolumeCapability req)) in
  let locked := call (TryAcquire volumeID) w in
  value locked = true ->
  let cached := ensureKerberosCache volumeID mountFlags (stage_Secrets req) (world locked) in
  snd (value cached) = Some e ->
  let o := NodeStageVolume req w in
  value o = Some (status_Error Internal ("Error writing kerberos cache: " +:+ Error e))
  /\ trace o = trace locked ++ trace cached ++ [Ev (Release volumeID) tt].
Proof.
  intros Hid Hcap Htarget Hsource Hos volumeID mountFlags locked Hlocked cached Hcached o.
  subst o.
  destruct (stageContext (stage_VolumeContext req)) as [[source subDir] rmap] eqn:Hctx.
  cbn [fst] in Hsource.
  rewrite (NodeStageVolume_accepted req w source subDir rmap Hid Hcap Htarget Hctx Hsource).
  cbv zeta. fold volumeID mountFlags locked. rewrite Hlocked.
  unfold stageOptions.
  destruct (stageSecrets (stage_Secrets req)) as [[username password] domain].
  rewrite Hos. run_bind. fold cached.
  destruct (value cached) as [useKerberosCache err]. cbn [snd] in Hcached. subst err.
  cbn [value world trace]. rewrite !app_nil_r. split; reflexivity.
Qed.

(** [NodeGetVolumeStats] answers with a response or with an error, never
    with both; it only reads (the one [os.Lstat] and the metrics of the
    path).  A response holds two usages: the bytes available, total and
    used, then the inodes free, total and used, as the metrics give them,
    each of which fits a 64-bit integer. *)
Theorem stats_reports_bytes_and_inodes (req : NodeGetVolumeStatsRequest) (w : W) :
  let o := NodeGetVolumeStats req w in
  (fst (value o) = None <-> snd (value o) <> None)
  /\ of_kind not_stat_read (trace o) = []
  /\ (forall usages,
        fst (value o) = Some usages ->
        exists metrics,
          In (Ev (GetMetrics (stats_VolumePath req)) (metrics, None)) (trace o)
          /\ usages
             = [ {| usage_Unit := VolumeUsage_BYTES;
                    usage_Available := q_value (m_Available metrics);
                    usage_Total := q_value (m_Capacity metrics);
                    usage_Used := q_value (m_Used metrics) |};
                 {| usage_Unit := VolumeUsage_INODES;
                    usage_Available := q_value (m_InodesFree metrics);
                    usage_Total := q_value (m_Inodes metrics);
                    usage_Used := q_value (m_InodesUsed metrics) |} ]
          /\ Forall (fun q => q_fits q = true)
               [m_Available metrics; m_Capacity metrics; m_Used metrics;
                m_InodesFree metrics; m_Inodes metrics; m_InodesUsed metrics]).
Proof.
  intros o. subst o. unfold NodeGetVolumeStats, AsInt64.
  destruct (String.length (stats_VolumeId req) =? 0)%nat;
    [cbn; repeat split; try discriminate; congruence |].
  destruct (String.length (stats_VolumePath req) =? 0)%nat;
    [cbn; repeat split; try discriminate; congruence |].
  run_bind. rewrite !trace_call.
  destruct (value (call (Lstat (stats_VolumePath req)) w)) as [fi [e |]].
  { destruct (os_IsNotExist (Some e)); cbn; repeat split; try discriminate; congruence. }
  cbn [value world trace]. rewrite !trace_call.
  destruct (value (call (GetMetrics (stats_VolumePath req)) _)) as [metrics [e |]].
  { cbn; repeat split; try discriminate; congruence. }
  destruct (q_fits (m_Available metrics)) eqn:H1; cbn [negb];
    [| cbn; repeat split; try discriminate; congruence].
  destruct (q_fits (m_Capacity metrics)) eqn:H2; cbn [negb];
    [| cbn; repeat split; try discriminate; congruence].
  destruct (q_fits (m_Used metrics)) eqn:H3; cbn [negb];
    [| cbn; repeat split; try discriminate; congruence].
  destruct (q_fits (m_InodesFree metrics)) eqn:H4; cbn [negb];
    [| cbn; repeat split; try discriminate; congruence].
  destruct (q_fits (m_Inodes metrics)) eqn:H5; cbn [negb];
    [| cbn; repeat split; try discriminate; congruence].
  destruct (q_fits (m_InodesUsed metrics)) eqn:H6; cbn [negb];
    [| cbn; repeat split; try discriminate; congruence].
  cbn [value world trace fst snd app].
  split; [split; [discriminate | congruence] |].
  split; [reflexivity |].
  intros usages [= <-]. exists metrics.
  split; [right; left; reflexivity |]. split; [reflexivity |].
  repeat constructor; assumption.
Qed.

(** The codes of the answers.  Publish and unpublish answer with OK,
    InvalidArgument or Internal; stage and unstage also with Aborted; the
    statistics also with NotFound, which is the answer exactly when
    [os.Lstat] says that the path of a complete request does not exist;
    expansion always answers Unimplemented.  There is one exception: when
    [preparePublishPath] or [prepareStagePath] fails, publish and stage
    return a plain error (the code is Unknown). *)
Theorem response_codes (w : W) :
  (forall req, let o := NodePublishVolume req w in
     In (status_Code (value o)) [OK; InvalidArgument; Internal]
     \/ exists e, value o = Some (fmt_Errorf ("prepare publish failed for " +:+ pub_TargetPath req
                                               +:+ " with error: " +:+ Error e)))
  /\ (forall req, In (status_Code (value (NodeUnpublishVolume req w)))
                    [OK; InvalidArgument; Internal])
  /\ (forall req, let o := NodeStageVolume req w in
        In (status_Code (value o)) [OK; InvalidArgument; Aborted; Internal]
        \/ exists e, value o = Some (fmt_Errorf ("prepare stage path failed for "
                                                  +:+ stage_StagingTargetPath req
                                                  +:+ " with error: " +:+ Error e)))
  /\ (forall req, In (status_Code (value (NodeUnstageVolume req w)))
                    [OK; InvalidArgument; Aborted; Internal])
  /\ (forall req, let o := NodeGetVolumeStats req w in
        In (status_Code (snd (value o))) [OK; InvalidArgument; NotFound; Internal]
        /\ (status_Code (snd (value o)) = NotFound
            <-> stats_VolumeId req <> "" /\ stats_VolumePath req <> ""
                /\ os_IsNotExist (snd (value (call (Lstat (stats_VolumePath req)) w))) = true))
  /\ status_Code (value (NodeExpandVolume w)) = Unimplemented.
Proof.
  split; [intros req; apply NodePublishVolume_codes |].
  split; [intros req; apply NodeUnpublishVolume_codes |].
  split; [intros req; apply NodeStageVolume_codes |].
  split; [intros req; apply NodeUnstageVolume_codes |].
  split; [| reflexivity].
  intros req o. split; [apply NodeGetVolumeStats_codes |].
  subst o. unfold NodeGetVolumeStats, AsInt64.
  destruct (String.length (stats_VolumeId req) =? 0)%nat eqn:Hid;
    [apply length_eqb_0 in Hid; cbn; split; [discriminate | tauto] |].
  destruct (String.length (stats_VolumePath req) =? 0)%nat eqn:Hpath;
    [apply length_eqb_0 in Hpath; cbn; split; [discriminate | tauto] |].
  apply length_eqb_0_false in Hid, Hpath.
  run_bind.
  destruct (value (call (Lstat (stats_VolumePath req)) w)) as [fi [e |]]; cbn [snd value].
  - destruct (os_IsNotExist (Some e)); cbn [snd value]; cbn; split; try tauto; try discriminate.
    intros (_ & _ & E). discriminate E.
  - split; [| intros (_ & _ & E); discriminate E].
    branches; cbn; discriminate.
Qed.

Lemma getKerberosCache_content (krb5CcacheName : string) (secrets : gomap) (acc : string) :
  let content :=
    fold_left (fun content kv =>
                 if String.eqb (ToLower (fst kv)) krb5CcacheName then snd kv else content)
      secrets acc in
  content = acc
  \/ exists k, In (k, content) secrets /\ ToLower k = krb5CcacheName.
Proof.
  revert acc. induction secrets as [| [k v] secrets IH]; intros acc; cbn [fold_left fst snd].
  - left. reflexivity.
  - destruct (IH (if String.eqb (ToLower k) krb5CcacheName then v else acc)) as [E | (k' & Hin & Hk)].
    + cbv zeta in E. rewrite E.
      destruct (String.eqb_spec (ToLower k) krb5CcacheName) as [Hk | _]; [right | left; reflexivity].
      exists k. split; [left; reflexivity | exact Hk].
    + right. exists k'. split; [right; exact Hin | exact Hk].
Qed.

(** [getKerberosCache] looks the cache up under the key [krb5cc_<uid>],
    whatever the case of the letters of the key in the secrets, and decodes
    it from base64.  When it succeeds, the content is the decoded value of
    such a secret, which is not empty, and the name is the canonical cache
    path of the uid.  When it fails, the error is an InvalidArgument status
    and name and content are empty. *)
Theorem getKerberosCache_decodes_the_secret (credUID : Z) (secrets : gomap) :
  let '(krb5CacheFileName, content, err) := getKerberosCache credUID secrets in
  match err with
  | None =>
      krb5CacheFileName = getKerberosFilePath (getKrb5CcacheName credUID)
      /\ exists k v,
           In (k, v) secrets /\ ToLower k = getKrb5CcacheName credUID /\ v <> ""
           /\ DecodeString v = (content, None)
  | Some e =>
      err_status e = Some InvalidArgument /\ krb5CacheFileName = "" /\ content = ""
  end.
Proof.
  unfold getKerberosCache.
  destruct (getKerberosCache_content (getKrb5CcacheName credUID) secrets "") as [E | (k & Hin & Hk)];
    cbv zeta in *.
  - rewrite E. cbn. repeat split.
  - destruct (String.eqb_spec
                (fold_left
                   (fun content kv =>
                      if String.eqb (ToLower (fst kv)) (getKrb5CcacheName credUID)
                      then snd kv else content) secrets "") "") as [E | Hne];
      [cbn; repeat split |].
    destruct (DecodeString _) as [content [e |]] eqn:Hdec; [cbn; repeat split |].
    split; [reflexivity |]. eexists k, _. repeat split; eassumption.
Qed.

Lemma stageMount_mounts (volumeID targetPath source subDir : string) (subDirReplaceMap : gomap)
    (mountOptions sensitiveMountOptions : list string) (w : W) :
  let o := stageMount volumeID targetPath source subDir subDirReplaceMap
             mountOptions sensitiveMountOptions w in
  (mounts (trace o) = []
   /\ (value o = None -> value (ensureMountPoint targetPath w) = (true, None)))
  \/ exists r,
       mounts (trace o)
       = [Ev (SMBMount (stageSource source subDir subDirReplaceMap) targetPath "cifs"
                mountOptions sensitiveMountOptions) r]
       /\ (value o = None -> snd r = None).
Proof.
  intros o. subst o. unfold stageMount. run_bind.
  rewrite !mounts_app, silent_ensureMountPoint. cbn [app].
  destruct (value (ensureMountPoint targetPath w)) as [isDirMounted [e |]];
    cbn [value world trace]; [left; split; [reflexivity | discriminate] |].
  destruct isDirMounted; cbn [value world trace]; [left; split; reflexivity |].
  rewrite !mounts_app, mounts_call. cbn [mount_call app].
  destruct (value (call (prepareStagePath targetPath) _)) as [e |]; cbn [value world trace];
    [left; split; [reflexivity | discriminate] |].
  right.
  match goal with
  | |- context [stagePoll ?a ?b ?c ?d ?f ?w0] =>
      destruct (stagePoll_run a b c d f w0) as (Ht & _ & Hval); cbv zeta in Ht, Hval;
      rewrite Ht, Hval, mounts_call; cbn [mount_call];
      exists (value (call (SMBMount b c "cifs" d f) w0));
      destruct (value (call (SMBMount b c "cifs" d f) w0)) as [elapsed err]
  end.
  rewrite ?silent_ensureMountPoint. cbn [app].
  split; [reflexivity |]. cbn [fst snd].
  destruct err; [discriminate | reflexivity].
Qed.

(** Stage reports success only for a staging path that is mounted: either
    the probe found the path mounted, and the call made no mount, or the
    one network mount of the call returned without an error. *)
Theorem stage_succeeds_only_when_mounted (req : NodeStageVolumeRequest) (w : W) :
  let o := NodeStageVolume req w in
  value o = None ->
  let volumeID := stage_VolumeId req in
  let targetPath := stage_StagingTargetPath req in
  let mountFlags := GetMountFlags (GetMount (stage_VolumeCapability req)) in
  let prepared :=
    stageOptions volumeID targetPath mountFlags
      (GetVolumeMountGroup (GetMount (stage_VolumeCapability req)))
      (stage_Secrets req) (checkGidPresentInMountFlags mountFlags)
      (world (call (TryAcquire volumeID) w)) in
  (value (ensureMountPoint targetPath (world prepared)) = (true, None)
   /\ mounts (trace o) = [])
  \/ exists source mountOptions sensitiveMountOptions elapsed,
       mounts (trace o)
       = [Ev (SMBMount source targetPath "cifs" mountOptions sensitiveMountOptions)
            (elapsed, None)].
Proof.
  intros o Hv volumeID targetPath mountFlags prepared.
  destruct (decide (stage_VolumeId req = "")) as [Hid | Hid].
  { subst o. unfold NodeStageVolume in Hv. rewrite Hid in Hv. discriminate Hv. }
  destruct (decide (stage_VolumeCapability req = None)) as [Hcap | Hcap].
  { subst o. unfold NodeStageVolume in Hv.
    rewrite (length_nonempty _ Hid), Hcap in Hv. discriminate Hv. }
  destruct (decide (stage_StagingTargetPath req = "")) as [Htarget | Htarget].
  { subst o. unfold NodeStageVolume in Hv.
    rewrite (length_nonempty _ Hid), (is_nil_cap_some _ Hcap), Htarget in Hv. discriminate Hv. }
  destruct (stageContext (stage_VolumeContext req)) as [[source subDir] rmap] eqn:Hctx.
  destruct (decide (source = "")) as [Hsource | Hsource].
  { subst o. unfold NodeStageVolume in Hv.
    rewrite (length_nonempty _ Hid), (is_nil_cap_some _ Hcap), (length_nonempty _ Htarget),
      Hctx, Hsource in Hv. discriminate Hv. }
  subst o. revert Hv.
  rewrite (NodeStageVolume_accepted req w source subDir rmap Hid Hcap Htarget Hctx Hsource).
  cbv zeta. fold volumeID targetPath mountFlags.
  destruct (value (call (TryAcquire volumeID) w)); cbn [value trace]; [| discriminate].
  fold prepared.
  pose proof (silent_stageOptions volumeID targetPath mountFlags
                (GetVolumeMountGroup (GetMount (stage_VolumeCapability req)))
                (stage_Secrets req) (checkGidPresentInMountFlags mountFlags)
                (world (call (TryAcquire volumeID) w))) as Hquiet.
  fold prepared in Hquiet.
  destruct (value prepared) as [e | [mo smo]]; cbn [value trace]; [discriminate |].
  intros Hv.
  destruct (stageMount_mounts volumeID targetPath source subDir rmap mo smo (world prepared))
    as [[Hm Hp] | (r & Hm & Hr)]; cbv zeta in Hm.
  - left. split; [exact (Hp Hv) |].
    rewrite !mounts_app, mounts_call, Hquiet, Hm. reflexivity.
  - right. destruct r as [elapsed err]. cbv zeta in Hr. specialize (Hr Hv). cbn [snd] in Hr.
    subst err. eexists _, _, _, elapsed.
    rewrite !mounts_app, mounts_call, Hquiet, Hm. reflexivity.
Qed.

(** Only stage and unstage work under the lock of the volume: publish,
    unpublish, the statistics and the expansion never touch the lock
    table. *)
Theorem only_stage_and_unstage_lock (w : W) :
  (forall req, of_kind locking (trace (NodePublishVolume req w)) = [])
  /\ (forall req, of_kind locking (trace (NodeUnpublishVolume req w)) = [])
  /\ (forall req, of_kind locking (trace (NodeGetVolumeStats req w)) = [])
  /\ of_kind locking (trace (NodeExpandVolume w)) = [].
Proof.
  split; [| split; [| split; [| reflexivity]]]; intros req; revert w.
  - change (avoids locking (NodePublishVolume req)). unfold NodePublishVolume.
    pose proof locking_ensureMountPoint. avoid_tac.
  - change (avoids locking (NodeUnpublishVolume req)). unfold NodeUnpublishVolume. avoid_tac.
  - change (avoids locking (NodeGetVolumeStats req)). unfold NodeGetVolumeStats, AsInt64.
    avoid_tac.
Qed.

End Handlers.

(** ** What the handlers leave alone *)

Lemma unmounted_app (l1 l2 : list Event) : unmounted (l1 ++ l2) = unmounted l1 ++ unmounted l2.
Proof. unfold unmounted. apply omap_app. Qed.

Ltac all_but_last_two l :=
  lazymatch l with
  | [_; _] => constr:(@nil Event)
  | ?a :: ?rest => let r := all_but_last_two rest in constr:(a :: r)
  end.

Lemma removed_of_file_change (l : list Event) : of_kind file_change l = [] -> removed l = [].
Proof.
  induction l as [| [X c x] l IH]; [reflexivity |].
  destruct c; cbn; try discriminate; exact IH.
Qed.

Section Safety.

Context {W : Type} `{!Host W} `{!Runtime} `{!Package}.

(** The prober unmounts nothing but the target, at most once, and only
    right after the listing of the target has failed. *)
Theorem ensureMountPoint_unmounts_only_stale_target (target : string) (w : W) :
  let o := ensureMountPoint target w in
  unmounted (trace o) = []
  \/ exists before entries e r,
       trace o = before ++ [Ev (ReadDir target) (entries, Some e); Ev (Unmount target) r]
       /\ unmounted before = [].
Proof.
  intros o. subst o. unfold ensureMountPoint, probePrimary, probeMountList, probeFinish, makeDir.
  run_bind.
  repeat match goal with
  | |- context [value (call ?c ?w0)] =>
      rewrite (trace_call c w0);
      destruct (value (call c w0)) eqn:?; cbn [value world trace fst snd is_nil negb andb]
  | |- context [if ?b then _ else _] =>
      destruct b eqn:?; cbn [value world trace fst snd is_nil negb andb]
  | |- context [match ?x with Some _ => _ | None => _ end] =>
      destruct x eqn:?; cbn [value world trace fst snd is_nil negb andb]
  end.
  all: cbn [app].
  all: try (left; reflexivity).
  all: repeat match goal with
       | Hn : is_nil ?x = false |- _ => destruct x; [| discriminate Hn]; clear Hn
       end.
  all: right.
  all: match goal with
       | |- exists before entries e r, ?l = _ /\ _ =>
           let b := all_but_last_two l in exists b
       end.
  all: do 3 eexists; split; reflexivity.
Qed.

(** Publish removes nothing but the target, and only as the last thing it
    does, after its bind mount has failed. *)
Theorem publish_removes_only_after_failed_mount (req : NodePublishVolumeRequest) (w : W)
    (p : string) :
  let o := NodePublishVolume req w in
  let source := pub_StagingTargetPath req in
  let target := pub_TargetPath req in
  let mountOptions := if pub_Readonly req then ["bind"; "ro"] else ["bind"] in
  In p (removed (trace o)) ->
  p = target
  /\ exists e removeErr,
       mounts (trace o) = [Ev (MounterMount source target "" mountOptions) (Some e)]
       /\ last (trace o) = Some (Ev (Remove target) removeErr).
Proof.
  intros o source target mountOptions. subst o. unfold NodePublishVolume.
  destruct (is_nil_cap (pub_VolumeCapability req)); [intros [] |].
  destruct (String.length (pub_VolumeId req) =? 0)%nat; [intros [] |].
  destruct (String.length (pub_TargetPath req) =? 0)%nat; [intros [] |].
  destruct (String.length (pub_StagingTargetPath req) =? 0)%nat; [intros [] |].
  fold source target.
  replace (if pub_Readonly req then ["bind"] ++ ["ro"] else ["bind"]) with mountOptions
    by (unfold mountOptions; destruct (pub_Readonly req); reflexivity).
  run_bind.
  pose proof (removed_of_file_change _ (file_change_ensureMountPoint target w)) as Hprobe.
  pose proof (silent_ensureMountPoint target w) as Hquiet.
  rewrite !removed_app, !mounts_app, Hprobe, Hquiet. cbn [app].
  destruct (value (ensureMountPoint target w)) as [mnt [e |]]; cbn [value world trace];
    [intros [] |].
  destruct mnt; cbn [value world trace]; [intros [] |].
  rewrite !removed_app, !mounts_app, !trace_call. cbn [removed omap list_omap ev_call app].
  destruct (value (call (preparePublishPath target) _)); cbn [value world trace];
    [intros [] |].
  rewrite !removed_app, !mounts_app, !trace_call.
  cbn [removed omap list_omap ev_call app mounts List.filter is_mount mount_call].
  match goal with
  | |- context [value (call (MounterMount source target "" mountOptions) ?w0)] =>
      destruct (value (call (MounterMount source target "" mountOptions) w0)) as [e |]
  end; cbn [value world trace]; [| intros []].
  rewrite !trace_call.
  match goal with
  | |- context [value (call (Remove target) ?w0)] =>
      destruct (value (call (Remove target) w0)) as [removeErr |]
  end; cbn [trace removed omap list_omap ev_call app mounts List.filter is_mount mount_call In].
  all: intros [<- | []]; split; [reflexivity |].
  - exists e, (Some removeErr). split; [reflexivity |].
    match goal with
    | |- last (?l ++ [?a; ?b; ?c]) = _ => change (l ++ [a; b; c]) with (l ++ [a; b] ++ [c])
    end.
    rewrite app_assoc. apply last_snoc.
  - exists e, None. split; [reflexivity |].
    match goal with
    | |- last (?l ++ [?a; ?b; ?c]) = _ => change (l ++ [a; b; c]) with (l ++ [a; b] ++ [c])
    end.
    rewrite app_assoc. apply last_snoc.
Qed.

End Safety.

(** ** The handlers at work on the example hosts *)

(** Claim C6 (the code departs from it).  When preparing the path fails,
    publish and stage return a plain [fmt.Errorf] error: the RPC answers
    with the code Unknown, not Internal. *)
Theorem prepare_path_failure_is_not_internal :
  value (NodePublishVolume publish_v1 prepare_fails)
    = Some (fmt_Errorf "prepare publish failed for /target with error: input/output error")
  /\ status_Code (value (NodePublishVolume publish_v1 prepare_fails)) = Unknown
  /\ value (NodeStageVolume stage_v1 prepare_fails)
     = Some (fmt_Errorf "prepare stage path failed for /staging with error: input/output error")
  /\ status_Code (value (NodeStageVolume stage_v1 prepare_fails)) = Unknown.
Proof. repeat split. Qed.

(** Claim C7, against the claim as it stands: a stage request without any
    secret and without guest flags is not rejected; it succeeds and
    mounts with empty credentials. *)
Lemma stage_without_credentials_mounts :
  stage_Secrets stage_v1_no_secrets = []
  /\ hasGuestMountOptions (GetMountFlags (GetMount (stage_VolumeCapability stage_v1_no_secrets)))
     = false
  /\ value (NodeStageVolume stage_v1_no_secrets fresh_host) = None
  /\ smb_mounts (trace (NodeStageVolume stage_v1_no_secrets fresh_host))
     = [("//server/share", "/staging", "cifs", [], ["username=,password="])].
Proof. repeat split; vm_compute; reflexivity. Qed.

Example stage_without_credentials_on_windows :
  smb_mounts (trace (@NodeStageVolume _ _ windows_runtime _ stage_v1_no_secrets quiet))
  = [("//server/share", "/staging", "cifs", ["AzureAD\"], [""])].
Proof. vm_compute. reflexivity. Qed.

Lemma mounted_target_is_noop_witness :
  let first := NodeStageVolume stage_v1 fresh_host in
  let second := NodeStageVolume stage_v1 (world first) in
  let third := NodePublishVolume publish_v1 (world second) in
  let fourth := NodePublishVolume publish_v1 (world third) in
  (value first = None /\ length (mounts (trace first)) = 1%nat)
  /\ (value second = None /\ mounts (trace second) = [])
  /\ (value third = None /\ length (mounts (trace third)) = 1%nat)
  /\ (value fourth = None /\ mounts (trace fourth) = []).
Proof.
  cbv zeta.
  split; [split; vm_compute; reflexivity |].
  split.
  - pose proof (proj2 (mounted_target_is_noop (W := Ideal)) stage_v1
                  (world (NodeStageVolume stage_v1 fresh_host))
                  "//server/share" "" [] [] ["username=u,password=p"]) as H.
    cbv zeta in H.
    assert (Hid : stage_VolumeId stage_v1 <> "") by discriminate.
    assert (Hcap : stage_VolumeCapability stage_v1 <> None) by discriminate.
    assert (Hpath : stage_StagingTargetPath stage_v1 <> "") by discriminate.
    assert (Hsource : "//server/share" <> "") by discriminate.
    specialize (H Hid Hcap Hpath eq_refl Hsource).
    repeat match type of H with
           | ?A -> _ => let Ha := fresh in
                        assert (Ha : A) by (vm_compute; reflexivity); specialize (H Ha)
           end.
    split; apply H.
  - split; [split; vm_compute; reflexivity |].
    pose proof (proj1 (mounted_target_is_noop (W := Ideal)) publish_v1
                  (world (NodePublishVolume publish_v1
                     (world (NodeStageVolume stage_v1
                        (world (NodeStageVolume stage_v1 fresh_host))))))) as H.
    cbv zeta in H.
    assert (Hcap : pub_VolumeCapability publish_v1 <> None) by discriminate.
    assert (Hid : pub_VolumeId publish_v1 <> "") by discriminate.
    assert (Htarget : pub_TargetPath publish_v1 <> "") by discriminate.
    assert (Hstaging : pub_StagingTargetPath publish_v1 <> "") by discriminate.
    specialize (H Hcap Hid Htarget Hstaging).
    repeat match type of H with
           | ?A -> _ => let Ha := fresh in
                        assert (Ha : A) by (vm_compute; reflexivity); specialize (H Ha)
           end.
    split; apply H.
Defined.

Lemma stale_mount_recovery_surfaces_error_witness :
  snd (value (call (ReadDir "/staging") stale)) = Some EIO
  /\ value (probeFinish "/staging" false stale) = (false, Some EIO)
  /\ value (ensureMountPoint "/staging" stale) = (false, Some EIO)
  /\ status_Code (value (NodeStageVolume stage_v1 stale)) = Internal
  /\ mounts (trace (NodeStageVolume stage_v1 stale)) = [].
Proof.
  split; [reflexivity |].
  split; [exact (proj1 (stale_mount_recovery_surfaces_error "/staging" stale EIO eq_refl)) |].
  repeat split.
Defined.

Lemma credential_cache_round_trip_witness :
  let ensured := ensureKerberosCache "v1" kerberos_flags kerberos_secrets kerberos_host in
  let deleted := deleteKerberosCache "v1" (world ensured) in
  value ensured = (true, None)
  /\ files (world ensured) !! "/var/lib/kubelet/kerberos/krb5cc_1000"
     = Some (Link "/var/lib/kubelet/kerberos/djE=")
  /\ value deleted = None
  /\ files (world deleted) !! "/var/lib/kubelet/kerberos/djE=" = None
  /\ files (world deleted) !! "/var/lib/kubelet/kerberos/djI=" = Some (File "other" 1000 1000).
Proof.
  cbv zeta.
  assert (Hensured : value (ensureKerberosCache "v1" kerberos_flags kerberos_secrets kerberos_host)
                     = (true, None)) by (vm_compute; reflexivity).
  pose proof (credential_cache_round_trip kerberos_host "v1" kerberos_flags kerberos_secrets) as H.
  cbv zeta in H.
  destruct H as (Hv & Hgone & _ & Hother).
  - vm_compute. reflexivity.
  - reflexivity.
  - intros target. vm_compute. discriminate.
  - vm_compute. discriminate.
  - exact Hensured.
  - split; [exact Hensured |].
    split; [vm_compute; reflexivity |].
    split; [exact Hv |].
    split; [exact Hgone |].
    specialize (Hother "v2"). cbv zeta in Hother.
    change (getKerberosFilePath (volumeKerberosCacheName "v2"))
      with "/var/lib/kubelet/kerberos/djI=" in Hother.
    rewrite Hother.
    + vm_compute. reflexivity.
    + discriminate.
    + vm_compute. discriminate.
    + vm_compute. discriminate.
Defined.

Lemma stage_poll_never_times_out_witness :
  let o := NodeStageVolume stage_v1 slow_mount in
  mounts (trace o)
    = [Ev (SMBMount "//server/share" "/staging" "cifs" [] ["username=u,password=p"])
         (3 * Minute, None)]
  /\ value o = None.
Proof.
  cbv zeta.
  pose proof (proj2 (stage_poll_never_times_out (W := Script)) stage_v1 slow_mount
                "//server/share" "" [] [] ["username=u,password=p"]) as H.
  cbv zeta in H.
  assert (Hid : stage_VolumeId stage_v1 <> "") by discriminate.
  assert (Hcap : stage_VolumeCapability stage_v1 <> None) by discriminate.
  assert (Hpath : stage_StagingTargetPath stage_v1 <> "") by discriminate.
  assert (Hsource : "//server/share" <> "") by discriminate.
  specialize (H Hid Hcap Hpath eq_refl Hsource).
  repeat match type of H with
         | ?A -> _ => let Ha := fresh in
                      assert (Ha : A) by (vm_compute; reflexivity); specialize (H Ha)
         end.
  destruct H as (_ & Hm & _ & Hv & _).
  split.
  - rewrite Hm. vm_compute. reflexivity.
  - rewrite Hv. vm_compute. reflexivity.
Defined.

Lemma publish_rolls_back_failed_bind_mount_witness :
  let o := NodePublishVolume publish_v1 fresh_host in
  value o
    = Some (status_Error Internal
              ("Could not mount " +:+ Quote "/staging" +:+ " at " +:+ Quote "/target"
                 +:+ ": " +:+ Error ENOENT))
  /\ length (trace o) = 7%nat
  /\ files (world o) !! "/target" = None.
Proof.
  cbv zeta.
  pose proof (publish_rolls_back_failed_bind_mount (W := Ideal) publish_v1 fresh_host ENOENT)
    as H.
  cbv zeta in H.
  assert (Hcap : pub_VolumeCapability publish_v1 <> None) by discriminate.
  assert (Hid : pub_VolumeId publish_v1 <> "") by discriminate.
  assert (Htarget : pub_TargetPath publish_v1 <> "") by discriminate.
  assert (Hstaging : pub_StagingTargetPath publish_v1 <> "") by discriminate.
  specialize (H Hcap Hid Htarget Hstaging).
  repeat match type of H with
         | ?A -> _ => let Ha := fresh in
                      assert (Ha : A) by (vm_compute; reflexivity); specialize (H Ha)
         end.
  destruct H as (Hv & Ht & Hw).
  split; [rewrite Hv; vm_compute; reflexivity |].
  split; [rewrite Ht; vm_compute; reflexivity |].
  rewrite Hw. vm_compute. reflexivity.
Defined.

Lemma stage_hands_credentials_to_mount_witness :
  hasGuestMountOptions (GetMountFlags (GetMount (stage_VolumeCapability stage_v1_no_secrets)))
    = false
  /\ In ("//server/share", "/staging", "cifs", [], ["username=,password="])
        (smb_mounts (trace (NodeStageVolume stage_v1_no_secrets fresh_host)))
  /\ (hasKerberosMountOption [] = false ->
      ["username=,password="]
      = [usernameField +:+ "=" +:+ "" +:+ "," +:+ passwordField +:+ "=" +:+ ""]).
Proof.
  assert (Hin : In ("//server/share", "/staging", "cifs", [], ["username=,password="])
                   (smb_mounts (trace (NodeStageVolume stage_v1_no_secrets fresh_host))))
    by (vm_compute; left; reflexivity).
  split; [reflexivity |].
  split; [exact Hin |].
  exact (stage_hands_credentials_to_mount (W := Ideal) stage_v1_no_secrets fresh_host
           "//server/share" "/staging" "cifs" [] ["username=,password="] eq_refl Hin).
Defined.

Lemma stage_mounts_source_with_subdir_witness :
  stageContext (stage_VolumeContext stage_v1_subdir)
    = ("//server/share//", "${pvc.metadata.namespace}/${pvc.metadata.name}",
       [("${pvc.metadata.namespace}", "ns1"); ("${pvc.metadata.name}", "claim1")])
  /\ In ("//server/share/ns1/claim1", "/staging", "cifs", [], ["username=u,password=p"])
        (smb_mounts (trace (NodeStageVolume stage_v1_subdir fresh_host)))
  /\ "//server/share/ns1/claim1"
     = strings.TrimRight1 "//server/share//" "/" +:+ "/"
         +:+ replaceWithMap "${pvc.metadata.namespace}/${pvc.metadata.name}"
               [("${pvc.metadata.namespace}", "ns1"); ("${pvc.metadata.name}", "claim1")].
Proof.
  assert (Hin : In ("//server/share/ns1/claim1", "/staging", "cifs", [],
                    ["username=u,password=p"])
                   (smb_mounts (trace (NodeStageVolume stage_v1_subdir fresh_host))))
    by (vm_compute; left; reflexivity).
  split; [reflexivity |].
  split; [exact Hin |].
  apply (proj1 (stage_mounts_source_with_subdir (W := Ideal)) stage_v1_subdir fresh_host
           "//server/share//" "${pvc.metadata.namespace}/${pvc.metadata.name}"
           [("${pvc.metadata.namespace}", "ns1"); ("${pvc.metadata.name}", "claim1")]
           "//server/share/ns1/claim1" "/staging" "cifs" [] ["username=u,password=p"]).
  - reflexivity.
  - discriminate.
  - exact Hin.
Defined.

Lemma volumeKerberosCacheName_injective_witness :
  "v1" <> "v2"
  /\ volumeKerberosCacheName "v1" <> volumeKerberosCacheName "v2"
  /\ getKerberosFilePath (volumeKerberosCacheName "v1")
     <> getKerberosFilePath (volumeKerberosCacheName "v2").
Proof.
  split; [discriminate |].
  apply volumeKerberosCacheName_injective. discriminate.
Defined.

Lemma deleteKerberosCache_skips_on_stat_error_witness :
  snd (value (call (Stat krb5CacheDirectory) stat_fails)) = Some EIO
  /\ os_IsNotExist (Some EIO) = false
  /\ value (deleteKerberosCache "v1" stat_fails) = None
  /\ trace (deleteKerberosCache "v1" stat_fails)
     = [Ev (Stat krb5CacheDirectory) (None, Some EIO)].
Proof.
  assert (Hstat : snd (value (call (Stat krb5CacheDirectory) stat_fails)) = Some EIO)
    by reflexivity.
  split; [exact Hstat |]. split; [reflexivity |].
  destruct (deleteKerberosCache_skips_on_stat_error "v1" stat_fails EIO Hstat)
    as (_ & _ & Hv & Ht & _).
  split; [exact Hv | exact Ht].
Defined.

Ltac feed H :=
  cbv zeta in H;
  repeat match type of H with
         | ?A -> _ =>
             let Ha := fresh in
             assert (Ha : A) by (vm_compute; reflexivity); specialize (H Ha)
         end.

Lemma stage_releases_the_volume_lock_witness :
  (exists body,
     trace (NodeStageVolume stage_v1 quiet)
     = [Ev (TryAcquire "v1") true] ++ body ++ [Ev (Release "v1") tt]
     /\ of_kind locking body = [])
  /\ value (NodeStageVolume stage_v1 busy)
     = Some (status_Error Aborted (volumeOperationAlreadyExists "v1"))
  /\ trace (NodeStageVolume stage_v1 busy) = [Ev (TryAcquire "v1") false].
Proof.
  assert (Hid : stage_VolumeId stage_v1 <> "") by discriminate.
  assert (Hcap : stage_VolumeCapability stage_v1 <> None) by discriminate.
  assert (Hpath : stage_StagingTargetPath stage_v1 <> "") by discriminate.
  assert (Hsource : fst (fst (stageContext (stage_VolumeContext stage_v1))) <> "")
    by discriminate.
  split.
  - exact (proj2 (stage_releases_the_volume_lock (W := Script) stage_v1 quiet
                    Hid Hcap Hpath Hsource)).
  - destruct (proj2 (stage_releases_the_volume_lock (W := Script) stage_v1 busy
                       Hid Hcap Hpath Hsource)) as (Hv & Ht & _).
    split; [exact Hv | exact Ht].
Defined.

Lemma unstage_unmounts_then_clears_cache_witness :
  value (NodeUnstageVolume unstage_v1 stat_fails) = None
  /\ trace (NodeUnstageVolume unstage_v1 stat_fails)
     = [Ev (TryAcquire "v1") true; Ev (CleanupSMBMountPoint "/staging" true) None;
        Ev (Stat krb5CacheDirectory) (None, Some EIO); Ev (Release "v1") tt].
Proof.
  assert (Hid : unstage_VolumeId unstage_v1 <> "") by discriminate.
  assert (Hpath : unstage_StagingTargetPath unstage_v1 <> "") by discriminate.
  destruct (unstage_unmounts_then_clears_cache (W := Script) unstage_v1 stat_fails Hid Hpath)
    as (Hv & Ht & _).
  split; [exact Hv | exact Ht].
Defined.

Lemma stage_mounts_cifs_on_staging_path_witness :
  In ("//server/share", "/staging", "cifs", [], ["username=u,password=p"])
     (smb_mounts (trace (NodeStageVolume stage_v1 fresh_host)))
  /\ "/staging" = stage_StagingTargetPath stage_v1
  /\ "cifs" = "cifs"
  /\ ("" = "" -> "//server/share" = "//server/share").
Proof.
  assert (Hin : In ("//server/share", "/staging", "cifs", [], ["username=u,password=p"])
                   (smb_mounts (trace (NodeStageVolume stage_v1 fresh_host))))
    by (vm_compute; left; reflexivity).
  split; [exact Hin |].
  exact (stage_mounts_cifs_on_staging_path (W := Ideal) stage_v1 fresh_host
           "//server/share" "/staging" "cifs" [] ["username=u,password=p"] Hin).
Defined.

Lemma stage_passes_mount_flags_witness :
  In ("//server/share", "/staging", "cifs", ["vers=3.0"; "gid=1000"; "domain=CORP"],
      ["username=u,password=p"])
     (smb_mounts (trace (NodeStageVolume stage_v1_group fresh_host)))
  /\ ["vers=3.0"; "gid=1000"; "domain=CORP"]
     = ["vers=3.0"] ++ ["gid=" +:+ "1000"] ++ [domainField +:+ "=" +:+ "CORP"].
Proof.
  assert (Hin : In ("//server/share", "/staging", "cifs",
                    ["vers=3.0"; "gid=1000"; "domain=CORP"], ["username=u,password=p"])
                   (smb_mounts (trace (NodeStageVolume stage_v1_group fresh_host))))
    by (vm_compute; left; reflexivity).
  split; [exact Hin |].
  exact (stage_passes_mount_flags (W := Ideal) stage_v1_group fresh_host
           "//server/share" "/staging" "cifs" ["vers=3.0"; "gid=1000"; "domain=CORP"]
           ["username=u,password=p"] eq_refl Hin).
Defined.

Lemma stage_withholds_credentials_witness :
  hasGuestMountOptions (GetMountFlags (GetMount (stage_VolumeCapability stage_v1_guest))) = true
  /\ In ("//server/share", "/staging", "cifs", ["guest"], [])
        (smb_mounts (trace (NodeStageVolume stage_v1_guest fresh_host)))
  /\ (@nil string = []
      /\ (String.eqb GOOS "windows" = true -> ["guest"] = []))
  /\ smb_mounts (trace (NodeStageVolume stage_v1_kerberos kerberos_host))
     = [("//server/share", "/staging", "cifs", kerberos_flags, [])].
Proof.
  assert (Hguest : In ("//server/share", "/staging", "cifs", ["guest"], [])
                      (smb_mounts (trace (NodeStageVolume stage_v1_guest fresh_host))))
    by (vm_compute; left; reflexivity).
  split; [reflexivity |]. split; [exact Hguest |].
  split; [| vm_compute; reflexivity].
  exact (stage_withholds_credentials (W := Ideal) stage_v1_guest fresh_host
           "//server/share" "/staging" "cifs" ["guest"] [] (or_introl eq_refl) Hguest).
Defined.

Lemma stage_without_kerberos_changes_no_file_witness :
  hasKerberosMountOption (GetMountFlags (GetMount (stage_VolumeCapability stage_v1))) = false
  /\ of_kind file_change (trace (NodeStageVolume stage_v1 fresh_host)) = []
  /\ length (trace (NodeStageVolume stage_v1 fresh_host)) = 9%nat.
Proof.
  split; [reflexivity |].
  split; [| vm_compute; reflexivity].
  exact (stage_without_kerberos_changes_no_file (W := Ideal) stage_v1 fresh_host
           (or_intror eq_refl)).
Defined.

Lemma ensureMountPoint_verdict_witness :
  value (ensureMountPoint "/staging" quiet) = (false, None)
  /\ (exists r,
        last (trace (ensureMountPoint "/staging" quiet)) = Some (Ev (MkdirAll "/staging" 493) r)
        /\ (r = None \/ os_IsExist r = true))
  /\ value (ensureMountPoint "/target" bind_mounted) = (true, None)
  /\ (exists entries,
        last (trace (ensureMountPoint "/target" bind_mounted))
        = Some (Ev (ReadDir "/target") (entries, None))).
Proof.
  split; [reflexivity |].
  split; [exact (ensureMountPoint_verdict (W := Script) "/staging" quiet eq_refl) |].
  split; [reflexivity |].
  exact (ensureMountPoint_verdict (W := Script) "/target" bind_mounted eq_refl).
Defined.

Lemma ensureMountPoint_consults_mount_table_witness :
  value (call (IsLikelyNotMountPoint "/target") bind_mounted) = (true, None)
  /\ value (ensureMountPoint "/target" bind_mounted) = (true, None)
  /\ length (trace (ensureMountPoint "/target" bind_mounted)) = 4%nat.
Proof.
  pose proof (proj2 (ensureMountPoint_consults_mount_table (W := Script) "/target" bind_mounted))
    as H.
  feed H. destruct H as [Hv Ht].
  split; [reflexivity |]. split; [exact Hv |]. rewrite Ht. reflexivity.
Defined.

Lemma deleteKerberosCache_removes_only_links_to_the_cache_witness :
  let ensured := ensureKerberosCache "v1" kerberos_flags kerberos_secrets kerberos_host in
  let o := deleteKerberosCache "v1" (world ensured) in
  removed (trace o)
  = ["/var/lib/kubelet/kerberos/krb5cc_1000"; "/var/lib/kubelet/kerberos/djE="]
  /\ exists entries listErr name err,
       In (Ev (ReadDir krb5CacheDirectory) (entries, listErr)) (trace o)
       /\ In name entries
       /\ "/var/lib/kubelet/kerberos/krb5cc_1000" = getKerberosFilePath name
       /\ In (Ev (Readlink "/var/lib/kubelet/kerberos/krb5cc_1000")
                ("/var/lib/kubelet/kerberos/djE=", err)) (trace o).
Proof.
  cbv zeta.
  assert (Hremoved :
            removed (trace (deleteKerberosCache "v1"
                      (world (ensureKerberosCache "v1" kerberos_flags kerberos_secrets
                                kerberos_host))))
            = ["/var/lib/kubelet/kerberos/krb5cc_1000"; "/var/lib/kubelet/kerberos/djE="])
    by (vm_compute; reflexivity).
  split; [exact Hremoved |].
  destruct (deleteKerberosCache_removes_only_links_to_the_cache (W := Ideal) "v1"
              (world (ensureKerberosCache "v1" kerberos_flags kerberos_secrets kerberos_host))
              "/var/lib/kubelet/kerberos/krb5cc_1000") as [E | Hlink].
  - rewrite Hremoved. left. reflexivity.
  - apply (f_equal String.length) in E. vm_compute in E. discriminate E.
  - exact Hlink.
Defined.

Lemma ensureKerberosCache_checks_before_writing_witness :
  hasKerberosMountOption kerberos_flags = true
  /\ snd (value (call (Stat krb5CacheDirectory) fresh_host)) = Some ENOENT
  /\ fst (value (ensureKerberosCache "v1" kerberos_flags kerberos_secrets fresh_host)) = false
  /\ trace (ensureKerberosCache "v1" kerberos_flags kerberos_secrets fresh_host)
     = [Ev (Stat krb5CacheDirectory) (None, Some ENOENT)]
  /\ fst (value (ensureKerberosCache "v1" kerberos_flags [] kerberos_host)) = false
  /\ length (trace (ensureKerberosCache "v1" kerberos_flags [] kerberos_host)) = 1%nat.
Proof.
  assert (Hdir : snd (value (call (Stat krb5CacheDirectory) fresh_host)) <> None)
    by discriminate.
  destruct (ensureKerberosCache_checks_before_writing (W := Ideal) "v1" kerberos_flags
              kerberos_secrets fresh_host eq_refl (or_introl Hdir)) as (Hv & _ & Ht & _).
  assert (Hcache : snd (getKerberosCache (fst (getCredUID kerberos_flags)) []) <> None)
    by discriminate.
  destruct (ensureKerberosCache_checks_before_writing (W := Ideal) "v1" kerberos_flags
              [] kerberos_host eq_refl (or_intror (or_intror Hcache))) as (Hv' & _ & Ht' & _).
  split; [reflexivity |]. split; [reflexivity |].
  split; [exact Hv |]. split; [exact Ht |].
  split; [exact Hv' |]. rewrite Ht'. reflexivity.
Defined.

Lemma ensureKerberosCache_success_trace_witness :
  let o := ensureKerberosCache "v1" kerberos_flags kerberos_secrets kerberos_host in
  fst (value o) = true
  /\ exists credUID content dirInfo canonStat removal,
       getCredUID kerberos_flags = (credUID, None)
       /\ trace o
          = [Ev (Stat krb5CacheDirectory) (dirInfo, None);
             Ev (WriteFile (getKerberosFilePath (volumeKerberosCacheName "v1")) content 448) None;
             Ev (Chown (getKerberosFilePath (volumeKerberosCacheName "v1")) credUID credUID) None;
             Ev (Stat (getKerberosFilePath (getKrb5CcacheName credUID))) canonStat]
            ++ removal
            ++ [Ev (Symlink (getKerberosFilePath (volumeKerberosCacheName "v1"))
                      (getKerberosFilePath (getKrb5CcacheName credUID))) None].
Proof.
  cbv zeta.
  assert (Hv : fst (value (ensureKerberosCache "v1" kerberos_flags kerberos_secrets kerberos_host))
               = true) by (vm_compute; reflexivity).
  split; [exact Hv |].
  destruct (ensureKerberosCache_success_trace (W := Ideal) "v1" kerberos_flags kerberos_secrets
              kerberos_host Hv)
    as (credUID & content & dirInfo & canonStat & removal & _ & Huid & _ & _ & Ht & _).
  exists credUID, content, dirInfo, canonStat, removal. split; [exact Huid | exact Ht].
Defined.

Lemma ensureKerberosCache_changes_two_paths_witness :
  omap changed_path (trace (ensureKerberosCache "v1" kerberos_flags kerberos_secrets kerberos_host))
  = ["/var/lib/kubelet/kerberos/djE="; "/var/lib/kubelet/kerberos/djE=";
     "/var/lib/kubelet/kerberos/krb5cc_1000"]
  /\ ("/var/lib/kubelet/kerberos/krb5cc_1000"
      = getKerberosFilePath (volumeKerberosCacheName "v1")
      \/ "/var/lib/kubelet/kerberos/krb5cc_1000"
         = getKerberosFilePath (getKrb5CcacheName (fst (getCredUID kerberos_flags)))).
Proof.
  assert (Hpaths :
            omap changed_path
              (trace (ensureKerberosCache "v1" kerberos_flags kerberos_secrets kerberos_host))
            = ["/var/lib/kubelet/kerberos/djE="; "/var/lib/kubelet/kerberos/djE=";
               "/var/lib/kubelet/kerberos/krb5cc_1000"])
    by (vm_compute; reflexivity).
  split; [exact Hpaths |].
  apply (ensureKerberosCache_changes_two_paths (W := Ideal) "v1" kerberos_flags kerberos_secrets
           kerberos_host).
  rewrite Hpaths. right. right. left. reflexivity.
Defined.

Lemma stage_stops_on_cache_failure_witness :
  value (NodeStageVolume stage_v1_kerberos fresh_host)
  = Some (status_Error Internal
            ("Error writing kerberos cache: "
               +:+ Error (status_Error Internal
                            ("Directory for kerberos caches must exist, it will not be created: "
                               +:+ krb5CacheDirectory +:+ ": " +:+ Error ENOENT))))
  /\ trace (NodeStageVolume stage_v1_kerberos fresh_host)
     = [Ev (TryAcquire "v1") true; Ev (Stat krb5CacheDirectory) (None, Some ENOENT);
        Ev (Release "v1") tt].
Proof.
  assert (Hid : stage_VolumeId stage_v1_kerberos <> "") by discriminate.
  assert (Hcap : stage_VolumeCapability stage_v1_kerberos <> None) by discriminate.
  assert (Hpath : stage_StagingTargetPath stage_v1_kerberos <> "") by discriminate.
  assert (Hsource : fst (fst (stageContext (stage_VolumeContext stage_v1_kerberos))) <> "")
    by discriminate.
  pose proof (stage_stops_on_cache_failure (W := Ideal) stage_v1_kerberos fresh_host
                (status_Error Internal
                   ("Directory for kerberos caches must exist, it will not be created: "
                      +:+ krb5CacheDirectory +:+ ": " +:+ Error ENOENT))
                Hid Hcap Hpath Hsource eq_refl) as H.
  cbv zeta in H.
  assert (Hlocked : value (call (TryAcquire (stage_VolumeId stage_v1_kerberos)) fresh_host) = true)
    by (vm_compute; reflexivity).
  specialize (H Hlocked).
  match type of H with
  | ?A -> _ => assert (Ha : A) by (vm_compute; reflexivity); specialize (H Ha)
  end.
  destruct H as [Hv Ht]. split; [exact Hv |]. rewrite Ht. vm_compute. reflexivity.
Defined.

Lemma getCredUID_reads_first_cruid_witness :
  getCredUID ["sec=krb5"; "cruid=-1000"; "cruid=7"] = (-1000, None).
Proof.
  apply (getCredUID_reads_first_cruid ["sec=krb5"] ["cruid=7"] (-1000)).
  - constructor; [reflexivity | constructor].
  - split; [vm_compute; discriminate | reflexivity].
Defined.

Lemma stage_reads_its_maps_in_any_order_witness :
  stageSecrets [("password", "p"); ("Username", "u")]
  = stageSecrets [("Username", "u"); ("password", "p")]
  /\ fst (stageContext [("subDir", "d"); ("source", "//server/share")])
     = fst (stageContext [("source", "//server/share"); ("subDir", "d")]).
Proof.
  assert (Hnodup : forall a b : string, a <> b -> NoDup [a; b]).
  { intros a b Hab. apply NoDup_cons. split.
    - intros Hin. apply list_elem_of_singleton in Hin. contradiction.
    - apply NoDup_singleton. }
  destruct (stage_reads_its_maps_in_any_order
              [("Username", "u"); ("password", "p")] [("password", "p"); ("Username", "u")]
              [("source", "//server/share"); ("subDir", "d")]
              [("subDir", "d"); ("source", "//server/share")]) as (Hs & Hc & _).
  - apply Hnodup. discriminate.
  - apply perm_swap.
  - apply Hnodup. discriminate.
  - apply perm_swap.
  - discriminate.
  - discriminate.
  - discriminate.
  - split; [exact Hs | exact Hc].
Defined.

Lemma stage_source_ignores_trailing_slashes_witness :
  stageSource "//server/share//" "d" [] = "//server/share/d"
  /\ stageSource ("//server/share//" +:+ "/") "d" [] = stageSource "//server/share//" "d" [].
Proof.
  split; [reflexivity |].
  exact (proj1 (proj1 (stage_source_ignores_trailing_slashes "//server/share//" "d" [])
                  ltac:(discriminate))).
Defined.

Lemma stage_succeeds_only_when_mounted_witness :
  let first := NodeStageVolume stage_v1 fresh_host in
  let second := NodeStageVolume stage_v1 (world first) in
  value first = None
  /\ mounts (trace first)
     = [Ev (SMBMount "//server/share" "/staging" "cifs" [] ["username=u,password=p"]) (0, None)]
  /\ value second = None
  /\ mounts (trace second) = [].
Proof.
  cbv zeta.
  assert (Hv : value (NodeStageVolume stage_v1 fresh_host) = None) by (vm_compute; reflexivity).
  assert (Hv' : value (NodeStageVolume stage_v1 (world (NodeStageVolume stage_v1 fresh_host)))
                = None) by (vm_compute; reflexivity).
  split; [exact Hv |]. split; [vm_compute; reflexivity |]. split; [exact Hv' |].
  destruct (stage_succeeds_only_when_mounted (W := Ideal) stage_v1
              (world (NodeStageVolume stage_v1 fresh_host)) Hv')
    as [[_ Hm] | (source & mo & smo & elapsed & Hm)].
  - exact Hm.
  - apply (f_equal (@length Event)) in Hm. vm_compute in Hm. discriminate Hm.
Defined.

Lemma ensureMountPoint_unmounts_only_stale_target_witness :
  unmounted (trace (ensureMountPoint "/staging" stale)) = ["/staging"]
  /\ exists before entries e r,
       trace (ensureMountPoint "/staging" stale)
       = before ++ [Ev (ReadDir "/staging") (entries, Some e); Ev (Unmount "/staging") r]
       /\ unmounted before = [].
Proof.
  split; [reflexivity |].
  destruct (ensureMountPoint_unmounts_only_stale_target (W := Script) "/staging" stale)
    as [Hnone | Hstale].
  - vm_compute in Hnone. discriminate Hnone.
  - exact Hstale.
Defined.

Lemma publish_removes_only_after_failed_mount_witness :
  removed (trace (NodePublishVolume publish_v1 fresh_host)) = ["/target"]
  /\ exists e removeErr,
       mounts (trace (NodePublishVolume publish_v1 fresh_host))
       = [Ev (MounterMount "/staging" "/target" "" ["bind"; "ro"]) (Some e)]
       /\ last (trace (NodePublishVolume publish_v1 fresh_host))
          = Some (Ev (Remove "/target") removeErr).
Proof.
  assert (Hremoved : removed (trace (NodePublishVolume publish_v1 fresh_host)) = ["/target"])
    by (vm_compute; reflexivity).
  split; [exact Hremoved |].
  apply (publish_removes_only_after_failed_mount (W := Ideal) publish_v1 fresh_host "/target").
  rewrite Hremoved. left. reflexivity.
Defined.
